(** * Geppetto: the SubFind catalog reader and the light-cone map pipeline

    A shallow embedding of [IO/Gadget/ReadSubFind.py] (format discovery,
    the catalog constructor, the particle-ID reader) and of the driver
    script [PLC/fullplcfiner.py], followed by the properties of the
    design document that are settled on them.

    Conventions of the embedding.
    - Python exceptions are the constructors of [exn]; a computation that
      may raise returns a [result].
    - [print] calls are recorded as [message]s, independent of the way the
      interpreter renders them.
    - A file is the list of its bytes; a file system is a finite map from
      path names to files and holds regular files only.
    - A NumPy element is kept as the list of its bytes in memory order, so
      [byteswap] is list reversal and two arrays are numerically identical
      exactly when they hold the same bytes.  Integers that the code
      inspects (header counts) are decoded with the host byte order, which
      is taken to be little-endian.
    - The running offsets and totals of the constructor are sums of
      32-bit counts taken from NumPy arrays.  Their integer type depends
      on the version of NumPy: that of the counts with NumPy 2, [int64]
      before.  They are modelled by [Z] with the wrap-around of that type
      written out; the version is a parameter, as is the presence of the
      builtin [long].
    - The driver calls into modules that are not in the repository
      ([cosmology], [builder], [healpy], [geometry]).  What they return is
      a parameter of the embedding, and they are taken to return; what
      stops the script itself is modelled: [comm.Abort()], a missing map
      file, an index out of range in the table of a shell, particle
      arrays that [Scatterv] cannot split. *)

From Stdlib Require Import ZArith Lia.
From Stdlib Require Import SpecFloat.
From Stdlib Require Ascii.
From stdpp Require Import base option list strings pretty gmap.

Open Scope Z_scope.

(** ** Python: exceptions, results, printed messages *)

Inductive exn : Type :=
| TypeError
| ValueError
| NameError
| UnboundLocalError
| AttributeError
| IndexError
| IOError.

Inductive result (A : Type) : Type :=
| Ok (a : A)
| Raise (e : exn).
Arguments Ok {A} a.
Arguments Raise {A} e.

Definition rbind {A B} (r : result A) (k : A → result B) : result B :=
  match r with
  | Ok a => k a
  | Raise e => Raise e
  end.

(** The lines the reader prints.  Only the prints that do not depend on
    [verbose > 0] are kept: the constructor calls [guess_format] with the
    default [verbose=0]. *)
Inductive message : Type :=
| MsgFilesNotFound                       (* "ERROR: Subfind files not found" *)
| MsgNotUnderstood (fname : string)      (* "ERROR: I do not understand the format of file ..." *)
| MsgReadAsSnapshot                      (* "Please read this SubFind catalog as a snapshot" *)
| MsgErrorReading                        (* "Error in reading SubFind catalogs" (never reached) *)
| MsgNfilesMismatch (nfiles : nat) (Nfiles : Z)   (* "WARNING: inconsistency, ..." *)
| MsgNotFinished (fnb : nat)             (* "Warning: the file is not finished" *)
| MsgInconsistentTotals (TotNgroups self_TotNgroups : Z)  (* "ERROR: inconsistency in TotNgroups, ..." *)
| MsgIDsNotFinished (fnb : nat).         (* "Warning: finished reading before EOF for IDs file" *)

(** ** Strings: ["%03d" % n], ["%d" % n], [basedir[-1]] *)

Definition zero_pad (width : nat) (s : string) : string :=
  Nat.iter (width - String.length s) (String.append "0") s.

(** ["%03d" % n]: the sign counts in the width. *)
Definition fmt_03d (n : Z) : string :=
  match n with
  | Zneg p => "-" +:+ zero_pad 2 (pretty (Zpos p))
  | _ => zero_pad 3 (pretty n)
  end.

(** ["%d" % n] and [str(n)] for the non-negative segment counters. *)
Definition fmt_d (n : nat) : string := pretty n.

Inductive snap_arg : Type :=
| SnapInt (n : Z)
| SnapStr (s : string).

(** [if type(snapnum) is int: snapnum="%03d"%snapnum] *)
Definition snap_string (snapnum : snap_arg) : string :=
  match snapnum with
  | SnapInt n => fmt_03d n
  | SnapStr s => s
  end.

Fixpoint last_is_slash (s : string) : bool :=
  match s with
  | EmptyString => false
  | String c EmptyString => bool_decide (c = Ascii.Ascii true true true true false true false false)
  | String _ s' => last_is_slash s'
  end.

(** [if (basedir!="" and basedir[-1]!="/"): basedir+="/"] *)
Definition with_slash (basedir : string) : string :=
  if bool_decide (basedir ≠ "") && negb (last_is_slash basedir)
  then basedir +:+ "/" else basedir.

(** ** Files and the file system *)

(** Bytes are integers in [0, 256). *)
Abbreviation filesystem := (gmap string (list Z)).

(** [os.path.exists] *)
Definition path_exists (fs : filesystem) (p : string) : bool :=
  bool_decide (is_Some (fs !! p)).

(** [while exists: n+=1; exists=os.path.exists(prefix+".%d"%n)], started
    at [n = -1]: the least [n] whose file is missing.  The recursion is
    bounded by the number of files in the file system, which the loop
    cannot exceed ([probe_least] below). *)
Fixpoint probe (fs : filesystem) (prefix : string) (fuel n : nat) : nat :=
  match fuel with
  | O => n
  | S fuel' =>
      if path_exists fs (prefix +:+ "." +:+ fmt_d n)
      then probe fs prefix fuel' (S n)
      else n
  end.

Definition count_files (fs : filesystem) (prefix : string) : nat :=
  probe fs prefix (S (size fs)) 0.

(** ** NumPy: elements, byte order, [fromfile], slices *)

Inductive scalar : Type := Int32 | UInt32 | UInt64 | Float32.

(** [np.dtype(s)] and the sub-array types [np.dtype((s, n))]. *)
Record dtype : Type := Dtype { base : scalar; sub : option nat }.

Definition np_int32 := Dtype Int32 None.
Definition np_uint32 := Dtype UInt32 None.
Definition np_uint64 := Dtype UInt64 None.
Definition np_float32 := Dtype Float32 None.
Definition np_float32x (n : nat) := Dtype Float32 (Some n).

Definition scalar_size (s : scalar) : nat :=
  match s with
  | UInt64 => 8
  | _ => 4
  end.

Definition row_width (d : dtype) : nat := default 1%nat (sub d).
Definition itemsize (d : dtype) : nat := (scalar_size (base d) * row_width d)%nat.

(** An element is its bytes; a row is one element, or the [n] elements of
    a sub-array; an array cell is [None] until it is written ([np.empty]
    leaves the memory as it finds it). *)
Abbreviation element := (list Z).
Abbreviation row := (list (list Z)).
Abbreviation ndarray := (list (option (list (list Z)))).

Definition byteswap_row (r : row) : row := reverse <$> r.

(** [a.byteswap()] on an array that [fromfile] returned *)
Definition byteswap (a : list row) : list row := byteswap_row <$> a.

(** [myswap(a, flag)] *)
Definition myswap (a : list row) (flag : bool) : list row :=
  if flag then byteswap a else a.

(** Unsigned and signed little-endian values of an element. *)
Fixpoint le_unsigned (bs : element) : Z :=
  match bs with
  | [] => 0
  | b :: bs' => b + 256 * le_unsigned bs'
  end.

Definition le_signed (bs : element) : Z :=
  let u := le_unsigned bs in
  let m := 256 ^ Z.of_nat (length bs) in
  if decide (2 * u < m) then u else u - m.

Definition value_of (s : scalar) (e : element) : Z :=
  match s with
  | Int32 => le_signed e
  | _ => le_unsigned e
  end.

Fixpoint chunks {A} (size count : nat) (l : list A) : list (list A) :=
  match count with
  | O => []
  | S c => take size l :: chunks size c (drop size l)
  end.

(** An open binary file: its bytes and the read position. *)
Record handle : Type := Handle { content : list Z; pos : nat }.

Definition open_rb (fs : filesystem) (p : string) : result handle :=
  match fs !! p with
  | Some bytes => Ok (Handle bytes 0)
  | None => Raise IOError
  end.

(** [f.seek(off, os.SEEK_SET)] *)
Definition seek_set (f : handle) (off : nat) : handle := Handle (content f) off.

(** [np.fromfile(f, dtype=d, count=count)]: as many whole items as the
    file still holds, at most [count] of them (all of them when [count]
    is negative).  A short read leaves the position at the end of the
    file. *)
Definition fromfile (f : handle) (d : dtype) (count : Z) : list row * handle :=
  let avail := ((length (content f) - pos f) / itemsize d)%nat in
  let n := if decide (count < 0) then avail else Nat.min (Z.to_nat count) avail in
  let bytes := drop (pos f) (content f) in
  let rows := chunks (scalar_size (base d)) (row_width d)
                <$> chunks (itemsize d) n bytes in
  let pos' := if decide (0 ≤ count ∧ (n < Z.to_nat count)%nat)
              then Nat.max (pos f) (length (content f))
              else (pos f + n * itemsize d)%nat in
  (rows, Handle (content f) pos').

(** [np.empty(n, dtype=...)]: a negative length is refused; the cells
    are unwritten whatever the type. *)
Definition np_empty (n : Z) : result ndarray :=
  if decide (n < 0) then Raise ValueError else Ok (replicate (Z.to_nat n) None).

(** [np.zeros(dtype=d, shape=n)] *)
Definition np_zeros (d : dtype) (n : Z) : result ndarray :=
  if decide (n < 0) then Raise ValueError
  else Ok (replicate (Z.to_nat n)
             (Some (replicate (row_width d) (replicate (scalar_size (base d)) 0)))).

(** The bounds of [slice(start, stop)] on a sequence of length [len]. *)
Definition clamp_index (i len : Z) : Z :=
  if decide (i < 0) then Z.max 0 (i + len) else Z.min i len.

Definition slice_bounds (start stop len : Z) : nat * nat :=
  let lo := clamp_index start len in
  let hi := clamp_index stop len in
  (Z.to_nat lo, Z.to_nat (Z.max 0 (hi - lo))).

(** [a[start:stop] = rhs]: the right-hand side has the length of the
    slice, or has one row that is broadcast; anything else is refused
    ("could not broadcast input array"). *)
Definition assign_slice (a : ndarray) (start stop : Z) (rhs : list row)
  : result ndarray :=
  let '(lo, n) := slice_bounds start stop (Z.of_nat (length a)) in
  if decide (length rhs = n) then
    Ok (take lo a ++ (Some <$> rhs) ++ drop (lo + n) a)
  else
    match rhs with
    | [r] => Ok (take lo a ++ replicate n (Some r) ++ drop (lo + n) a)
    | _ => Raise ValueError
    end.

(** The value of an integer in a signed or an unsigned type of [bits]
    bits (two's complement). *)
Definition wrap_signed (bits z : Z) : Z :=
  (z + 2 ^ (bits - 1)) `mod` 2 ^ bits - 2 ^ (bits - 1).
Definition wrap_unsigned (bits z : Z) : Z := z `mod` 2 ^ bits.

(** [a + b] and [a += b], where [b] is an [np.int32] or an [np.uint32]
    taken from an array, and [a] is the Python integer 0 or an earlier
    such sum.  NumPy 2 gives the sum the type of [b]; before NumPy 2
    the Python integer counts as an [np.int64] (where the C long has 64
    bits), and so does every sum.  A sum that does not fit is wrapped
    around, with a warning. *)
Definition add_int32 (numpy2 : bool) (a b : Z) : Z :=
  if numpy2 then wrap_signed 32 (a + b) else wrap_signed 64 (a + b).
Definition add_uint32 (numpy2 : bool) (a b : Z) : Z :=
  if numpy2 then wrap_unsigned 32 (a + b) else wrap_signed 64 (a + b).

(** ** [guess_format] *)

(** What the reader looks at in the object [Snapshot.Init] returns.  The
    module [Snapshot] lies outside this development, which takes
    [Snapshot.Init] as a parameter. *)
Record snapshot : Type := Snapshot { snap_format : Z; snap_swap : bool }.

(** [f.seek(off,os.SEEK_SET); number=(np.fromfile(f,dtype=np.uint32,count=1))[0]] *)
Definition read_number (f : handle) (off : nat) : result element :=
  match (fromfile (seek_set f off) np_uint32 1).1 with
  | [e] :: _ => Ok e
  | _ => Raise IndexError
  end.

(** The three path templates, in the order they are probed. *)
Definition legacy_path (basedir snapnum : string) : string :=
  basedir +:+ "postproc_" +:+ snapnum +:+ "/sub_tab_" +:+ snapnum.
Definition extended_path (basedir snapnum : string) : string :=
  basedir +:+ "groups_" +:+ snapnum +:+ "/subhalo_tab_" +:+ snapnum.
Definition snapshot_path (basedir snapnum : string) : string :=
  basedir +:+ "groups_" +:+ snapnum +:+ "/sub_" +:+ snapnum.
Definition group_tab_path (basedir snapnum : string) : string :=
  basedir +:+ "groups_" +:+ snapnum +:+ "/group_tab_" +:+ snapnum.

(** Lines 66-100: the first template whose segment 0 exists. *)
Definition find_template (fs : filesystem) (basedir snapnum : string)
  : option (string * Z) :=
  if path_exists fs (legacy_path basedir snapnum +:+ ".0") then
    Some (legacy_path basedir snapnum, 0)
  else if path_exists fs (extended_path basedir snapnum +:+ ".0") then
    Some (extended_path basedir snapnum, 1)
  else if path_exists fs (snapshot_path basedir snapnum +:+ ".0") then
    Some (snapshot_path basedir snapnum, 2)
  else None.

Section GuessFormat.

Variable Snapshot_Init : filesystem → string → string → snapshot.

(** [guess_format(basedir,snapnum)]: what is printed, and what is
    returned ([None], or the triple [(nfiles, myformat, swap)]) or
    raised. *)
Definition guess_format (fs : filesystem) (basedir : string) (snapnum : snap_arg)
  : list message * result (option (nat * Z * bool)) :=
  let snapnum := snap_string snapnum in
  let basedir := with_slash basedir in
  match find_template fs basedir snapnum with
  | None => ([MsgFilesNotFound], Ok None)
  | Some (fname, myformat) =>
      let nfiles := count_files fs fname in
      if decide (myformat = 0) then
        let test := count_files fs (group_tab_path basedir snapnum) in
        match rbind (open_rb fs (fname +:+ ".0")) (λ f, read_number f 12) with
        | Raise e => ([], Raise e)
        | Ok number =>
            if decide (le_unsigned number = Z.of_nat test) then
              ([], Ok (Some (nfiles, 0, false)))
            else if decide (le_unsigned (reverse number) = Z.of_nat nfiles) then
              ([], Ok (Some (nfiles, 0, true)))
            else ([MsgNotUnderstood (fname +:+ ".0")], Ok None)
        end
      else if decide (myformat = 1) then
        match rbind (open_rb fs (fname +:+ ".0")) (λ f, read_number f 20) with
        | Raise e => ([], Raise e)
        | Ok number =>
            if decide (le_unsigned number = Z.of_nat nfiles) then
              ([], Ok (Some (nfiles, 1, false)))
            else if decide (le_unsigned (reverse number) = Z.of_nat nfiles) then
              ([], Ok (Some (nfiles, 1, true)))
            else ([MsgNotUnderstood (fname +:+ ".0")], Ok None)
        end
      else
        let snap := Snapshot_Init fs (basedir +:+ "groups_" +:+ snapnum +:+ "/sub") snapnum in
        if decide (snap_format snap = -99) then
          ([MsgNotUnderstood (fname +:+ ".0")], Ok None)
        else ([], Ok (Some (nfiles, 2, snap_swap snap)))
  end.

End GuessFormat.

(** ** The [catalog] object *)

(** The attributes of a [catalog] instance.  An attribute that has not
    been assigned is [None] (for the arrays: absent from [self_arrays],
    which is keyed by the attribute name). *)
Record catalog : Type := Catalog {
  self_snapnum : option string;
  self_basedir : option string;
  self_swap : option bool;
  self_Nfiles : option nat;
  self_myformat : option Z;
  self_long_IDs : option bool;
  self_id_format : option dtype;
  self_TotNgroups : option Z;
  self_TotNids : option Z;
  self_TotNsubhalos : option Z;
  self_arrays : gmap string ndarray
}.

Definition new_object : catalog :=
  Catalog None None None None None None None None None None ∅.

(** The keyword arguments of the constructor ([verbose] only adds
    prints). *)
Record options : Type := Options {
  long_IDs : bool;
  SaveMassTab : bool;
  SOVelDisp : bool;
  ConTermination : bool
}.

(** [catalog(basedir, snapnum)] with the defaults of the signature. *)
Definition default_options : options := Options false true false false.

(** The state a method runs in: the object, the file being read, and
    what has been printed. *)
Record state : Type := State { self : catalog; file : handle; out : list message }.

Definition M (A : Type) : Type := state → result A * state.

Definition ret {A} (a : A) : M A := λ st, (Ok a, st).
Definition raise {A} (e : exn) : M A := λ st, (Raise e, st).
Definition bind {A B} (m : M A) (k : A → M B) : M B :=
  λ st, match m st with
        | (Ok a, st') => k a st'
        | (Raise e, st') => (Raise e, st')
        end.
Definition lift {A} (r : result A) : M A := λ st, (r, st).
Definition get_self : M catalog := λ st, (Ok (self st), st).
Definition set_self (f : catalog → catalog) : M unit :=
  λ st, (Ok tt, State (f (self st)) (file st) (out st)).
Definition print (m : message) : M unit :=
  λ st, (Ok tt, State (self st) (file st) (out st ++ [m])).
Definition when (b : bool) (m : M unit) : M unit := if b then m else ret tt.

Global Instance M_ret : MRet M := @ret.
Global Instance M_bind : MBind M := λ A B k m, bind m k.

(** Reading an attribute that was never assigned raises. *)
Definition attr {A} (get : catalog → option A) : M A :=
  λ st, match get (self st) with
        | Some a => (Ok a, st)
        | None => (Raise AttributeError, st)
        end.

(** [f=open(path,'rb')] *)
Definition open_file (fs : filesystem) (p : string) : M unit :=
  λ st, match open_rb fs p with
        | Ok f => (Ok tt, State (self st) f (out st))
        | Raise e => (Raise e, st)
        end.

(** [np.fromfile(f, dtype=d, count=count)] on the open file *)
Definition np_fromfile (d : dtype) (count : Z) : M (list row) :=
  λ st, let '(rows, f') := fromfile (file st) d count in
        (Ok rows, State (self st) f' (out st)).

(** [(x1,...,xn) = a]: unpacking an array of scalars of type [s] into
    exactly [n] names. *)
Definition unpack (s : scalar) (n : nat) (a : list row) : result (list Z) :=
  if decide (length a = n) then Ok ((λ r, value_of s (mjoin r)) <$> a)
  else Raise ValueError.

(** [a[0]] on an array of scalars of type [s] *)
Definition item0 (s : scalar) (a : list row) : result Z :=
  match a with
  | r :: _ => Ok (value_of s (mjoin r))
  | [] => Raise IndexError
  end.

(** *** The field tables *)

Inductive per : Type := PerGroup | PerSub.

Record field : Type := Field { field_name : string; field_dtype : dtype; field_per : per }.

Definition optional (b : bool) (l : list field) : list field := if b then l else [].

Section Fields.

Variable id_format : dtype.
Variable o : options.

(** Lines 296-331: the arrays allocated when segment 0 is read. *)
Definition allocated (myformat : Z) : list field :=
  [ Field "NsubPerHalo" np_int32 PerGroup;
    Field "FirstSubOfHalo" np_int32 PerGroup;
    Field "SubLen" np_int32 PerSub;
    Field "SubOffset" np_int32 PerSub;
    Field "SubParentHalo" np_int32 PerSub;
    Field "Halo_M_Mean200" np_float32 PerGroup;
    Field "Halo_R_Mean200" np_float32 PerGroup;
    Field "Halo_M_Crit200" np_float32 PerGroup;
    Field "Halo_R_Crit200" np_float32 PerGroup;
    Field "Halo_M_TopHat200" np_float32 PerGroup;
    Field "Halo_R_TopHat200" np_float32 PerGroup;
    Field "SubPos" (np_float32x 3) PerSub;
    Field "SubVel" (np_float32x 3) PerSub;
    Field "SubVelDisp" np_float32 PerSub;
    Field "SubVmax" np_float32 PerSub;
    Field "SubSpin" (np_float32x 3) PerSub;
    Field "SubMostBoundID" id_format PerSub;
    Field "SubHalfMass" np_float32 PerSub ]
  ++ optional (SaveMassTab o) [ Field "SubMassTab" (np_float32x 6) PerSub ]
  ++ optional (ConTermination o) [ Field "HaloCont" np_float32 PerGroup ]
  ++ optional (bool_decide (myformat = 1))
       ([ Field "HaloLen" np_int32 PerGroup;
          Field "HaloMemberID" np_int32 PerGroup;
          Field "HaloMass" np_float32 PerGroup;
          Field "HaloPos" (np_float32x 3) PerGroup ]
        ++ optional (SOVelDisp o)
             [ Field "VelDisp_Mean200" np_float32 PerGroup;
               Field "VelDisp_Crit200" np_float32 PerGroup;
               Field "VelDisp_TopHat200" np_float32 PerGroup ]
        ++ [ Field "HaloContCount" np_float32 PerGroup;
             Field "SubTMass" np_float32 PerSub;
             Field "SubCM" (np_float32x 3) PerSub;
             Field "SubVmaxRad" np_float32 PerSub;
             Field "SubGroupNumber" np_int32 PerSub ]).

(** Lines 338-359: the blocks of a segment, [myformat==0]. *)
Definition legacy_body : list field :=
  [ Field "NsubPerHalo" np_int32 PerGroup;
    Field "FirstSubOfHalo" np_int32 PerGroup;
    Field "SubLen" np_int32 PerSub;
    Field "SubOffset" np_int32 PerSub;
    Field "SubParentHalo" np_int32 PerSub;
    Field "Halo_M_Mean200" np_float32 PerGroup;
    Field "Halo_R_Mean200" np_float32 PerGroup;
    Field "Halo_M_Crit200" np_float32 PerGroup;
    Field "Halo_R_Crit200" np_float32 PerGroup;
    Field "Halo_M_TopHat200" np_float32 PerGroup;
    Field "Halo_R_TopHat200" np_float32 PerGroup;
    Field "SubPos" (np_float32x 3) PerSub;
    Field "SubVel" (np_float32x 3) PerSub;
    Field "SubVelDisp" np_float32 PerSub;
    Field "SubVmax" np_float32 PerSub;
    Field "SubSpin" (np_float32x 3) PerSub;
    Field "SubMostBoundID" id_format PerSub;
    Field "SubHalfMass" np_float32 PerSub ]
  ++ optional (SaveMassTab o) [ Field "SubMassTab" (np_float32x 6) PerSub ]
  ++ optional (ConTermination o) [ Field "HaloCont" np_float32 PerGroup ].

(** Lines 362-396: the blocks of a segment, the other formats. *)
Definition extended_body : list field :=
  [ Field "HaloLen" np_int32 PerGroup;
    Field "HaloMemberID" np_int32 PerGroup;
    Field "HaloMass" np_float32 PerGroup;
    Field "HaloPos" (np_float32x 3) PerGroup;
    Field "Halo_M_Mean200" np_float32 PerGroup;
    Field "Halo_R_Mean200" np_float32 PerGroup;
    Field "Halo_M_Crit200" np_float32 PerGroup;
    Field "Halo_R_Crit200" np_float32 PerGroup;
    Field "Halo_M_TopHat200" np_float32 PerGroup;
    Field "Halo_R_TopHat200" np_float32 PerGroup ]
  ++ optional (SOVelDisp o)
       [ Field "VelDisp_Mean200" np_float32 PerGroup;
         Field "VelDisp_Crit200" np_float32 PerGroup;
         Field "VelDisp_TopHat200" np_float32 PerGroup ]
  ++ [ Field "HaloContCount" np_float32 PerGroup ]
  ++ optional (ConTermination o) [ Field "HaloCont" np_float32 PerGroup ]
  ++ [ Field "NsubPerHalo" np_int32 PerGroup;
       Field "FirstSubOfHalo" np_int32 PerGroup;
       Field "SubLen" np_int32 PerSub;
       Field "SubOffset" np_int32 PerSub;
       Field "SubParentHalo" np_int32 PerSub;
       Field "SubTMass" np_float32 PerSub;
       Field "SubPos" (np_float32x 3) PerSub;
       Field "SubVel" (np_float32x 3) PerSub;
       Field "SubCM" (np_float32x 3) PerSub;
       Field "SubSpin" (np_float32x 3) PerSub;
       Field "SubVelDisp" np_float32 PerSub;
       Field "SubVmax" np_float32 PerSub;
       Field "SubVmaxRad" np_float32 PerSub;
       Field "SubHalfMass" np_float32 PerSub;
       Field "SubMostBoundID" id_format PerSub;
       Field "SubGroupNumber" np_int32 PerSub ]
  ++ optional (SaveMassTab o) [ Field "SubMassTab" (np_float32x 6) PerSub ].

End Fields.

(** *** Attribute assignment *)

Definition set_snapnum (v : string) (c : catalog) : catalog :=
  Catalog (Some v) (self_basedir c) (self_swap c) (self_Nfiles c) (self_myformat c)
    (self_long_IDs c) (self_id_format c) (self_TotNgroups c) (self_TotNids c)
    (self_TotNsubhalos c) (self_arrays c).
Definition set_basedir (v : string) (c : catalog) : catalog :=
  Catalog (self_snapnum c) (Some v) (self_swap c) (self_Nfiles c) (self_myformat c)
    (self_long_IDs c) (self_id_format c) (self_TotNgroups c) (self_TotNids c)
    (self_TotNsubhalos c) (self_arrays c).
Definition set_swap (v : bool) (c : catalog) : catalog :=
  Catalog (self_snapnum c) (self_basedir c) (Some v) (self_Nfiles c) (self_myformat c)
    (self_long_IDs c) (self_id_format c) (self_TotNgroups c) (self_TotNids c)
    (self_TotNsubhalos c) (self_arrays c).
Definition set_Nfiles (v : nat) (c : catalog) : catalog :=
  Catalog (self_snapnum c) (self_basedir c) (self_swap c) (Some v) (self_myformat c)
    (self_long_IDs c) (self_id_format c) (self_TotNgroups c) (self_TotNids c)
    (self_TotNsubhalos c) (self_arrays c).
Definition set_myformat (v : Z) (c : catalog) : catalog :=
  Catalog (self_snapnum c) (self_basedir c) (self_swap c) (self_Nfiles c) (Some v)
    (self_long_IDs c) (self_id_format c) (self_TotNgroups c) (self_TotNids c)
    (self_TotNsubhalos c) (self_arrays c).
Definition set_long_IDs (v : bool) (c : catalog) : catalog :=
  Catalog (self_snapnum c) (self_basedir c) (self_swap c) (self_Nfiles c) (self_myformat c)
    (Some v) (self_id_format c) (self_TotNgroups c) (self_TotNids c)
    (self_TotNsubhalos c) (self_arrays c).
Definition set_id_format (v : dtype) (c : catalog) : catalog :=
  Catalog (self_snapnum c) (self_basedir c) (self_swap c) (self_Nfiles c) (self_myformat c)
    (self_long_IDs c) (Some v) (self_TotNgroups c) (self_TotNids c)
    (self_TotNsubhalos c) (self_arrays c).
Definition set_TotNgroups (v : Z) (c : catalog) : catalog :=
  Catalog (self_snapnum c) (self_basedir c) (self_swap c) (self_Nfiles c) (self_myformat c)
    (self_long_IDs c) (self_id_format c) (Some v) (self_TotNids c)
    (self_TotNsubhalos c) (self_arrays c).
Definition set_TotNids (v : Z) (c : catalog) : catalog :=
  Catalog (self_snapnum c) (self_basedir c) (self_swap c) (self_Nfiles c) (self_myformat c)
    (self_long_IDs c) (self_id_format c) (self_TotNgroups c) (Some v)
    (self_TotNsubhalos c) (self_arrays c).
Definition set_TotNsubhalos (v : Z) (c : catalog) : catalog :=
  Catalog (self_snapnum c) (self_basedir c) (self_swap c) (self_Nfiles c) (self_myformat c)
    (self_long_IDs c) (self_id_format c) (self_TotNgroups c) (self_TotNids c)
    (Some v) (self_arrays c).
Definition set_array (name : string) (a : ndarray) (c : catalog) : catalog :=
  Catalog (self_snapnum c) (self_basedir c) (self_swap c) (self_Nfiles c) (self_myformat c)
    (self_long_IDs c) (self_id_format c) (self_TotNgroups c) (self_TotNids c)
    (self_TotNsubhalos c) (<[name := a]> (self_arrays c)).

(** [for x in l: body(x)] *)
Fixpoint for_each {A} (body : A → M unit) (l : list A) : M unit :=
  match l with
  | [] => ret tt
  | x :: l' => body x ;; for_each body l'
  end.

(** ** [catalog.__init__] *)

(** What a segment header holds once it is unpacked.  [TotNids] and
    [TotNsubhalos] are bound by the [myformat==1] branch only. *)
Record header : Type := Header {
  Ngroups : Z;
  TotNgroups : Z;
  Nids : Z;
  TotNids : option Z;
  Nfiles : Z;
  Nsubhalos : Z;
  TotNsubhalos : option Z
}.

(** [skipS + Nsubhalos]: the header holds [Nsubhalos] as an
    [np.uint32] in the G3 format and as an [np.int32] in the old one. *)
Definition add_subhalos (numpy2 : bool) (myformat : Z) (a b : Z) : Z :=
  if decide (myformat = 1) then add_uint32 numpy2 a b else add_int32 numpy2 a b.

(** The total a block is read with, and the slice it is stored in:
    [locG=slice(skipG,skipG+Ngroups)], [locS=slice(skipS,skipS+Nsubhalos)]. *)
Definition total_of (p : per) : catalog → option Z :=
  match p with
  | PerGroup => self_TotNgroups
  | PerSub => self_TotNsubhalos
  end.

Definition loc_of (numpy2 : bool) (myformat : Z) (p : per) (skipG skipS : Z) (h : header)
  : Z * Z :=
  match p with
  | PerGroup => (skipG, add_int32 numpy2 skipG (Ngroups h))
  | PerSub => (skipS, add_subhalos numpy2 myformat skipS (Nsubhalos h))
  end.

(** [self.X = np.empty(self.TotN..., dtype=...)] *)
Definition allocate (fld : field) : M unit :=
  n ← attr (total_of (field_per fld));
  a ← lift (np_empty n);
  set_self (set_array (field_name fld) a).

(** [self.X[loc] = myswap(np.fromfile(f, dtype=..., count=self.TotN...),self.swap)]:
    the right-hand side is evaluated first, then the slice is stored. *)
Definition read_block (numpy2 : bool) (myformat : Z) (skipG skipS : Z) (h : header)
    (fld : field) : M unit :=
  count ← attr (total_of (field_per fld));
  rows ← np_fromfile (field_dtype fld) count;
  sw ← attr self_swap;
  c ← get_self;
  match self_arrays c !! field_name fld with
  | None => raise AttributeError
  | Some a =>
      let '(start, stop) := loc_of numpy2 myformat (field_per fld) skipG skipS h in
      a' ← lift (assign_slice a start stop (myswap rows sw));
      set_self (set_array (field_name fld) a')
  end.

(** Lines 252-257: the header of a table segment. *)
Definition read_header (myformat : Z) : M header :=
  sw ← attr self_swap;
  if decide (myformat = 1) then
    a ← np_fromfile np_int32 3;
    v ← lift (unpack Int32 3 (myswap a sw));
    b ← np_fromfile np_uint64 1;
    tot_ids ← lift (item0 UInt64 (myswap b sw));
    c ← np_fromfile np_uint32 3;
    w ← lift (unpack UInt32 3 (myswap c sw));
    match v, w with
    | [ngroups; totngroups; nids], [nfiles; nsubhalos; totnsubhalos] =>
        ret (Header ngroups totngroups nids (Some tot_ids) nfiles nsubhalos
               (Some totnsubhalos))
    | _, _ => raise ValueError
    end
  else
    a ← np_fromfile np_int32 5;
    v ← lift (unpack Int32 5 (myswap a sw));
    match v with
    | [ngroups; nids; totngroups; nfiles; nsubhalos] =>
        ret (Header ngroups totngroups nids None nfiles nsubhalos None)
    | _ => raise ValueError
    end.

(** Lines 402-405: [curpos != f.tell()] after [f.seek(0,os.SEEK_END)]. *)
Definition not_at_end : M bool :=
  λ st, (Ok (bool_decide (pos (file st) ≠ length (content (file st)))), st).

(** A local name that only one branch binds. *)
Definition local {A} (v : option A) : M A :=
  match v with
  | Some a => ret a
  | None => raise UnboundLocalError
  end.

Section Constructor.

Variable Snapshot_Init : filesystem → string → string → snapshot.
(** Whether the interpreter has the builtin [long] (Python 2 has it,
    Python 3 does not). *)
Variable has_long : bool.
(** Whether NumPy is NumPy 2, where an integer scalar of an array keeps
    its type in a sum with a Python integer. *)
Variable numpy2 : bool.
Variable fs : filesystem.
Variable o : options.

(** Lines 250-408: one turn of the [while not(Final)] loop, for
    segment [fnb], from the offsets [(skipS, skipG)] to the next ones. *)
Definition read_tab_segment (fname : string) (nfiles : nat) (myformat : Z)
    (fnb : nat) (skip : Z * Z) : M (Z * Z) :=
  let '(skipS, skipG) := skip in
  open_file fs (fname +:+ "." +:+ fmt_d fnb);;
  h ← read_header myformat;
  (* [if self.swap: Ngroups.byteswap() ...]: the swapped copies are
     dropped, nothing changes *)
  when (bool_decide (myformat = 0))
    (t ← attr self_TotNids; set_self (set_TotNids (add_int32 numpy2 t (Nids h)));;
     t ← attr self_TotNsubhalos;
     set_self (set_TotNsubhalos (add_int32 numpy2 t (Nsubhalos h))));;
  when (bool_decide (fnb = 0%nat))
    (set_self (set_TotNgroups (TotNgroups h));;
     when (bool_decide (myformat = 1))
       (t ← local (TotNids h); set_self (set_TotNids t);;
        t ← local (TotNsubhalos h); set_self (set_TotNsubhalos t)));;
  when (bool_decide (Nfiles h ≠ Z.of_nat nfiles))
    (print (MsgNfilesMismatch nfiles (Nfiles h)));;
  idf ← attr self_id_format;
  when (bool_decide (fnb = 0%nat))
    (for_each allocate (allocated idf o myformat));;
  when (bool_decide (Ngroups h > 0))
    (for_each (read_block numpy2 myformat skipG skipS h)
       (if decide (myformat = 0) then legacy_body idf o else extended_body idf o));;
  let skipG := add_int32 numpy2 skipG (Ngroups h) in
  let skipS := add_subhalos numpy2 myformat skipS (Nsubhalos h) in
  unfinished ← not_at_end;
  when unfinished (print (MsgNotFinished fnb));;
  ret (skipS, skipG).

(** The loop: the body runs, then [fnb+=1] and the test
    [fnb==self.Nfiles]; [more] is the number of turns left after this
    one. *)
Fixpoint read_tab_files (fname : string) (nfiles : nat) (myformat : Z)
    (more fnb : nat) (skip : Z * Z) : M (Z * Z) :=
  skip' ← read_tab_segment fname nfiles myformat fnb skip;
  match more with
  | O => ret skip'
  | S more' => read_tab_files fname nfiles myformat more' (S fnb) skip'
  end.

(** [catalog.__init__(self,basedir,snapnum,...)] *)
Definition catalog_init (basedir : string) (snapnum : snap_arg) : M unit :=
  let snapnum := snap_string snapnum in
  gform ← (λ st, let '(printed, r) := guess_format Snapshot_Init fs basedir (SnapStr snapnum) in
                 (r, State (self st) (file st) (out st ++ printed)));
  match gform with
  | None => raise TypeError            (* [gform[1]] with [gform] being [None] *)
  | Some (nfiles, myformat, swap) =>
      if decide (myformat = 2) then
        set_self (set_myformat myformat);;
        set_self (set_swap swap);;
        print MsgReadAsSnapshot
      else
        set_self (set_snapnum snapnum);;
        set_self (set_basedir basedir);;
        set_self (set_swap swap);;
        set_self (set_Nfiles nfiles);;
        set_self (set_myformat myformat);;
        set_self (set_long_IDs (long_IDs o));;
        set_self (set_id_format (if long_IDs o then np_uint64 else np_uint32));;
        let fname :=
          if decide (myformat = 0) then legacy_path basedir snapnum
          else if decide (myformat = 1) then extended_path basedir snapnum
          else snapshot_path basedir snapnum in
        when (bool_decide (myformat = 0))
          ((if has_long then set_self (set_TotNids 0) else raise NameError);;
           set_self (set_TotNsubhalos 0));;
        read_tab_files fname nfiles myformat (nfiles - 1) 0 (0, 0);;
        ret tt
  end.

(** [catalog(basedir, snapnum, ...)]: what is printed, and the object,
    unless the constructor raises. *)
Definition new_catalog (basedir : string) (snapnum : snap_arg)
  : list message * result catalog :=
  match catalog_init basedir snapnum (State new_object (Handle [] 0) []) with
  | (Ok _, st) => (out st, Ok (self st))
  | (Raise e, st) => (out st, Raise e)
  end.

End Constructor.

(** ** Segment files as the simulation writes them

    The reader has no writer in this repository: the files come from the
    simulation code.  These definitions lay out a segment the way the
    format prescribes: the header, then one block per field, each block
    holding the segment's own groups (or subhalos), every element in the
    byte order of the writing machine. *)

(** The [width] bytes of [v], low byte first. *)
Definition le_bytes (width : nat) (v : Z) : element :=
  (λ i : nat, (v / 256 ^ Z.of_nat i) mod 256) <$> seq 0 width.

(** An element as a machine of the given byte order stores it. *)
Definition stored (swapped : bool) (width : nat) (v : Z) : element :=
  if swapped then reverse (le_bytes width v) else le_bytes width v.

(** The content of a catalog: for each field, the value of component [j]
    of item [i] (a group or a subhalo, numbered across the segments). *)
Definition table : Type := string → nat → nat → Z.

Definition write_block (swapped : bool) (values : table) (first count : nat)
    (fld : field) : list Z :=
  let d := field_dtype fld in
  mjoin ((λ i, mjoin ((λ j, stored swapped (scalar_size (base d))
                               (values (field_name fld) i j))
                      <$> seq 0 (row_width d)))
         <$> seq first count).

Definition write_header (swapped : bool) (myformat : Z) (h : header) : list Z :=
  if decide (myformat = 1) then
    stored swapped 4 (Ngroups h) ++ stored swapped 4 (TotNgroups h)
    ++ stored swapped 4 (Nids h) ++ stored swapped 8 (default 0 (TotNids h))
    ++ stored swapped 4 (Nfiles h) ++ stored swapped 4 (Nsubhalos h)
    ++ stored swapped 4 (default 0 (TotNsubhalos h))
  else
    stored swapped 4 (Ngroups h) ++ stored swapped 4 (Nids h)
    ++ stored swapped 4 (TotNgroups h) ++ stored swapped 4 (Nfiles h)
    ++ stored swapped 4 (Nsubhalos h).

(** A segment that holds the groups from [firstG] on and the subhalos
    from [firstS] on, as many as its header says. *)
Definition write_segment (swapped : bool) (myformat : Z) (id_format : dtype)
    (o : options) (values : table) (h : header) (firstG firstS : nat) : list Z :=
  write_header swapped myformat h
  ++ mjoin ((λ fld, match field_per fld with
                    | PerGroup => write_block swapped values firstG (Z.to_nat (Ngroups h)) fld
                    | PerSub => write_block swapped values firstS (Z.to_nat (Nsubhalos h)) fld
                    end)
            <$> (if decide (myformat = 0) then legacy_body id_format o
                 else extended_body id_format o)).

(** The array a field should end up as: all its items, in order. *)
Definition expected_array (values : table) (d : dtype) (name : string) (total : nat)
  : ndarray :=
  (λ i, Some ((λ j, le_bytes (scalar_size (base d)) (values name i j))
              <$> seq 0 (row_width d)))
  <$> seq 0 total.

(** *** The catalog of the end-to-end scenario

    EXTENDED format, two segments: 3 groups and 5 subhalos, then 2
    groups and 3 subhalos; 40 particle IDs in all. *)

Definition sample_values : table :=
  λ name i j, Z.of_nat (String.length name) * 10000 + Z.of_nat i * 10 + Z.of_nat j.

Definition scenario_header (k : nat) : header :=
  match k with
  | O => Header 3 5 25 (Some 40) 2 5 (Some 8)
  | _ => Header 2 5 15 (Some 40) 2 3 (Some 8)
  end.

Definition scenario_fs (swapped : bool) : filesystem :=
  {[ "out/groups_005/subhalo_tab_005.0" :=
       write_segment swapped 1 np_uint32 default_options sample_values
         (scenario_header 0) 0 0;
     "out/groups_005/subhalo_tab_005.1" :=
       write_segment swapped 1 np_uint32 default_options sample_values
         (scenario_header 1) 3 5 ]}.

(** A stand-in for [Snapshot.Init] where the format is not 2 and the
    function is not called. *)
Definition no_snapshot : filesystem → string → string → snapshot :=
  λ _ _ _, Snapshot (-99) false.

(** ** [catalog.read_IDs] *)

(** [myswap(a)]: [read_IDs] calls the two-parameter function [myswap]
    with the array alone, which Python refuses when the call is made
    ("missing 1 required positional argument: 'flag'"). *)
Definition myswap_without_flag (a : list row) : M (list row) := raise TypeError.

(** A name that is never assigned, neither in the function nor in the
    module ([myformat] inside [read_IDs]). *)
Definition undefined_name {A} : M A := raise NameError.

Section ReadIDs.

Variable fs : filesystem.

(** Lines 426-433: the header of an ID segment.  The boolean tells
    whether the local name [Nsubhalos] got bound (the [myformat==1]
    branch binds it, the other does not).  [TotNids] is the one-element
    array itself in the first branch; it is compared through its
    element. *)
Definition read_ids_header (myformat : Z) : M (header * bool) :=
  if decide (myformat = 1) then
    a ← np_fromfile np_int32 3;
    a ← myswap_without_flag a;
    v ← lift (unpack Int32 3 a);
    b ← np_fromfile np_uint64 1;
    b ← myswap_without_flag b;
    tot_ids ← lift (item0 UInt64 b);
    c ← np_fromfile np_uint32 3;
    c ← myswap_without_flag c;
    w ← lift (unpack UInt32 3 c);
    match v, w with
    | [ngroups; totngroups; nids], [nfiles; nsubhalos; totnsubhalos] =>
        ret (Header ngroups totngroups nids (Some tot_ids) nfiles nsubhalos
               (Some totnsubhalos), true)
    | _, _ => raise ValueError
    end
  else
    a ← np_fromfile np_int32 4;
    a ← myswap_without_flag a;
    v ← lift (unpack Int32 4 a);
    tot_ids ← attr self_TotNids;
    tot_sub ← attr self_TotNsubhalos;
    match v with
    | [ngroups; nids; totngroups; nfiles] =>
        ret (Header ngroups totngroups nids (Some tot_ids) nfiles 0
               (Some tot_sub), false)
    | _ => raise ValueError
    end.

(** Lines 424-485: one turn of the loop of [read_IDs]; [None] is the
    [return None] of the two consistency checks, [Some skip] the
    offset the next turn starts from. *)
Definition read_ids_segment (fname : option string) (fnb : nat) (skip : Z)
  : M (option Z) :=
  name ← local fname;
  open_file fs (name +:+ fmt_d fnb);;
  myformat ← attr self_myformat;
  hb ← read_ids_header myformat;
  let h : header := hb.1 in
  let Nsubhalos_bound : bool := hb.2 in
  sw ← attr self_swap;
  when sw
    ((if Nsubhalos_bound then ret tt else raise UnboundLocalError);;
     undefined_name);;
  self_tot_groups ← attr self_TotNgroups;
  self_tot_ids ← attr self_TotNids;
  if decide (TotNgroups h ≠ self_tot_groups) then
    print (MsgInconsistentTotals (TotNgroups h) self_tot_groups);; ret None
  else if decide (TotNids h ≠ Some self_tot_ids) then
    print (MsgInconsistentTotals (TotNgroups h) self_tot_groups);; ret None
  else
    idf ← attr self_id_format;
    when (bool_decide (fnb = 0%nat))
      (z ← lift (np_zeros idf self_tot_ids); set_self (set_array "GroupIDs" z));;
    skip' ← (if decide (Ngroups h > 0) then
               long ← attr self_long_IDs;
               ids ← np_fromfile (if (long : bool) then np_uint64 else np_uint32) (Nids h);
               ids ← myswap_without_flag ids;
               let ids : list row := if (sw : bool) then byteswap ids else ids in
               c ← get_self;
               match self_arrays c !! "GroupIDs" with
               | None => raise AttributeError
               | Some g =>
                   g' ← lift (assign_slice g skip (skip + Nids h) ids);
                   set_self (set_array "GroupIDs" g');;
                   ret (skip + Nids h)
               end
             else ret skip);
    unfinished ← not_at_end;
    when unfinished (print (MsgIDsNotFinished fnb));;
    ret (Some skip').

(** The loop: after a turn, [fnb+=1] and the test [fnb==self.Nfiles].
    Every turn opens one more file, so the loop makes no more turns
    than the file system has files; [turns] is that bound. *)
Fixpoint read_ids_files (fname : option string) (turns fnb : nat) (skip : Z)
  : M unit :=
  r ← read_ids_segment fname fnb skip;
  match r with
  | None => ret tt
  | Some skip' =>
      n ← attr self_Nfiles;
      if decide (S fnb = n) then ret tt
      else match turns with
           | O => raise IOError
           | S turns' => read_ids_files fname turns' (S fnb) skip'
           end
  end.

(** [read_IDs(self)] *)
Definition read_IDs : M unit :=
  myformat ← attr self_myformat;
  fname ← (if decide (myformat = 0) then
             b ← attr self_basedir; s ← attr self_snapnum;
             ret (Some (b +:+ "postproc_" +:+ s +:+ "/sub_ids_" +:+ s +:+ "."))
           else if decide (myformat = 1) then
             b ← attr self_basedir; s ← attr self_snapnum;
             ret (Some (b +:+ "groups_" +:+ s +:+ "/subhalo_ids_" +:+ s +:+ "."))
           else ret None);
  read_ids_files fname (size fs) 0 0.

(** [sub.read_IDs()] on an object [sub]: what is printed, and the
    object afterwards, unless the method raises. *)
Definition call_read_IDs (sub : catalog) : list message * result catalog :=
  match read_IDs (State sub (Handle [] 0) []) with
  | (Ok _, st) => (out st, Ok (self st))
  | (Raise e, st) => (out st, Raise e)
  end.

End ReadIDs.

(** *** Further catalogs the properties are checked on *)

(** A complete EXTENDED catalog in one segment: 5 groups, 8 subhalos. *)
Definition single_header : header := Header 5 5 40 (Some 40) 1 8 (Some 8).

Definition single_fs (swapped : bool) : filesystem :=
  {[ "out/groups_005/subhalo_tab_005.0" :=
       write_segment swapped 1 np_uint32 default_options sample_values
         single_header 0 0 ]}.

(** A complete LEGACY catalog in one segment, whose header gives the
    file count 1; the directory of the group catalog holds no
    [group_tab] file. *)
Definition legacy_header : header := Header 5 5 40 None 1 8 None.

Definition legacy_fs (swapped : bool) : filesystem :=
  {[ "postproc_005/sub_tab_005.0" :=
       write_segment swapped 0 np_uint32 default_options sample_values
         legacy_header 0 0 ]}.

(** The same catalog next to a group catalog written in two files. *)
Definition legacy_fs_two_groups (file_count : Z) : filesystem :=
  {[ "postproc_005/sub_tab_005.0" :=
       write_segment false 0 np_uint32 default_options sample_values
         (Header 5 5 40 None file_count 8 None) 0 0;
     "groups_005/group_tab_005.0" := [];
     "groups_005/group_tab_005.1" := [] ]}.

(** An ID segment: the header, then [Nids] identifiers. *)
Definition write_ids (h : header) (first : nat) : list Z :=
  write_header false 1 h
  ++ mjoin ((λ i, le_bytes 4 (Z.of_nat (1000 + i))) <$> seq first (Z.to_nat (Nids h))).

(** The one-segment catalog with its ID file; [tot_groups] is the total
    number of groups the ID file announces (the catalog has 5). *)
Definition ids_fs (tot_groups : Z) : filesystem :=
  <[ "out/groups_005/subhalo_ids_005.0" :=
       write_ids (Header 5 tot_groups 40 (Some 40) 1 8 (Some 8)) 0 ]>
    (single_fs false).

(** The object the constructor builds from the one-segment catalog:
    its scalar attributes (the arrays are those of [single_fs]). *)
Definition opened (arrays : gmap string ndarray) : catalog :=
  Catalog (Some "005") (Some "out/") (Some false) (Some 1%nat) (Some 1)
    (Some false) (Some np_uint32) (Some 5) (Some 40) (Some 8) arrays.

(** An EXTENDED catalog in two segments, the first of which holds no
    group: all 5 groups and 8 subhalos are in segment 1. *)
Definition lopsided_header (k : nat) : header :=
  match k with
  | O => Header 0 5 0 (Some 40) 2 0 (Some 8)
  | _ => Header 5 5 40 (Some 40) 2 8 (Some 8)
  end.

Definition lopsided_fs : filesystem :=
  {[ "out/groups_005/subhalo_tab_005.0" :=
       write_segment false 1 np_uint32 default_options sample_values
         (lopsided_header 0) 0 0;
     "out/groups_005/subhalo_tab_005.1" :=
       write_segment false 1 np_uint32 default_options sample_values
         (lopsided_header 1) 0 0 ]}.

(** An EXTENDED catalog in two segments that holds its 5 groups and 8
    subhalos in segment 0; segment 1 is a header that announces no
    group, and 3 subhalos. *)
Definition front_loaded_header (k : nat) : header :=
  match k with
  | O => Header 5 5 40 (Some 40) 2 8 (Some 8)
  | _ => Header 0 5 0 (Some 40) 2 3 (Some 8)
  end.

Definition front_loaded_fs : filesystem :=
  {[ "out/groups_005/subhalo_tab_005.0" :=
       write_segment false 1 np_uint32 default_options sample_values
         (front_loaded_header 0) 0 0;
     "out/groups_005/subhalo_tab_005.1" :=
       write_header false 1 (front_loaded_header 1) ]}.

(** Two headers that announce no group and [2 ^ 31] subhalos each. *)
Definition wrapping_fs : filesystem :=
  {[ "out/groups_005/subhalo_tab_005.0" :=
       write_header false 1 (Header 0 5 0 (Some 40) 2 (2 ^ 31) (Some 8));
     "out/groups_005/subhalo_tab_005.1" :=
       write_header false 1 (Header 0 5 0 (Some 40) 2 (2 ^ 31) (Some 8)) ]}.

(** The object when the constructor enters its loop on these catalogs. *)
Definition before_loop : state :=
  State (Catalog (Some "005") (Some "out/") (Some false) (Some 2%nat) (Some 1)
           (Some false) (Some np_uint32) None None None ∅)
    (Handle [] 0) [].

(** A catalog in the snapshot format, and a [Snapshot.Init] that
    recognises it as written in the byte order of the reader. *)
Definition snapshot_fs : filesystem := {[ "groups_005/sub_005.0" := [] ]}.
Definition snapshot_found : filesystem → string → string → snapshot :=
  λ _ _ _, Snapshot 1 false.

(** * The light-cone driver, [PLC/fullplcfiner.py] *)

(** ** Single-precision numbers

    The particle arrays are [np.float32]; their arithmetic is that of
    IEEE 754 binary32, as [SpecFloat] defines it. *)

Definition float32 : Type := spec_float.
Definition f32_div : float32 → float32 → float32 := SFdiv 24 128.
Definition f32_sub : float32 → float32 → float32 := SFsub 24 128.
Definition f32_ltb : float32 → float32 → bool := SFltb.
Definition f32_of_Z (z : Z) : float32 := binary_normalize 24 128 z 0 false.
Definition f32_one : float32 := f32_of_Z 1.
Definition f32_zero : float32 := S754_zero false.
(** [-1.0], the scale factor that marks a particle as not crossing. *)
Definition sentinel : float32 := f32_of_Z (-1).

(** [1.0/aplcslice - 1], element by element: the redshift at which the
    particle crosses the light cone. *)
Definition crossing_redshift (aplc : float32) : float32 :=
  f32_sub (f32_div f32_one aplc) f32_one.

(** Line 166, for one particle:
    [aplcslice[ 1.0/aplcslice -1  < Zaccslice ] = -1.0] *)
Definition mask_accretion (aplc Zacc : float32) : float32 :=
  if f32_ltb (crossing_redshift aplc) Zacc then sentinel else aplc.

(** ** Pixel histograms *)

(** [np.histogram(pixels, bins=np.linspace(0,npixels,npixels+1).astype(int))[0]]:
    bin [i] counts the values in [[i, i+1)], the last bin those in
    [[npixels-1, npixels]]. *)
Definition in_bin (npixels i : nat) (p : Z) : bool :=
  bool_decide (p = Z.of_nat i) || bool_decide (S i = npixels ∧ p = Z.of_nat npixels).

Definition np_histogram (npixels : nat) (pixels : list Z) : list Z :=
  (λ i, Z.of_nat (length (filter (λ p, in_bin npixels i p = true) pixels)))
  <$> seq 0 npixels.

(** Modelled from the spec: [builder.getSkyCoordinates] is compiled code
    outside this development.  The design document has it return,
    for each particle, a radial distance and two angles, "a
    sentinel-flagged triple consistent with the crossing result", the
    flag being a negative distance: a particle whose scale factor is the
    sentinel gets a distance that is not positive. *)
Definition sentinel_flagged {particle replication : Type}
    (getSkyCoordinates : replication → particle → float32 → float32 * float32 * float32)
  : Prop :=
  ∀ rep p, f32_ltb f32_zero (getSkyCoordinates rep p sentinel).1.1 = false.

(** ** The points of the cosmological tables kept for a shell, lines 118-130

    [auxcut] marks the points of the table that are in the range of the
    shell (line 114). *)

(** [auxcut.sum()] *)
Definition np_sum (auxcut : list bool) : nat := length (filter (λ b, b = true) auxcut).

(** [auxcut.argmax()]: the position of the first [True], 0 when there
    is none; an empty array is refused. *)
Definition np_argmax (auxcut : list bool) : result nat :=
  match auxcut with
  | [] => Raise ValueError
  | _ => Ok (default 0%nat (fst <$> list_find (λ b, b = true) auxcut))
  end.

(** [auxcut[i] = True] for an index that is not negative *)
Definition set_true (auxcut : list bool) (i : nat) : result (list bool) :=
  if decide (i < length auxcut)%nat then Ok (<[i := true]> auxcut) else Raise IndexError.

(** Lines 120-123 and 127-130:
    [if index < auxcut.size: auxcut[index + 1] = True]
    [if index > 0: auxcut[index - 1] = True] *)
Definition add_neighbours (auxcut : list bool) (index : nat) : result (list bool) :=
  rbind (if decide (index < length auxcut)%nat then set_true auxcut (index + 1)
         else Ok auxcut)
    (λ a, if decide (0 < index)%nat then set_true a (index - 1) else Ok a).

(** Lines 118-130.  [nearest] is the index line 126 computes, the
    position of the point of the table that is nearest to
    [(amax-amin)/2]; [argmin] refuses an empty table. *)
Definition widen (auxcut : list bool) (nearest : nat) : result (list bool) :=
  rbind (if decide (np_sum auxcut = 1%nat)
         then rbind (np_argmax auxcut) (add_neighbours auxcut)
         else Ok auxcut)
    (λ a, if decide (np_sum a = 0%nat) then
            match a with
            | [] => Raise ValueError
            | _ => add_neighbours a nearest
            end
          else Ok a).

(** ** The run of a process *)

(** What the driver does on a process that can go on, and where it
    cannot: [comm.Abort()], or an exception nobody catches. *)
Inductive event : Type :=
| EvCannotScatter                 (* print("The data cannot be scattered on {} processes!") *)
| EvAbort                         (* comm.Abort() *)
| EvBcast                         (* comm.bcast *)
| EvPartition (slice_length : Z)  (* the np.empty((npart//size, ...)) slices *)
| EvScatterv                      (* comm.Scatterv *)
| EvSend                          (* comm.Send(skycoordslice, dest=0) *)
| EvRecv (source : nat)           (* comm.Recv(skycoordslice, source=ranki) *)
| EvBarrier                       (* comm.Barrier() *)
| EvReadMap (path : string)       (* hp.read_map *)
| EvWriteMap (path : string).     (* hp.fitsfunc.write_map(..., overwrite=True) *)

(** The operations that involve the whole process group. *)
Definition collective (e : event) : bool :=
  match e with
  | EvBcast | EvScatterv | EvBarrier => true
  | _ => false
  end.

Definition communication (e : event) : bool :=
  match e with
  | EvBcast | EvScatterv | EvBarrier | EvSend | EvRecv _ => true
  | _ => false
  end.

Definition partitioning (e : event) : bool :=
  match e with
  | EvPartition _ | EvScatterv => true
  | _ => false
  end.

Section Driver.

(** The types the collaborators of the driver work on. *)
Context {particle replication shell skymap fits : Type}.

(** [params] *)
Variable nparticles : Z.
Variable numfiles : nat.
Variable npixels : nat.
(** [MPI.COMM_WORLD]: this process and the size of the group. *)
Variable rank size : nat.
(** [zip(cosmology.zlinf, cosmology.zlsup)], and the file of a shell,
    ['Maps/delta_'+params.runflag+'_field_fullsky_{}.fits'.format(str(round(zl,4)))]. *)
Variable shells : list shell.
Variable map_path : shell → string.
(** Line 114, the points of [cosmology.a] in the range of a shell, and
    line 126, the position of the point nearest to [(amax-amin)/2]. *)
Variable auxcut : shell → list bool.
Variable nearest : shell → nat.
(** [geometry[...]]: the replications a shell meets. *)
Variable replicationsinside : shell → list replication.
(** [ts.Npart] of a snapshot, and the slice of its particles that
    [Scatterv] hands to a process, with their accretion redshift. *)
Variable Npart : nat → Z.
Variable particles : nat → nat → list particle.
Variable Zacc : particle → float32.
(** [builder.getCrossingScaleParameterNewtonRaphson] and
    [builder.getSkyCoordinates], per particle. *)
Variable crossing : shell → replication → particle → float32.
Variable getSkyCoordinates : replication → particle → float32 → float32 * float32 * float32.
(** [hp.pixelfunc.ang2pix(nside, theta + np.pi/2.0, phi)] *)
Variable ang2pix : float32 → float32 → Z.
(** [np.zeros(params.npixels)], [deltai += counts], and the two
    directions of the map files. *)
Variable zeros : skymap.
Variable add_counts : skymap → list Z → skymap.
Variable read_map : fits → skymap.
Variable write_map : skymap → fits.

(** Lines 159-168 on the slice of process [ranki]: the scale factors,
    the accretion mask, the sky coordinates. *)
Definition sky_of_slice (sh : shell) (rep : replication) (slice : list particle)
  : list (float32 * float32 * float32) :=
  (λ p, getSkyCoordinates rep p (mask_accretion (crossing sh rep p) (Zacc p)))
  <$> slice.

Definition skycoordslice (snapnum : nat) (sh : shell) (rep : replication) (ranki : nat)
  : list (float32 * float32 * float32) :=
  sky_of_slice sh rep (particles snapnum ranki).

(** Lines 185-187: [cut = skycoordslice[:,0] > 0] and the pixels of
    what passes it. *)
Definition pixels_of (coords : list (float32 * float32 * float32)) : list Z :=
  (λ c, ang2pix c.1.2 c.2) <$> filter (λ c, f32_ltb f32_zero c.1.1 = true) coords.

(** Line 189: what one slice adds to the map. *)
Definition slice_counts (coords : list (float32 * float32 * float32)) : list Z :=
  np_histogram npixels (pixels_of coords).

(** The state of the run, seen from this process: the map files, and
    what it has done so far. *)
Record world : Type := World { disk : gmap string fits; events : list event }.

Definition emit (e : event) (w : world) : world := World (disk w) (events w ++ [e]).

(** Lines 171-191: the collection of one replication, rank after rank. *)
Definition collect_rank (snapnum : nat) (sh : shell) (rep : replication)
    (st : world * skymap) (ranki : nat) : world * skymap :=
  let '(w, deltai) := st in
  let w := if bool_decide (rank = ranki) && bool_decide (0 < ranki)%nat
           then emit EvSend w else w in
  let '(w, deltai) :=
    if bool_decide (rank = 0%nat) then
      (if bool_decide (ranki ≠ 0%nat) then emit (EvRecv ranki) w else w,
       add_counts deltai (slice_counts (skycoordslice snapnum sh rep ranki)))
    else (w, deltai) in
  (emit EvBarrier w, deltai).

(** Lines 148-191: the loop on the replications of a shell. *)
Definition collect_replication (snapnum : nat) (sh : shell)
    (st : world * skymap) (rep : replication) : world * skymap :=
  foldl (collect_rank snapnum sh rep) st (seq 0 size).

(** Lines 89-97: the map a shell starts from; [None] when the file to
    reopen is missing and [hp.read_map] raises. *)
Definition open_map (snapnum : nat) (sh : shell) (w : world) : option skymap :=
  if bool_decide (snapnum = 0%nat) then Some zeros
  else read_map <$> disk w !! map_path sh.

(** Lines 114-130, on every process: the points of the table that are
    kept for the fit of a shell; [None] when the widening raises. *)
Definition fit_points (sh : shell) : option (list bool) :=
  match widen (auxcut sh) (nearest sh) with
  | Ok a => Some a
  | Raise _ => None
  end.

(** Lines 85-199: one shell.  Only rank 0 holds a map.  The calls into
    [cosmology], [builder] and [healpy] are taken to return. *)
Definition process_shell (snapnum : nat) (w : world) (sh : shell) : option world :=
  if bool_decide (rank = 0%nat) then
    deltai ← open_map snapnum sh w;
    let w := if bool_decide (snapnum = 0%nat) then w else emit (EvReadMap (map_path sh)) w in
    fit_points sh;;
    let '(w, deltai) :=
      foldl (collect_replication snapnum sh) (w, deltai) (replicationsinside sh) in
    let w := World (<[map_path sh := write_map deltai]> (disk w))
               (events w ++ [EvWriteMap (map_path sh)]) in
    Some (emit EvBarrier w)
  else
    fit_points sh;;
    let '(w, _) :=
      foldl (collect_replication snapnum sh) (w, zeros) (replicationsinside sh) in
    Some (emit EvBarrier w).

Fixpoint process_shells (snapnum : nat) (w : world) (l : list shell) : option world :=
  match l with
  | [] => Some w
  | sh :: l' => w' ← process_shell snapnum w sh; process_shells snapnum w' l'
  end.

(** Lines 55-78: the geometry and the particle count are broadcast,
    the slices are allocated with [npart//size] rows, the six particle
    arrays are scattered.  [Scatterv] is called without counts: it
    splits an array evenly among the processes and raises when it
    cannot, or when a slice is too short for its share.  The arrays of
    a file whose particle count leaves a remainder are not scattered:
    [None]. *)
Definition prologue (snapnum : nat) (w : world) : option world :=
  let w := emit EvBcast w in
  let w := emit EvBcast w in
  let w := emit (EvPartition (Npart snapnum / Z.of_nat size)) w in
  if decide (Npart snapnum `mod` Z.of_nat size = 0)
  then Some (Nat.iter 6 (emit EvScatterv) w) else None.

(** Lines 29-199: one snapshot file. *)
Definition process_snapshot (w : world) (snapnum : nat) : option world :=
  w' ← prologue snapnum w;
  process_shells snapnum w' shells.

Fixpoint process_snapshots (w : world) (l : list nat) : option world :=
  match l with
  | [] => Some w
  | snapnum :: l' => w' ← process_snapshot w snapnum; process_snapshots w' l'
  end.

(** Lines 17-199: the run of the driver from the map files [files].
    [inr] is a run that went through the loop on the snapshots, with
    the state it ended in.  [inl] is a run that did not: one that ended
    by [comm.Abort()], with its state, or one that an exception stopped
    on the way, of which nothing more is kept (the state is the one it
    started from). *)
Definition driver (files : gmap string fits) : world + world :=
  let w := World files [] in
  if decide (nparticles `mod` Z.of_nat size ≠ 0) then
    inl (emit EvAbort (emit EvCannotScatter w))
  else
    match process_snapshots w (seq 0 numfiles) with
    | Some w' => inr w'
    | None => inl w
    end.

(** *** The map of a shell, before and after each snapshot *)

(** The state in which snapshot [snapnum] finds shell number [i]: the
    snapshots before it are done, and so are the shells before [i]. *)
Definition world_before (files : gmap string fits) (snapnum i : nat) : option world :=
  w ← process_snapshots (World files []) (seq 0 snapnum);
  w' ← prologue snapnum w;
  process_shells snapnum w' (take i shells).

(** The map rank 0 accumulates for a shell during a snapshot, from the
    map it starts with. *)
Definition accumulate (snapnum : nat) (sh : shell) (start : skymap) : skymap :=
  foldl (λ deltai rep,
           foldl (λ deltai ranki,
                    add_counts deltai (slice_counts (skycoordslice snapnum sh rep ranki)))
                 deltai (seq 0 size))
        start (replicationsinside sh).

(** *** The same, as the design document words it

    The map of a shell starts from zero at the first snapshot; at a
    later snapshot it is what the previous one left in the file. *)
Fixpoint map_after (snapnum : nat) (sh : shell) : skymap :=
  match snapnum with
  | O => accumulate 0 sh zeros
  | S s => accumulate (S s) sh (read_map (write_map (map_after s sh)))
  end.

Definition map_started (snapnum : nat) (sh : shell) : skymap :=
  match snapnum with
  | O => zeros
  | S s => read_map (write_map (map_after s sh))
  end.

End Driver.

(** *** A small run of the driver, to try the properties on

    Three processes, one snapshot file, two shells with one replication
    each; a particle is its pair (scale factor at crossing, accretion
    redshift), and the sky coordinates of a particle are (scale factor,
    0, 0), so that the distance is negative exactly for the sentinel. *)

Definition toy_particle : Type := float32 * float32.
Definition toy_quarter : float32 := f32_div f32_one (f32_of_Z 4).
Definition toy_sky : unit → toy_particle → float32 → float32 * float32 * float32 :=
  λ _ _ a, (a, f32_zero, f32_zero).
Definition toy_crossing : bool → unit → toy_particle → float32 := λ _ _ p, p.1.
Definition toy_ang2pix : float32 → float32 → Z := λ _ _, 0.
Definition toy_particles : nat → nat → list toy_particle :=
  λ _ ranki, if bool_decide (ranki = 0%nat) then [ (toy_quarter, f32_of_Z 5) ]
             else [ (toy_quarter, f32_of_Z 2) ].
Definition toy_path (sh : bool) : string :=
  if sh then "Maps/delta_run_field_fullsky_0.5.fits" else "Maps/delta_run_field_fullsky_1.5.fits".
Definition toy_add (m c : list Z) : list Z := zip_with Z.add m c.
(** Two points of a table of four are in the range of each shell. *)
Definition toy_auxcut : bool → list bool := λ _, [false; true; true; false].
Definition toy_nearest : bool → nat := λ _, 0%nat.

(** The toy run for a given particle count and number of snapshots, as
    process 0 sees it. *)
Definition toy_driver (nparticles : Z) (numfiles : nat)
  : gmap string (list Z) → world + world :=
  driver nparticles numfiles 2 0 3 [true; false] toy_path toy_auxcut toy_nearest
    (λ _, [tt]) (λ _, nparticles) toy_particles snd toy_crossing toy_sky toy_ang2pix
    [0; 0] toy_add id id.

(** * The wording of the design document *)

(** The path templates in their priority order: LEGACY, EXTENDED,
    SNAPSHOT-EMBEDDED; their position is the format number. *)
Definition candidates (basedir snapnum : string) : list string :=
  [ legacy_path basedir snapnum; extended_path basedir snapnum;
    snapshot_path basedir snapnum ].

(** The first template whose segment 0 exists, with its position. *)
Definition first_existing (fs : filesystem) (basedir snapnum : string)
  : option (nat * string) :=
  list_find (λ fname, path_exists fs (fname +:+ ".0") = true) (candidates basedir snapnum).

(** The segment count and the format of a successful [guess_format]. *)
Definition selected (r : list message * result (option (nat * Z * bool)))
  : option (nat * Z) :=
  match r.2 with
  | Ok (Some (nfiles, myformat, _)) => Some (nfiles, myformat)
  | _ => None
  end.

(** The header of segment [fnb] of a catalog, as a reader whose byte
    order flag is [swap] unpacks it. *)
Definition segment_header (fs : filesystem) (fname : string) (myformat : Z)
    (swap : bool) (fnb : nat) : option header :=
  bytes ← fs !! (fname +:+ "." +:+ fmt_d fnb);
  match (read_header myformat (State (set_swap swap new_object) (Handle bytes 0) [])).1 with
  | Ok h => Some h
  | Raise _ => None
  end.

Definition total (counts : list Z) : Z := foldr Z.add 0 counts.

(** A method that does not assign [self.swap]. *)
Definition keeps_swap {A} (m : M A) : Prop :=
  ∀ st, self_swap (self (m st).2) = self_swap (self st).

(** *** One-segment catalogs in general *)

Global Instance scalar_eq_dec : EqDecision scalar.
Proof. solve_decision. Defined.
Global Instance dtype_eq_dec : EqDecision dtype.
Proof. solve_decision. Defined.
Global Instance per_eq_dec : EqDecision per.
Proof. solve_decision. Defined.
Global Instance field_eq_dec : EqDecision field.
Proof. solve_decision. Defined.

(** The number of items a segment holds for a field. *)
Definition count_of (p : per) (h : header) : nat :=
  match p with
  | PerGroup => Z.to_nat (Ngroups h)
  | PerSub => Z.to_nat (Nsubhalos h)
  end.

(** The items of a block as the writer stores them, and as the reader
    should hold them. *)
Definition stored_items (swapped : bool) (values : table) (d : dtype) (name : string)
    (first count : nat) : list row :=
  (λ i, (λ j, stored swapped (scalar_size (base d)) (values name i j))
        <$> seq 0 (row_width d))
  <$> seq first count.

Definition native_items (values : table) (d : dtype) (name : string) (count : nat)
  : list row :=
  (λ i, (λ j, le_bytes (scalar_size (base d)) (values name i j)) <$> seq 0 (row_width d))
  <$> seq 0 count.

(** The header of a catalog that is complete in one segment. *)
Definition complete_header (groups subhalos ids : Z) : header :=
  Header groups groups ids (Some ids) 1 subhalos (Some subhalos).

(** [self.id_format] for the options of the call. *)
Definition id_dtype (o : options) : dtype := if long_IDs o then np_uint64 else np_uint32.

(** An EXTENDED catalog of one segment, written in either byte order. *)
Definition one_segment_fs (swapped : bool) (o : options) (values : table) (h : header)
  : filesystem :=
  {[ "out/groups_005/subhalo_tab_005.0" :=
       write_segment swapped 1 (id_dtype o) o values h 0 0 ]}.

(** The blocks of a complete segment, one after the other. *)
Definition stored_blocks (sw : bool) (values : table) (h : header) (fields : list field)
  : list Z :=
  mjoin ((λ fld, write_block sw values 0 (count_of (field_per fld) h) fld) <$> fields).

(** The object once [g fld] has been assigned to the array of each
    field [fld] of a table: *)
Definition assigned (g : field → ndarray) (c : catalog) (fields : list field) : catalog :=
  foldl (λ c fld, set_array (field_name fld) (g fld) c) c fields.

(** the arrays that hold what was written, *)
Definition filled (values : table) (h : header) : catalog → list field → catalog :=
  assigned (λ fld, expected_array values (field_dtype fld) (field_name fld)
                     (count_of (field_per fld) h)).

(** and the arrays as [np.empty] leaves them. *)
Definition allocated_for (h : header) : catalog → list field → catalog :=
  assigned (λ fld, replicate (count_of (field_per fld) h) None).

(** The object after the turn of the loop on a complete segment. *)
Definition loaded (o : options) (values : table) (h : header) (c : catalog) : catalog :=
  filled values h
    (allocated_for h
       (set_TotNsubhalos (Nsubhalos h) (set_TotNids (default 0 (TotNids h))
          (set_TotNgroups (Ngroups h) c)))
       (allocated (id_dtype o) o 1))
    (extended_body (id_dtype o) o).

(** A call that returns an object, and what holds of the object. *)
Definition returns (r : list message * result catalog) (P : catalog → Prop) : Prop :=
  match r with
  | (_, Ok c) => P c
  | (_, Raise _) => False
  end.

(** The offset of the file-count field in segment 0, lines 124 and 157. *)
Definition count_field_offset (myformat : Z) : nat :=
  if decide (myformat = 0) then 12%nat else 20%nat.

(** A G3 catalog made of one file, with the given bytes. *)
Definition one_file_fs (bytes : list Z) : filesystem :=
  {[ "out/groups_005/subhalo_tab_005.0" := bytes ]}.

(** The object when the constructor enters its loop on such a catalog,
    called as [catalog("out/", 5, ...)] with the options [o]. *)
Definition entering_loop (sw : bool) (o : options) : catalog :=
  Catalog (Some "005") (Some "out/") (Some sw) (Some 1%nat) (Some 1)
    (Some (long_IDs o)) (Some (id_dtype o)) None None None ∅.

(** The path the constructor builds for the segments of a format,
    lines 236-241, from the base directory as it was passed. *)
Definition tab_path (basedir snapnum : string) (myformat : Z) : string :=
  if decide (myformat = 0) then legacy_path basedir snapnum
  else if decide (myformat = 1) then extended_path basedir snapnum
  else snapshot_path basedir snapnum.

(** Lines 417-420: the prefix of the names of the ID files. *)
Definition ids_prefix (basedir snapnum : string) (myformat : Z) : string :=
  if decide (myformat = 0)
  then basedir +:+ "postproc_" +:+ snapnum +:+ "/sub_ids_" +:+ snapnum +:+ "."
  else basedir +:+ "groups_" +:+ snapnum +:+ "/subhalo_ids_" +:+ snapnum +:+ ".".

(** A property of the object that a method keeps, however it ends. *)
Definition preserves {A} (P : catalog → Prop) (m : M A) : Prop :=
  ∀ st, P (self st) → P (self (m st).2).

(** The lengths of the arrays of an object, by attribute name. *)
Definition shape (c : catalog) : gmap string nat := length <$> self_arrays c.

(** The attributes the constructor assigns before its loop. *)
Definition settings (c : catalog)
  : option string * option string * option bool * option nat * option Z * option bool
    * option dtype :=
  (self_snapnum c, self_basedir c, self_swap c, self_Nfiles c, self_myformat c,
   self_long_IDs c, self_id_format c).

(** The number of rows of the arrays of a kind, for given totals. *)
Definition rows_of (groups subhalos : Z) (p : per) : nat :=
  match p with
  | PerGroup => Z.to_nat groups
  | PerSub => Z.to_nat subhalos
  end.

(** A property that does not depend on the content of the arrays: it
    survives the assignment of an array of the same length to an
    attribute that holds an array. *)
Definition block_stable (P : catalog → Prop) : Prop :=
  ∀ c name a a', self_arrays c !! name = Some a → length a' = length a →
                 P c → P (set_array name a' c).

(** What the later turns of the loop keep. *)
Definition kept (myformat : Z) (x : option string * option string * option bool * option nat
                                   * option Z * option bool * option dtype)
    (G S : Z) (sh : gmap string nat) (c : catalog) : Prop :=
  settings c = x
  ∧ self_TotNgroups c = Some G
  ∧ is_Some (self_TotNids c)
  ∧ is_Some (self_TotNsubhalos c)
  ∧ (myformat = 1 → self_TotNsubhalos c = Some S)
  ∧ shape c = sh.

(** A catalog of the old format in two segments, written in the other
    byte order: segment 0 holds the 5 groups and the 8 subhalos,
    segment 1 is a header that announces no group, and 3 subhalos. *)
Definition legacy_two_fs : filesystem :=
  {[ "postproc_005/sub_tab_005.0" :=
       write_segment true 0 np_uint32 default_options sample_values
         (Header 5 5 40 None 2 8 None) 0 0;
     "postproc_005/sub_tab_005.1" :=
       write_header true 0 (Header 0 5 0 None 2 3 None) ]}.

(** The object the constructor returns for it, where there is [long]. *)
Definition legacy_catalog : catalog :=
  match (new_catalog no_snapshot true false legacy_two_fs default_options "" (SnapInt 5)).2
  with
  | Ok c => c
  | Raise _ => new_object
  end.

(** The object the constructor returns for the G3 catalog of one
    segment ([single_fs]), and for the one whose first segment is empty
    ([lopsided_fs]). *)
Definition catalog_of (fs : filesystem) : catalog :=
  match (new_catalog no_snapshot true false fs default_options "out/" (SnapInt 5)).2 with
  | Ok c => c
  | Raise _ => new_object
  end.

(** ** [catalog.help] *)

(** The values [help] prints: strings, booleans, numbers, and the type
    of the identifiers. *)
Inductive pyvalue : Type :=
| PyStr (s : string)
| PyBool (b : bool)
| PyInt (n : Z)
| PyType (d : dtype).

Global Instance pyvalue_eq_dec : EqDecision pyvalue.
Proof. solve_decision. Defined.

(** One call of [print]: the line is the list of its arguments, or the
    exception that the evaluation of an argument raises. *)
Definition text (s : string) : result (list pyvalue) := Ok [PyStr s].

Definition text_attr {A} (s : string) (v : option A) (py : A → pyvalue)
  : result (list pyvalue) :=
  match v with
  | Some a => Ok [PyStr s; py a]
  | None => Raise AttributeError
  end.

Definition text_attr_text {A} (s : string) (v : option A) (py : A → pyvalue) (s' : string)
  : result (list pyvalue) :=
  match v with
  | Some a => Ok [PyStr s; py a; PyStr s']
  | None => Raise AttributeError
  end.

(** The calls of [print] one after the other, up to the first that
    raises. *)
Fixpoint run_prints (l : list (result (list pyvalue))) : list (list pyvalue) * result unit :=
  match l with
  | [] => ([], Ok tt)
  | Ok line :: l' => let '(lines, r) := run_prints l' in (line :: lines, r)
  | Raise e :: _ => ([], Raise e)
  end.

(** [hasattr(self, name)] for a name that is neither a scalar attribute
    nor a member of the class: the object has it when one of its arrays
    is bound to it. *)
Definition hasattr (c : catalog) (name : string) : bool :=
  bool_decide (is_Some (self_arrays c !! name)).

(** [help(self)]: the lines it prints, and whether it raises. *)
Definition help (c : catalog) : list (list pyvalue) * result unit :=
  match self_myformat c with
  | None => ([], Raise AttributeError)
  | Some myformat =>
      if decide (myformat = 2) then
        ([[PyStr "Please treat this SubFind catalog as a snapshot"]], Ok tt)
      else
        run_prints
          ([ text "Quantities contained in the ReadSubFind catalog structure:";
             text "Control parameters";
             text_attr "  snapnum:      " (self_snapnum c) PyStr;
             text_attr "  basedir:      " (self_basedir c) PyStr;
             text_attr "  swap:         " (self_swap c) PyBool;
             text_attr "  myformat:     " (self_myformat c) PyInt;
             text_attr "  Nfiles:       " (self_Nfiles c) (λ n, PyInt (Z.of_nat n));
             text_attr "  id_format:    " (self_id_format c) PyType;
             text "From the header";
             text_attr "  TotNgroups:   " (self_TotNgroups c) PyInt;
             text_attr "  TotNsubhalos: " (self_TotNsubhalos c) PyInt;
             text_attr "  TotNids:      " (self_TotNids c) PyInt;
             text "Vectors (length TotNgroups)" ]
           ++ (if decide (myformat = 1) then
                 [ text "  HaloLen            (dtype=np.int32)";
                   text "  HaloMemberID       (dtype=np.int32)";
                   text "  HaloMass           (dtype=np.float32)";
                   text "  HaloPos            (dtype=np.dtype((np.float32,3)))";
                   text "  HaloContCount      (dtype=np.float32)" ]
                 ++ (if hasattr c "VelDisp_Mean200" then
                       [ text "  VelDisp_Mean200   (dtype=np.float32)";
                         text "  VelDisp_Crit200   (dtype=np.float32)";
                         text "  VelDisp_TopHat200 (dtype=np.float32)" ]
                     else [])
               else [])
           ++ [ text "  NsubPerHalo       (dtype=np.int32)";
                text "  FirstSubOfHalo    (dtype=np.int32)";
                text "  Halo_M_Mean200    (dtype=np.float32)";
                text "  Halo_R_Mean200    (dtype=np.float32)";
                text "  Halo_M_Crit200    (dtype=np.float32)";
                text "  Halo_R_Crit200    (dtype=np.float32)";
                text "  Halo_M_TopHat200  (dtype=np.float32)";
                text "  Halo_R_TopHat200  (dtype=np.float32)" ]
           ++ (if hasattr c "HaloCont" then
                 [ text "  HaloCont           (dtype=np.float32)" ]
               else [])
           ++ [ text "Vectors (length TotNsubhalos)";
                text "  SubLen            (dtype=np.int32)";
                text "  SubOffset         (dtype=np.int32)";
                text "  SubParentHalo     (dtype=np.int32)";
                text "  SubPos            (dtype=np.dtype((np.float32,3)))";
                text "  SubVel            (dtype=np.dtype((np.float32,3)))";
                text "  SubVelDisp        (dtype=np.float32)";
                text "  SubVmax           (dtype=np.float32)";
                text "  SubSpin           (dtype=np.dtype((np.float32,3)))";
                text_attr_text "  SubMostBoundID    (dtype=" (self_id_format c) PyType ")";
                text "  SubHalfMass       (dtype=np.float32)" ]
           ++ (if hasattr c "SaveMassTab" then
                 [ text "  SubMassTab        (dtype=np.dtype((np.float32,6)))" ]
               else [])
           ++ (if decide (myformat = 1) then
                 [ text "  SubTMass          (dtype=np.float32)";
                   text "  SubCM             (dtype=np.dtype((np.float32,3)))";
                   text "  SubVmaxRad        (dtype=np.float32)";
                   text "  SubGroupNumber    (dtype=np.int32)" ]
               else [])
           ++ (if hasattr c "GroupIDs" then
                 [ text "Particle IDs of FoF groups (length TotNids)";
                   text_attr_text "  GroupIDs          (dtype=" (self_id_format c) PyType ")" ]
               else
                 [ text "Particle IDs have not been read";
                   text "To read them: catalog.readIDs(long_IDs=[True,False(default)],verbose=[0,1])" ]))
  end.

(** An object with the given scalar attributes and the arrays of the
    allocation table, all of them empty: what [help] sees of an object
    of the constructor. *)
Definition listing (snapnum basedir : string) (swap : bool) (nfiles : nat) (myformat : Z)
    (o : options) (G I S : Z) : catalog :=
  assigned (λ _, [])
    (Catalog (Some snapnum) (Some basedir) (Some swap) (Some nfiles) (Some myformat)
       (Some (long_IDs o)) (Some (id_dtype o)) (Some G) (Some I) (Some S) ∅)
    (allocated (id_dtype o) o myformat).

(** ** The schedule of the driver

    What a process does, loop by loop, as lines 29-199 order it. *)

Global Instance event_eq_dec : EqDecision event.
Proof. solve_decision. Defined.

(** The operations on the map files. *)
Definition touches_maps (e : event) : bool :=
  match e with
  | EvReadMap _ | EvWriteMap _ => true
  | _ => false
  end.

Section Schedule.

Context {replication shell : Type}.
Variable rank size : nat.
Variable shells : list shell.
Variable map_path : shell → string.
Variable replicationsinside : shell → list replication.
Variable Npart : nat → Z.

(** Lines 171-191, one turn of the loop on the ranks. *)
Definition rank_events (ranki : nat) : list event :=
  (if bool_decide (rank = ranki) && bool_decide (0 < ranki)%nat then [EvSend] else [])
  ++ (if bool_decide (rank = 0%nat) && bool_decide (ranki ≠ 0%nat)
      then [EvRecv ranki] else [])
  ++ [EvBarrier].

(** Lines 148-191, one replication. *)
Definition replication_events : list event := seq 0 size ≫= rank_events.

(** Lines 85-199, one shell. *)
Definition shell_events (snapnum : nat) (sh : shell) : list event :=
  (if bool_decide (rank = 0%nat) && negb (bool_decide (snapnum = 0%nat))
   then [EvReadMap (map_path sh)] else [])
  ++ (replicationsinside sh ≫= λ _, replication_events)
  ++ (if bool_decide (rank = 0%nat) then [EvWriteMap (map_path sh)] else [])
  ++ [EvBarrier].

(** Lines 29-199, one snapshot file. *)
Definition snapshot_events (snapnum : nat) : list event :=
  [EvBcast; EvBcast; EvPartition (Npart snapnum / Z.of_nat size)]
  ++ replicate 6 EvScatterv
  ++ (shells ≫= shell_events snapnum).

Definition run_events (numfiles : nat) : list event :=
  seq 0 numfiles ≫= snapshot_events.

End Schedule.

(** The toy run with 9 particles and two snapshots, from no map file,
    as the process of a given rank sees it, and the state it ends in. *)
Definition toy_run (rank : nat) : world + world :=
  driver 9 2 2 rank 3 [true; false] toy_path toy_auxcut toy_nearest (λ _, [tt]) (λ _, 9)
    toy_particles snd toy_crossing toy_sky toy_ang2pix [0; 0] toy_add id id ∅.

Definition toy_world (rank : nat) : world :=
  match toy_run rank with
  | inl w | inr w => w
  end.

(** The state in which snapshot 1 of that run finds its second shell,
    on the collector. *)
Definition toy_before : world :=
  default (World ∅ [])
    (world_before 2 0 3 [true; false] toy_path toy_auxcut toy_nearest (λ _, [tt]) (λ _, 9)
       toy_particles snd toy_crossing toy_sky toy_ang2pix [0; 0] toy_add id id ∅ 1 1).

(** The same run for two shells whose midpoints round to one file
    name, the second of which meets no replication: the state in which
    snapshot [snapnum] finds shell number [i], on the collector. *)
Definition shared_path : bool → string := λ _, "Maps/delta_run_field_fullsky_0.5.fits".
Definition shared_replications : bool → list unit := λ sh, if sh then [tt] else [].
Definition shared_before (snapnum i : nat) : option world :=
  world_before 2 0 3 [true; false] shared_path toy_auxcut toy_nearest shared_replications
    (λ _, 9) toy_particles snd toy_crossing toy_sky toy_ang2pix [0; 0] toy_add id id ∅
    snapnum i.

(** A G3 catalog whose only file stops after 23 bytes. *)
Definition short_fs : filesystem :=
  one_file_fs (take 23 (write_header false 1 single_header)).

(** * Properties *)

(** ** The driver *)

Section DriverProperties.

Context {particle replication shell skymap fits : Type}.
Variable nparticles : Z.
Variable numfiles npixels rank size : nat.
Variable shells : list shell.
Variable map_path : shell → string.
Variable auxcut : shell → list bool.
Variable nearest : shell → nat.
Variable replicationsinside : shell → list replication.
Variable Npart : nat → Z.
Variable particles : nat → nat → list particle.
Variable Zacc : particle → float32.
Variable crossing : shell → replication → particle → float32.
Variable getSkyCoordinates : replication → particle → float32 → float32 * float32 * float32.
Variable ang2pix : float32 → float32 → Z.
Variable zeros : skymap.
Variable add_counts : skymap → list Z → skymap.
Variable read_map : fits → skymap.
Variable write_map : skymap → fits.

(** C8.  When the particle count of the parameters is not a multiple
    of the number of processes, the run consists of the message and
    [comm.Abort()]: nothing is partitioned, no process communicates,
    and the map files are left as they were. *)
Theorem indivisible_count_aborts_first (files : gmap string fits) :
  (0 < size)%nat →
  nparticles `mod` Z.of_nat size ≠ 0 →
  ∃ w, driver nparticles numfiles npixels rank size shells map_path auxcut nearest
         replicationsinside Npart particles Zacc crossing getSkyCoordinates ang2pix
         zeros add_counts read_map write_map files = inl w
       ∧ events w = [EvCannotScatter; EvAbort]
       ∧ disk w = files
       ∧ Forall (λ e, partitioning e = false ∧ communication e = false
                      ∧ collective e = false) (events w).
Proof.
  intros _ Hrem. unfold driver.
  destruct (decide (nparticles `mod` Z.of_nat size ≠ 0)) as [_|Hdiv]; [|done].
  eexists. split; [reflexivity|]. cbn. repeat split; repeat constructor.
Qed.

Local Abbreviation step_rank :=
  (collect_rank (fits:=fits) npixels rank particles Zacc crossing getSkyCoordinates
     ang2pix add_counts).
Local Abbreviation step_rep :=
  (collect_replication (fits:=fits) npixels rank size particles Zacc crossing
     getSkyCoordinates ang2pix add_counts).
Local Abbreviation shell_run :=
  (process_shell npixels rank size map_path auxcut nearest replicationsinside particles
     Zacc crossing getSkyCoordinates ang2pix zeros add_counts read_map write_map).
Local Abbreviation shells_run :=
  (process_shells npixels rank size map_path auxcut nearest replicationsinside particles
     Zacc crossing getSkyCoordinates ang2pix zeros add_counts read_map write_map).
Local Abbreviation snapshot_run :=
  (process_snapshot npixels rank size shells map_path auxcut nearest replicationsinside
     Npart particles Zacc crossing getSkyCoordinates ang2pix zeros add_counts read_map
     write_map).
Local Abbreviation snapshots_run :=
  (process_snapshots npixels rank size shells map_path auxcut nearest replicationsinside
     Npart particles Zacc crossing getSkyCoordinates ang2pix zeros add_counts read_map
     write_map).
Local Abbreviation before :=
  (world_before npixels rank size shells map_path auxcut nearest replicationsinside
     Npart particles Zacc crossing getSkyCoordinates ang2pix zeros add_counts read_map
     write_map).
Local Abbreviation acc :=
  (accumulate npixels size replicationsinside particles Zacc crossing
     getSkyCoordinates ang2pix add_counts).
Local Abbreviation start_map := (open_map map_path zeros read_map).
Local Abbreviation started :=
  (map_started npixels size replicationsinside particles Zacc crossing
     getSkyCoordinates ang2pix zeros add_counts read_map write_map).
Local Abbreviation after :=
  (map_after npixels size replicationsinside particles Zacc crossing
     getSkyCoordinates ang2pix zeros add_counts read_map write_map).

(** The collection leaves the files alone; on the collector it adds
    the counts of every slice to the map. *)
Lemma collect_rank_collector snapnum sh rep (w : world) d ranki :
  rank = 0%nat →
  ∃ ev, step_rank snapnum sh rep (w, d) ranki
        = (World (disk w) (events w ++ ev),
           add_counts d (slice_counts npixels ang2pix
             (skycoordslice particles Zacc crossing getSkyCoordinates
                snapnum sh rep ranki))).
Proof.
  intros Hrank. unfold collect_rank. rewrite Hrank.
  repeat case_bool_decide; try lia; cbn; unfold emit; cbn [disk events];
    eexists; rewrite <- ?app_assoc; reflexivity.
Qed.

Lemma collect_ranks_collector snapnum sh rep l (w : world) d :
  rank = 0%nat →
  ∃ ev, foldl (step_rank snapnum sh rep) (w, d) l
        = (World (disk w) (events w ++ ev),
           foldl (λ d ranki,
                    add_counts d (slice_counts npixels ang2pix
                      (skycoordslice particles Zacc crossing getSkyCoordinates
                         snapnum sh rep ranki))) d l).
Proof.
  intros Hrank. revert w d. induction l as [|ranki l IH]; intros w d; cbn [foldl].
  - exists []. by rewrite app_nil_r; destruct w.
  - destruct (collect_rank_collector snapnum sh rep w d ranki Hrank) as [ev ->].
    edestruct IH as [ev' ->]. cbn [disk events].
    eexists. rewrite <- !app_assoc. reflexivity.
Qed.

Lemma collect_replications_collector snapnum sh l (w : world) d :
  rank = 0%nat →
  ∃ ev, foldl (step_rep snapnum sh) (w, d) l
        = (World (disk w) (events w ++ ev),
           foldl (λ deltai rep,
                    foldl (λ deltai ranki,
                             add_counts deltai (slice_counts npixels ang2pix
                               (skycoordslice particles Zacc crossing
                                  getSkyCoordinates snapnum sh rep ranki)))
                          deltai (seq 0 size)) d l).
Proof.
  intros Hrank. revert w d. induction l as [|rep l IH]; intros w d; cbn [foldl].
  - exists []. by rewrite app_nil_r; destruct w.
  - unfold collect_replication at 2.
    destruct (collect_ranks_collector snapnum sh rep (seq 0 size) w d Hrank) as [ev ->].
    edestruct IH as [ev' ->]. cbn [disk events].
    eexists. rewrite <- !app_assoc. reflexivity.
Qed.

(** One shell on the collector, when it goes through: its map was
    there to start from, and its file is overwritten with that map plus
    what the snapshot adds. *)
Lemma process_shell_collector snapnum (w w' : world) sh :
  rank = 0%nat →
  shell_run snapnum w sh = Some w' →
  ∃ d ev, start_map snapnum sh w = Some d
          ∧ w' = World (<[map_path sh := write_map (acc snapnum sh d)]> (disk w))
                   (events w ++ ev).
Proof.
  intros Hrank. unfold process_shell.
  rewrite bool_decide_eq_true_2 by done.
  destruct (start_map snapnum sh w) as [d|]; [|done]. cbn [mbind option_bind].
  destruct (fit_points auxcut nearest sh) as [kept_points|]; [|done].
  cbn [mbind option_bind].
  set (w1 := if bool_decide (snapnum = 0%nat) then w else emit _ w).
  assert (Hw1 : ∃ ev, w1 = World (disk w) (events w ++ ev)).
  { subst w1. destruct (bool_decide _); [exists []|eexists]; cbn.
    - by rewrite app_nil_r; destruct w.
    - reflexivity. }
  destruct Hw1 as [ev1 ->].
  destruct (collect_replications_collector snapnum sh (replicationsinside sh)
              (World (disk w) (events w ++ ev1)) d Hrank) as [ev2 ->].
  unfold emit, accumulate. cbn [disk events]. intros [= <-].
  exists d. eexists. split; [done|].
  rewrite <- !app_assoc. reflexivity.
Qed.

Lemma process_shells_app snapnum (w : world) l1 l2 :
  shells_run snapnum w (l1 ++ l2)
  = shells_run snapnum w l1 ≫= λ w', shells_run snapnum w' l2.
Proof.
  revert w. induction l1 as [|sh l1 IH]; intros w; cbn; [done|].
  destruct (shell_run snapnum w sh); cbn; [apply IH|done].
Qed.

Lemma process_snapshots_app (w : world) l1 l2 :
  snapshots_run w (l1 ++ l2) = snapshots_run w l1 ≫= λ w', snapshots_run w' l2.
Proof.
  revert w. induction l1 as [|s l1 IH]; intros w; cbn; [done|].
  destruct (snapshot_run w s); cbn; [apply IH|done].
Qed.

Lemma after_started snapnum sh :
  after snapnum sh = acc snapnum sh (started snapnum sh).
Proof. by destruct snapnum. Qed.

Lemma open_map_same_file snapnum sh (w w' : world) :
  disk w !! map_path sh = disk w' !! map_path sh →
  start_map snapnum sh w = start_map snapnum sh w'.
Proof. unfold open_map. by intros ->. Qed.

(** The scatter of a snapshot file leaves the map files alone. *)
Lemma prologue_disk snapnum (w w' : @world fits) :
  prologue size Npart snapnum w = Some w' → disk w' = disk w.
Proof. unfold prologue. case_decide; [|done]. by intros [= <-]. Qed.

Lemma distinct_files i j a b :
  NoDup (map_path <$> shells) →
  shells !! i = Some a → shells !! j = Some b → i ≠ j →
  map_path a ≠ map_path b.
Proof.
  intros Hnd Hi Hj Hij Heq. apply Hij.
  eapply NoDup_lookup; [exact Hnd| |].
  - rewrite list_lookup_fmap, Hi. reflexivity.
  - rewrite list_lookup_fmap, Hj. cbn. by rewrite Heq.
Qed.

(** The shells of one snapshot, one after the other, as far as the run
    gets: each leaves its map in its own file and touches no other. *)
Lemma shells_prefix snapnum (w0 : world) i : ∀ w : world,
  rank = 0%nat →
  NoDup (map_path <$> shells) →
  (∀ j shj, shells !! j = Some shj →
            start_map snapnum shj w0 = Some (started snapnum shj)) →
  shells_run snapnum w0 (take i shells) = Some w →
  (∀ j shj, shells !! j = Some shj → (j < i)%nat →
            disk w !! map_path shj = Some (write_map (after snapnum shj)))
  ∧ (∀ j shj, shells !! j = Some shj → (i ≤ j)%nat →
              disk w !! map_path shj = disk w0 !! map_path shj).
Proof.
  induction i as [|i IH]; intros w Hrank Hnd Hpre Hrun.
  - cbn in Hrun. injection Hrun as <-. split; [intros; lia | done].
  - destruct (shells !! i) as [shi|] eqn:Hi.
    + rewrite (take_S_r _ _ _ Hi), process_shells_app in Hrun.
      destruct (shells_run snapnum w0 (take i shells)) as [w1|] eqn:Hrun1; [|done].
      cbn [mbind option_bind process_shells] in Hrun.
      destruct (shell_run snapnum w1 shi) as [w2|] eqn:Hshell; [|done].
      cbn [mbind option_bind] in Hrun. injection Hrun as <-.
      destruct (IH w1 Hrank Hnd Hpre eq_refl) as [Hdone Hrest].
      destruct (process_shell_collector snapnum w1 w2 shi Hrank Hshell)
        as (d & ev & Hstart & ->).
      assert (d = started snapnum shi) as ->.
      { rewrite (open_map_same_file snapnum shi w1 w0) in Hstart
          by (apply (Hrest i shi Hi); lia).
        rewrite (Hpre i shi Hi) in Hstart. congruence. }
      cbn [disk]. split.
      * intros j shj Hj Hlt. destruct (decide (j = i)) as [->|Hne].
        -- assert (shj = shi) as -> by congruence.
           by rewrite lookup_insert_eq, after_started.
        -- rewrite lookup_insert_ne by (apply (distinct_files i j shi shj); auto).
           apply (Hdone j shj Hj). lia.
      * intros j shj Hj Hle.
        rewrite lookup_insert_ne by (apply (distinct_files i j shi shj); auto; lia).
        apply (Hrest j shj Hj). lia.
    + apply lookup_ge_None in Hi. rewrite take_ge in Hrun by lia.
      destruct (IH w Hrank Hnd Hpre) as [Hdone Hrest]; [by rewrite take_ge by lia|].
      split.
      * intros j shj Hj _. apply (Hdone j shj Hj).
        apply lookup_lt_Some in Hj. lia.
      * intros j shj Hj Hle. apply (Hrest j shj Hj). lia.
Qed.

(** The snapshots that are done have left, in the file of each shell,
    the map the next snapshot starts from. *)
Lemma snapshots_prefix (files : gmap string fits) snapnum : ∀ w : world,
  rank = 0%nat →
  NoDup (map_path <$> shells) →
  snapshots_run (World files []) (seq 0 snapnum) = Some w →
  ∀ j shj, shells !! j = Some shj →
           start_map snapnum shj w = Some (started snapnum shj).
Proof.
  induction snapnum as [|s IH]; intros w Hrank Hnd Hrun; [done|].
  rewrite seq_S, process_snapshots_app in Hrun.
  destruct (snapshots_run (World files []) (seq 0 s)) as [w0|] eqn:Hrun0; [|done].
  cbn [mbind option_bind Nat.add process_snapshots] in Hrun.
  destruct (snapshot_run w0 s) as [w1|] eqn:Hsnap; [|done].
  cbn [mbind option_bind] in Hrun. injection Hrun as <-.
  unfold process_snapshot in Hsnap.
  destruct (prologue size Npart s w0) as [wp|] eqn:Hp; [|done].
  cbn [mbind option_bind] in Hsnap.
  destruct (shells_prefix s wp (length shells) w1 Hrank Hnd) as [Hdone _].
  { intros j shj Hj. rewrite <- (IH w0 Hrank Hnd eq_refl j shj Hj).
    apply open_map_same_file. by rewrite (prologue_disk s w0 wp Hp). }
  { by rewrite firstn_all. }
  intros j shj Hj. unfold open_map.
  rewrite bool_decide_eq_false_2 by done.
  rewrite (Hdone j shj Hj) by (by apply lookup_lt_Some in Hj). done.
Qed.


(** C7.  A particle whose accretion redshift is higher than the
    redshift at which it crosses the light cone gets the sentinel
    scale factor, and the counts of its slice are those of the slice
    without it.  (The sky coordinates are those of a
    [getSkyCoordinates] that flags the sentinel, as the design
    document has it.) *)
Theorem accreted_later_is_excluded (sh : shell) (rep : replication)
    (p : particle) (ahead behind : list particle) :
  sentinel_flagged getSkyCoordinates →
  f32_ltb (crossing_redshift (crossing sh rep p)) (Zacc p) = true →
  mask_accretion (crossing sh rep p) (Zacc p) = sentinel
  ∧ slice_counts npixels ang2pix
      (sky_of_slice Zacc crossing getSkyCoordinates sh rep (ahead ++ p :: behind))
    = slice_counts npixels ang2pix
        (sky_of_slice Zacc crossing getSkyCoordinates sh rep (ahead ++ behind)).
Proof.
  intros Hflag Hlater.
  assert (Hmask : mask_accretion (crossing sh rep p) (Zacc p) = sentinel).
  { unfold mask_accretion. by rewrite Hlater. }
  split; [exact Hmask|].
  unfold slice_counts, pixels_of, sky_of_slice. f_equal.
  rewrite !fmap_app, fmap_cons, !filter_app, Hmask.
  rewrite filter_cons_False; [reflexivity|].
  rewrite (Hflag rep p). discriminate.
Qed.

End DriverProperties.

(** The scenario of C7: a particle that crosses at scale factor 1/4,
    that is at redshift 3, and was accreted at redshift 5. *)
Lemma scenario_crossing_redshift :
  crossing_redshift toy_quarter = f32_of_Z 3
  ∧ f32_ltb (f32_of_Z 3) (f32_of_Z 5) = true
  ∧ mask_accretion toy_quarter (f32_of_Z 5) = sentinel.
Proof. by vm_compute. Qed.

Lemma toy_sky_flags_sentinel : sentinel_flagged toy_sky.
Proof. intros rep p. reflexivity. Qed.

Lemma accreted_later_is_excluded_witness :
  mask_accretion toy_quarter (f32_of_Z 5) = sentinel
  ∧ slice_counts 2 toy_ang2pix
      (sky_of_slice snd toy_crossing toy_sky true tt
         ([(toy_quarter, f32_of_Z 2)] ++ (toy_quarter, f32_of_Z 5) :: []))
    = slice_counts 2 toy_ang2pix
        (sky_of_slice snd toy_crossing toy_sky true tt ([(toy_quarter, f32_of_Z 2)] ++ [])).
Proof.
  apply (accreted_later_is_excluded 2 snd toy_crossing toy_sky toy_ang2pix true tt
           (toy_quarter, f32_of_Z 5) [(toy_quarter, f32_of_Z 2)] []).
  - exact toy_sky_flags_sentinel.
  - vm_compute. reflexivity.
Defined.

Lemma indivisible_count_aborts_first_witness :
  ∃ w, toy_driver 10 1 ∅ = inl w
       ∧ events w = [EvCannotScatter; EvAbort]
       ∧ disk w = ∅
       ∧ Forall (λ e, partitioning e = false ∧ communication e = false
                      ∧ collective e = false) (events w).
Proof.
  apply (indivisible_count_aborts_first (particle:=toy_particle) (replication:=unit)
           (shell:=bool) 10 1 2 0 3).
  - lia.
  - vm_compute. discriminate.
Defined.

Lemma toy_paths_distinct : NoDup (toy_path <$> [true; false]).
Proof. apply (bool_decide_unpack _). by vm_compute. Qed.



(** ** The catalog reader on the catalogs above *)

(** C1.  On the catalog of the end-to-end scenario (EXTENDED, native
    byte order, segments of 3 groups and 5 subhalos, then 2 and 3) the
    constructor raises [ValueError] while it reads segment 0: every block
    is read with the catalog-wide total as its count (5 groups) and
    stored in the slice of the segment (3 groups).  The same content
    written as one segment is read block for block. *)
Theorem scenario_read_raises (has_long numpy2 : bool) :
  new_catalog no_snapshot has_long numpy2 (scenario_fs false) default_options "out/"
    (SnapInt 5)
  = ([], Raise ValueError)
  ∧ (fromfile (Handle (default [] (scenario_fs false !! "out/groups_005/subhalo_tab_005.0")) 32)
       np_int32 5).1
    = (λ v, [le_bytes 4 v]) <$> [70000; 70010; 70020; 120000; 120010]
  ∧ assign_slice (replicate 5 None) 0 (0 + 3)
      ((λ v, [le_bytes 4 v]) <$> [70000; 70010; 70020; 120000; 120010])
    = Raise ValueError
  ∧ returns
      (new_catalog no_snapshot has_long numpy2 (single_fs false) default_options "out/"
         (SnapInt 5))
      (λ c, self_TotNgroups c = Some 5 ∧ self_TotNsubhalos c = Some 8
            ∧ self_arrays c !! "HaloLen"
              = Some (expected_array sample_values np_int32 "HaloLen" 5)
            ∧ self_arrays c !! "SubPos"
              = Some (expected_array sample_values (np_float32x 3) "SubPos" 8)).
Proof. destruct has_long, numpy2; vm_compute; repeat split. Qed.

(** ** Counting the segments *)

Lemma segment_name_inj (prefix : string) : Inj (=) (=) (λ n, prefix +:+ "." +:+ fmt_d n).
Proof.
  intros n m Heq. unfold fmt_d in Heq.
  apply (inj (String.app prefix)) in Heq.
  apply (inj (String.app ".")) in Heq.
  by apply (inj pretty) in Heq.
Qed.

Lemma path_exists_dom (fs : filesystem) p : path_exists fs p = true ↔ p ∈ dom fs.
Proof.
  unfold path_exists. rewrite bool_decide_eq_true. symmetry. apply elem_of_dom.
Qed.

(** No prefix has more consecutive segments than the file system has
    files. *)
Lemma segments_bounded (fs : filesystem) prefix n :
  (∀ i, (i < n)%nat → path_exists fs (prefix +:+ "." +:+ fmt_d i) = true) →
  (n ≤ size fs)%nat.
Proof.
  intros Hall.
  set (names := (λ i, prefix +:+ "." +:+ fmt_d i) <$> seq 0 n).
  assert (Hnd : NoDup names).
  { pose proof (segment_name_inj prefix). apply NoDup_fmap_2; [done|]. apply NoDup_seq. }
  assert (Hsub : list_to_set (C:=gset string) names ⊆ dom fs).
  { intros p Hp. apply elem_of_list_to_set, list_elem_of_fmap in Hp.
    destruct Hp as (i & -> & Hi). apply elem_of_seq in Hi.
    apply path_exists_dom, Hall. lia. }
  apply subseteq_size in Hsub.
  rewrite size_list_to_set, size_dom in Hsub by done.
  unfold names in Hsub. by rewrite length_fmap, length_seq in Hsub.
Qed.

Lemma probe_spec (fs : filesystem) prefix fuel n :
  (n ≤ probe fs prefix fuel n ≤ n + fuel)%nat
  ∧ (∀ i, (n ≤ i < probe fs prefix fuel n)%nat →
          path_exists fs (prefix +:+ "." +:+ fmt_d i) = true)
  ∧ ((probe fs prefix fuel n < n + fuel)%nat →
     path_exists fs (prefix +:+ "." +:+ fmt_d (probe fs prefix fuel n)) = false).
Proof.
  revert n. induction fuel as [|fuel IH]; intros n; cbn [probe].
  - repeat split; intros; lia.
  - destruct (path_exists fs (prefix +:+ "." +:+ fmt_d n)) eqn:Hn.
    + destruct (IH (S n)) as ([Hlo Hhi] & Hall & Hstop). repeat split; try lia.
      * intros i Hi. destruct (decide (i = n)) as [->|]; [done|]. apply Hall. lia.
      * intros Hlt. apply Hstop. lia.
    + repeat split; intros; try lia. done.
  Qed.

(** The loop of [guess_format] that counts the files ends, with the
    least index whose file is missing: all the segments before it exist. *)
Lemma probe_least (fs : filesystem) prefix :
  path_exists fs (prefix +:+ "." +:+ fmt_d (count_files fs prefix)) = false
  ∧ ∀ i, (i < count_files fs prefix)%nat →
         path_exists fs (prefix +:+ "." +:+ fmt_d i) = true.
Proof.
  unfold count_files.
  destruct (probe_spec fs prefix (S (size fs)) 0) as ([_ Hhi] & Hall & Hstop).
  split.
  - apply Hstop.
    pose proof (segments_bounded fs prefix (probe fs prefix (S (size fs)) 0)) as Hb.
    cut (probe fs prefix (S (size fs)) 0 ≤ size fs)%nat; [lia|].
    apply Hb. intros i Hi. apply Hall. lia.
  - intros i Hi. apply Hall. lia.
Qed.

Lemma count_files_positive (fs : filesystem) prefix :
  path_exists fs (prefix +:+ ".0") = true → (0 < count_files fs prefix)%nat.
Proof.
  intros H0. destruct (probe_least fs prefix) as [Hmiss _].
  destruct (count_files fs prefix); [|lia].
  change (prefix +:+ "." +:+ fmt_d 0) with (prefix +:+ ".0") in Hmiss. congruence.
Qed.

(** ** Format discovery *)

Lemma find_template_first (fs : filesystem) (b s : string) :
  find_template fs b s = (λ kf, (kf.2, Z.of_nat kf.1)) <$> first_existing fs b s.
Proof.
  unfold first_existing, candidates, find_template.
  cbn [list_find]. unfold decide, decide_rel.
  destruct (path_exists fs (legacy_path b s +:+ ".0")); [done|].
  destruct (path_exists fs (extended_path b s +:+ ".0")); [done|].
  by destruct (path_exists fs (snapshot_path b s +:+ ".0")).
Qed.

Lemma guess_format_not_found Snapshot_Init (fs : filesystem) basedir snapnum :
  find_template fs (with_slash basedir) (snap_string snapnum) = None →
  guess_format Snapshot_Init fs basedir snapnum = ([MsgFilesNotFound], Ok None).
Proof. intros H. unfold guess_format. by rewrite H. Qed.

Lemma guess_format_found Snapshot_Init (fs : filesystem) basedir snapnum fname k :
  find_template fs (with_slash basedir) (snap_string snapnum) = Some (fname, k) →
  (guess_format Snapshot_Init fs basedir snapnum).1 ≠ [MsgFilesNotFound]
  ∧ (selected (guess_format Snapshot_Init fs basedir snapnum) = None
     ∨ selected (guess_format Snapshot_Init fs basedir snapnum)
       = Some (count_files fs fname, k)).
Proof.
  intros H. unfold guess_format. rewrite H.
  assert (Hk : k = 0 ∨ k = 1 ∨ k = 2).
  { unfold find_template in H. repeat case_match; naive_solver. }
  destruct (decide (k = 0)) as [->|]; [|destruct (decide (k = 1)) as [->|]].
  - destruct (rbind _ _) as [number|e]; [|by auto].
    repeat case_decide; unfold selected; cbn [fst snd]; auto.
  - destruct (rbind _ _) as [number|e]; [|by auto].
    repeat case_decide; unfold selected; cbn [fst snd]; auto.
  - assert (k = 2) as -> by lia.
    repeat case_decide; unfold selected; cbn [fst snd]; auto.
Qed.

(** The constructor subscripts what [guess_format] returns before it
    looks whether it is [None]. *)
Lemma new_catalog_on_None Snapshot_Init has_long numpy2 (fs : filesystem) o basedir snapnum msgs :
  guess_format Snapshot_Init fs basedir snapnum = (msgs, Ok None) →
  new_catalog Snapshot_Init has_long numpy2 fs o basedir snapnum = (msgs, Raise TypeError).
Proof.
  intros H. unfold new_catalog, catalog_init, mbind, M_bind, bind.
  change (guess_format Snapshot_Init fs basedir (SnapStr (snap_string snapnum)))
    with (guess_format Snapshot_Init fs basedir snapnum).
  by rewrite H.
Qed.

(** C5.  [guess_format] settles on the first of the three templates,
    taken in the order LEGACY, EXTENDED, SNAPSHOT-EMBEDDED, whose
    segment 0 exists: a successful call returns the position of that
    template as the format, with the number of its segments.  When no
    segment 0 exists it prints "ERROR: Subfind files not found" and
    returns [None], and the constructor fails: it raises on the [None]
    it gets. *)
Theorem format_discovery_in_priority_order
    (Snapshot_Init : filesystem → string → string → snapshot) (has_long numpy2 : bool)
    (fs : filesystem) (o : options) (basedir : string) (snapnum : snap_arg) :
  let found := first_existing fs (with_slash basedir) (snap_string snapnum) in
  find_template fs (with_slash basedir) (snap_string snapnum)
  = (λ kf, (kf.2, Z.of_nat kf.1)) <$> found
  ∧ match found with
    | None =>
        guess_format Snapshot_Init fs basedir snapnum = ([MsgFilesNotFound], Ok None)
        ∧ new_catalog Snapshot_Init has_long numpy2 fs o basedir snapnum
          = ([MsgFilesNotFound], Raise TypeError)
    | Some (k, fname) =>
        (guess_format Snapshot_Init fs basedir snapnum).1 ≠ [MsgFilesNotFound]
        ∧ (selected (guess_format Snapshot_Init fs basedir snapnum) = None
           ∨ selected (guess_format Snapshot_Init fs basedir snapnum)
             = Some (count_files fs fname, Z.of_nat k))
    end.
Proof.
  cbn zeta. pose proof (find_template_first fs (with_slash basedir) (snap_string snapnum)) as Hfind.
  split; [exact Hfind|].
  destruct (first_existing fs (with_slash basedir) (snap_string snapnum)) as [[k fname]|].
  - by apply guess_format_found.
  - assert (Hnone := guess_format_not_found Snapshot_Init fs basedir snapnum Hfind).
    split; [exact Hnone|]. by apply new_catalog_on_None.
Qed.

(** C10.  When [guess_format] returns the format 2, the constructor
    assigns [myformat] and [swap], prints that the catalog is to be read
    as a snapshot, and returns: the object has no other attribute, no
    total and no array, and nothing is raised. *)
Theorem snapshot_format_returns_early
    (Snapshot_Init : filesystem → string → string → snapshot) (has_long numpy2 : bool)
    (fs : filesystem) (o : options) (basedir : string) (snapnum : snap_arg)
    (msgs : list message) (nfiles : nat) (swap : bool) :
  guess_format Snapshot_Init fs basedir snapnum = (msgs, Ok (Some (nfiles, 2, swap))) →
  new_catalog Snapshot_Init has_long numpy2 fs o basedir snapnum
  = (msgs ++ [MsgReadAsSnapshot],
     Ok (Catalog None None (Some swap) None (Some 2) None None None None None ∅)).
Proof.
  intros H. unfold new_catalog, catalog_init, mbind, M_bind, bind.
  change (guess_format Snapshot_Init fs basedir (SnapStr (snap_string snapnum)))
    with (guess_format Snapshot_Init fs basedir snapnum).
  by rewrite H.
Qed.

Lemma snapshot_format_returns_early_witness :
  new_catalog snapshot_found true false snapshot_fs default_options "" (SnapInt 5)
  = ([] ++ [MsgReadAsSnapshot],
     Ok (Catalog None None (Some false) None (Some 2) None None None None None ∅)).
Proof.
  apply (snapshot_format_returns_early snapshot_found true false snapshot_fs default_options
           "" (SnapInt 5) [] 1 false).
  vm_compute. reflexivity.
Defined.

(** The byte order of an EXTENDED catalog: the 32-bit field at offset 20
    of segment 0 is compared, as it is and byte-swapped, with the number
    of segments that were found. *)
Lemma extended_byte_order Snapshot_Init (fs : filesystem) basedir snapnum fname bytes number :
  find_template fs (with_slash basedir) (snap_string snapnum) = Some (fname, 1) →
  fs !! (fname +:+ ".0") = Some bytes →
  read_number (Handle bytes 0) 20 = Ok number →
  guess_format Snapshot_Init fs basedir snapnum
  = if decide (le_unsigned number = Z.of_nat (count_files fs fname)) then
      ([], Ok (Some (count_files fs fname, 1, false)))
    else if decide (le_unsigned (reverse number) = Z.of_nat (count_files fs fname)) then
      ([], Ok (Some (count_files fs fname, 1, true)))
    else ([MsgNotUnderstood (fname +:+ ".0")], Ok None).
Proof.
  intros Hfind Hfile Hnum. unfold guess_format. rewrite Hfind.
  cbn [decide decide_rel]. unfold open_rb. rewrite Hfile. cbn [rbind]. rewrite Hnum.
  reflexivity.
Qed.

(** C2.  On a LEGACY catalog the field read at offset 12 is compared as
    it is with the number of files of the group catalog next to it, not
    with the number of segments: a catalog of one segment whose field
    holds 1 is not recognised when there is no group catalog, and a
    field that holds 2 passes for native order next to a group catalog
    of two files. *)
Theorem legacy_raw_field_compared_with_group_files :
  count_files (legacy_fs false) (legacy_path "" "005") = 1%nat
  ∧ rbind (open_rb (legacy_fs false) "postproc_005/sub_tab_005.0")
      (λ f, read_number f 12) = Ok (le_bytes 4 1)
  ∧ guess_format no_snapshot (legacy_fs false) "" (SnapInt 5)
    = ([MsgNotUnderstood "postproc_005/sub_tab_005.0"], Ok None)
  ∧ count_files (legacy_fs_two_groups 2) (legacy_path "" "005") = 1%nat
  ∧ guess_format no_snapshot (legacy_fs_two_groups 2) "" (SnapInt 5)
    = ([], Ok (Some (1%nat, 0, false))).
Proof. repeat split; vm_compute; reflexivity. Qed.

(** ** The particle-ID reader *)

(** [read_IDs] raises as soon as it has opened its first segment: the
    first thing it does with what it reads is the call of [myswap] with
    one argument. *)
Lemma bind_run {A B} (m : M A) (k : A → M B) (st : state) :
  (m ≫= k) st = match m st with
                | (Ok a, st') => k a st'
                | (Raise e, st') => (Raise e, st')
                end.
Proof. reflexivity. Qed.

Lemma attr_run {A} (get : catalog → option A) c f msgs (a : A) :
  get c = Some a → attr get (State c f msgs) = (Ok a, State c f msgs).
Proof. intros H. unfold attr. cbn [self]. by rewrite H. Qed.

Lemma open_file_run (fs : filesystem) p bytes (st : state) :
  fs !! p = Some bytes →
  open_file fs p st = (Ok tt, State (self st) (Handle bytes 0) (out st)).
Proof. intros H. unfold open_file, open_rb. by rewrite H. Qed.

Lemma read_ids_header_raises myformat (st : state) :
  ∃ st', read_ids_header myformat st = (Raise TypeError, st')
         ∧ self st' = self st ∧ out st' = out st.
Proof.
  unfold read_ids_header.
  destruct (decide (myformat = 1)); rewrite bind_run; unfold np_fromfile;
    destruct (fromfile _ _ _); rewrite bind_run; unfold myswap_without_flag, raise;
    eexists; (split; [reflexivity|]); done.
Qed.

Lemma read_ids_segment_raises (fs : filesystem) (c : catalog) name fnb skip bytes
    myformat msgs f :
  self_myformat c = Some myformat →
  fs !! (name +:+ fmt_d fnb) = Some bytes →
  ∃ f', read_ids_segment fs (Some name) fnb skip (State c f msgs)
        = (Raise TypeError, State c f' msgs).
Proof.
  intros Hfmt Hfile. unfold read_ids_segment.
  rewrite bind_run. cbn [local ret].
  rewrite bind_run, (open_file_run _ _ _ _ Hfile). cbn [self out].
  rewrite bind_run, (attr_run _ _ _ _ _ Hfmt).
  rewrite bind_run.
  destruct (read_ids_header_raises myformat (State c (Handle bytes 0) msgs))
    as ([c' f' msgs'] & -> & Hc & Hm). cbn in Hc, Hm. subst. by eexists.
Qed.

Lemma read_IDs_always_raises (fs : filesystem) (c : catalog) (myformat : Z) (b s : string) :
  self_myformat c = Some myformat →
  myformat = 0 ∨ myformat = 1 →
  self_basedir c = Some b →
  self_snapnum c = Some s →
  is_Some (fs !! ((if decide (myformat = 0)
                   then b +:+ "postproc_" +:+ s +:+ "/sub_ids_" +:+ s +:+ "."
                   else b +:+ "groups_" +:+ s +:+ "/subhalo_ids_" +:+ s +:+ ".")
                  +:+ fmt_d 0)) →
  call_read_IDs fs c = ([], Raise TypeError).
Proof.
  intros Hfmt Hcase Hb Hs [bytes Hfile].
  unfold call_read_IDs, read_IDs.
  rewrite bind_run, (attr_run _ _ _ _ _ Hfmt). rewrite bind_run.
  assert (Hname : ∃ name, fs !! (name +:+ fmt_d 0) = Some bytes
            ∧ (if decide (myformat = 0)
               then b0 ← attr self_basedir; s0 ← attr self_snapnum;
                    ret (Some (b0 +:+ "postproc_" +:+ s0 +:+ "/sub_ids_" +:+ s0 +:+ "."))
               else if decide (myformat = 1)
               then b0 ← attr self_basedir; s0 ← attr self_snapnum;
                    ret (Some (b0 +:+ "groups_" +:+ s0 +:+ "/subhalo_ids_" +:+ s0 +:+ "."))
               else ret None) (State c (Handle [] 0) [])
              = (Ok (Some name), State c (Handle [] 0) [])).
  { destruct Hcase as [-> | ->].
    - rewrite decide_True in Hfile by done. rewrite decide_True by done.
      eexists; split; [exact Hfile|].
      rewrite bind_run, (attr_run _ _ _ _ _ Hb), bind_run, (attr_run _ _ _ _ _ Hs).
      reflexivity.
    - rewrite decide_False in Hfile by done.
      rewrite decide_False by done. rewrite decide_True by done.
      eexists; split; [exact Hfile|].
      rewrite bind_run, (attr_run _ _ _ _ _ Hb), bind_run, (attr_run _ _ _ _ _ Hs).
      reflexivity. }
  destruct Hname as (name & Hfile' & ->).
  destruct (size fs); cbn [read_ids_files]; rewrite bind_run;
    destruct (read_ids_segment_raises fs c name 0%nat 0 bytes myformat [] (Handle [] 0)
                Hfmt Hfile') as [f' ->]; reflexivity.
Qed.

(** C3.  The catalog of one segment has 5 groups; the ID file next to
    it announces 7.  [read_IDs] does not get to compare them: it raises
    [TypeError] on its first call of [myswap], prints nothing about an
    inconsistency and leaves the object without [GroupIDs]. *)
Theorem read_IDs_raises_before_the_checks (numpy2 : bool) :
  returns (new_catalog no_snapshot true numpy2 (ids_fs 7) default_options "out/" (SnapInt 5))
    (λ c, self_TotNgroups c = Some 5
          ∧ (read_header 1
               (State c (Handle (default [] (ids_fs 7 !! "out/groups_005/subhalo_ids_005.0")) 0)
                  [])).1
            = Ok (Header 5 7 40 (Some 40) 1 8 (Some 8))
          ∧ call_read_IDs (ids_fs 7) c = ([], Raise TypeError)).
Proof. destruct numpy2; vm_compute; repeat split. Qed.

(** C6, the ID offset.  With an ID file that agrees with the catalog,
    [read_IDs] raises all the same before any identifier is stored: no
    turn of its loop is ever completed, and the offset [skip] is never
    advanced. *)
Theorem read_IDs_completes_no_segment (numpy2 : bool) :
  returns (new_catalog no_snapshot true numpy2 (ids_fs 5) default_options "out/" (SnapInt 5))
    (λ c, self_TotNgroups c = Some 5 ∧ self_TotNids c = Some 40
          ∧ call_read_IDs (ids_fs 5) c = ([], Raise TypeError)
          ∧ (read_ids_segment (ids_fs 5) (Some "out/groups_005/subhalo_ids_005.") 0 0
               (State c (Handle [] 0) [])).1 = Raise TypeError).
Proof. destruct numpy2; vm_compute; repeat split. Qed.

(** C4.  A LEGACY catalog of one segment, in a directory without group
    catalog.  Written in the byte order of the reader it is not
    recognised, and the constructor raises; its byte-swapped copy is
    recognised as swapped and read. *)
Theorem legacy_swapped_copy_differs (has_long numpy2 : bool) :
  new_catalog no_snapshot has_long numpy2 (legacy_fs false) default_options "" (SnapInt 5)
  = ([MsgNotUnderstood "postproc_005/sub_tab_005.0"], Raise TypeError)
  ∧ guess_format no_snapshot (legacy_fs true) "" (SnapInt 5)
    = ([], Ok (Some (1%nat, 0, true)))
  ∧ returns
      (new_catalog no_snapshot true numpy2 (legacy_fs true) default_options "" (SnapInt 5))
      (λ c, self_swap c = Some true
            ∧ self_arrays c !! "SubLen"
              = Some (expected_array sample_values np_int32 "SubLen" 8))
  ∧ new_catalog no_snapshot false numpy2 (legacy_fs true) default_options "" (SnapInt 5)
    = ([], Raise NameError).
Proof. destruct has_long, numpy2; vm_compute; repeat split. Qed.

(** For comparison, the EXTENDED catalog of one segment and its
    byte-swapped copy are read into the same arrays. *)
Lemma extended_swapped_copy_agrees (numpy2 : bool) :
  returns
    (new_catalog no_snapshot true numpy2 (single_fs false) default_options "out/" (SnapInt 5))
    (λ c, new_catalog no_snapshot true numpy2 (single_fs true) default_options "out/"
            (SnapInt 5)
          = ([], Ok (set_swap true c))).
Proof. destruct numpy2; vm_compute; reflexivity. Qed.

(** ** The offsets of the constructor *)

Create HintDb swap_frame.

Lemma keeps_swap_ret {A} (a : A) : keeps_swap (ret a).
Proof. done. Qed.
Lemma keeps_swap_raise {A} e : keeps_swap (raise (A:=A) e).
Proof. done. Qed.
Lemma keeps_swap_lift {A} (r : result A) : keeps_swap (lift r).
Proof. done. Qed.
Lemma keeps_swap_local {A} (v : option A) : keeps_swap (local v).
Proof. by destruct v. Qed.
Lemma keeps_swap_attr {A} (get : catalog → option A) : keeps_swap (attr get).
Proof. intros st. unfold attr. by destruct (get (self st)). Qed.
Lemma keeps_swap_get_self : keeps_swap get_self.
Proof. done. Qed.
Lemma keeps_swap_print m : keeps_swap (print m).
Proof. done. Qed.
Lemma keeps_swap_not_at_end : keeps_swap not_at_end.
Proof. done. Qed.
Lemma keeps_swap_np_fromfile d count : keeps_swap (np_fromfile d count).
Proof. intros st. unfold np_fromfile. by destruct (fromfile _ _ _). Qed.
Lemma keeps_swap_open_file (fs : filesystem) p : keeps_swap (open_file fs p).
Proof. intros st. unfold open_file. by destruct (open_rb fs p). Qed.
Lemma keeps_swap_bind {A B} (m : M A) (k : A → M B) :
  keeps_swap m → (∀ a, keeps_swap (k a)) → keeps_swap (m ≫= k).
Proof.
  intros Hm Hk st. rewrite bind_run. specialize (Hm st).
  destruct (m st) as [[a|e] st1]; cbn [snd] in *; [|done].
  by rewrite Hk.
Qed.
Lemma keeps_swap_set_self (f : catalog → catalog) :
  (∀ c, self_swap (f c) = self_swap c) → keeps_swap (set_self f).
Proof. intros Hf st. apply Hf. Qed.
Lemma keeps_swap_when b (m : M unit) : keeps_swap m → keeps_swap (when b m).
Proof. by destruct b. Qed.
Lemma keeps_swap_for_each {A} (body : A → M unit) l :
  (∀ a, keeps_swap (body a)) → keeps_swap (for_each body l).
Proof.
  intros Hb. induction l as [|x l IH]; cbn [for_each]; [done|].
  apply keeps_swap_bind; auto.
Qed.

#[local] Hint Resolve keeps_swap_ret keeps_swap_raise keeps_swap_lift keeps_swap_local
  keeps_swap_attr keeps_swap_get_self keeps_swap_print keeps_swap_not_at_end
  keeps_swap_np_fromfile keeps_swap_open_file keeps_swap_when keeps_swap_for_each
  : swap_frame.

Ltac frame_swap :=
  repeat first
    [ progress auto with swap_frame
    | apply keeps_swap_bind; [|intros ?]
    | apply keeps_swap_set_self; intros ?; reflexivity
    | apply keeps_swap_when
    | apply keeps_swap_for_each; intros ?
    | match goal with |- keeps_swap (if ?b then _ else _) => destruct b end
    | match goal with |- keeps_swap (match ?x with _ => _ end) => destruct x end ].

Lemma keeps_swap_allocate fld : keeps_swap (allocate fld).
Proof. unfold allocate. frame_swap. Qed.

Lemma keeps_swap_read_block numpy2 myformat skipG skipS h fld :
  keeps_swap (read_block numpy2 myformat skipG skipS h fld).
Proof. unfold read_block. frame_swap. Qed.

Lemma keeps_swap_read_header myformat : keeps_swap (read_header myformat).
Proof. unfold read_header. frame_swap. Qed.

Lemma bind_ok {A B} (m : M A) (k : A → M B) st b st' :
  (m ≫= k) st = (Ok b, st') →
  ∃ a st1, m st = (Ok a, st1) ∧ k a st1 = (Ok b, st').
Proof.
  rewrite bind_run. destruct (m st) as [[a|e] st1]; [|done]. eauto.
Qed.

(** What [read_header] returns depends on the object through [swap]
    only, and on the file. *)
Lemma read_header_only_swap myformat c f msgs sw :
  self_swap c = Some sw →
  (read_header myformat (State c f msgs)).1
  = (read_header myformat (State (set_swap sw new_object) f [])).1.
Proof.
  intros Hsw. unfold read_header.
  rewrite !bind_run, (attr_run self_swap c f msgs sw Hsw).
  rewrite (attr_run self_swap (set_swap sw new_object) f [] sw eq_refl).
  unfold mbind, M_bind, bind, np_fromfile, lift, ret, raise.
  destruct (decide (myformat = 1)); cbn -[fromfile unpack item0 myswap].
  - destruct (fromfile f np_int32 3) as [a f1].
    destruct (unpack Int32 3 (myswap a sw)) as [v|]; [|reflexivity].
    cbn -[fromfile unpack item0 myswap].
    destruct (fromfile f1 np_uint64 1) as [b f2].
    destruct (item0 UInt64 (myswap b sw)) as [t|]; [|reflexivity].
    cbn -[fromfile unpack item0 myswap].
    destruct (fromfile f2 np_uint32 3) as [c3 f3].
    destruct (unpack UInt32 3 (myswap c3 sw)) as [w|]; [|reflexivity].
    repeat case_match; reflexivity.
  - destruct (fromfile f np_int32 5) as [a f1].
    destruct (unpack Int32 5 (myswap a sw)) as [v|]; [|reflexivity].
    repeat case_match; reflexivity.
Qed.

Lemma keeps_swap_read_tab_segment numpy2 (fs : filesystem) o fname nfiles myformat fnb skip :
  keeps_swap (read_tab_segment numpy2 fs o fname nfiles myformat fnb skip).
Proof.
  unfold read_tab_segment. destruct skip as [skipS skipG].
  frame_swap; apply keeps_swap_allocate || apply keeps_swap_read_block
              || apply keeps_swap_read_header.
Qed.

(** Sums in an integer type: wrapping a partial sum changes nothing,
    and a sum that fits is not changed. *)
Lemma wrap_signed_add (bits a b : Z) :
  wrap_signed bits (wrap_signed bits a + b) = wrap_signed bits (a + b).
Proof.
  unfold wrap_signed. f_equal.
  replace ((a + 2 ^ (bits - 1)) `mod` 2 ^ bits - 2 ^ (bits - 1) + b + 2 ^ (bits - 1))
    with ((a + 2 ^ (bits - 1)) `mod` 2 ^ bits + b) by lia.
  rewrite Zplus_mod_idemp_l. f_equal. lia.
Qed.

Lemma wrap_unsigned_add (bits a b : Z) :
  wrap_unsigned bits (wrap_unsigned bits a + b) = wrap_unsigned bits (a + b).
Proof. unfold wrap_unsigned. by rewrite Zplus_mod_idemp_l. Qed.

Lemma wrap_signed_fits (bits z : Z) :
  0 < bits → - 2 ^ (bits - 1) ≤ z < 2 ^ (bits - 1) → wrap_signed bits z = z.
Proof.
  intros Hbits Hz. unfold wrap_signed.
  replace (2 ^ bits) with (2 * 2 ^ (bits - 1))
    by (rewrite <- Z.pow_succ_r by lia; f_equal; lia).
  rewrite Z.mod_small by lia. lia.
Qed.

Lemma add_int32_assoc numpy2 (a b c : Z) :
  add_int32 numpy2 (add_int32 numpy2 a b) c = add_int32 numpy2 a (b + c).
Proof.
  unfold add_int32. destruct numpy2; rewrite wrap_signed_add; f_equal; lia.
Qed.

Lemma add_subhalos_assoc numpy2 myformat (a b c : Z) :
  add_subhalos numpy2 myformat (add_subhalos numpy2 myformat a b) c
  = add_subhalos numpy2 myformat a (b + c).
Proof.
  unfold add_subhalos, add_uint32. case_decide; [|apply add_int32_assoc].
  destruct numpy2; rewrite ?wrap_unsigned_add, ?wrap_signed_add; f_equal; lia.
Qed.

Lemma add_int32_fits numpy2 (a b : Z) :
  - 2 ^ 31 ≤ a + b < 2 ^ 31 → add_int32 numpy2 a b = a + b.
Proof.
  intros Hfit. unfold add_int32. destruct numpy2; apply wrap_signed_fits; lia.
Qed.

Lemma add_uint32_fits numpy2 (a b : Z) :
  0 ≤ a + b < 2 ^ 32 → add_uint32 numpy2 a b = a + b.
Proof.
  intros Hfit. unfold add_uint32. destruct numpy2.
  - unfold wrap_unsigned. apply Z.mod_small. lia.
  - apply wrap_signed_fits; lia.
Qed.

Lemma add_subhalos_fits numpy2 myformat (a b : Z) :
  0 ≤ a + b < 2 ^ 31 → add_subhalos numpy2 myformat a b = a + b.
Proof.
  intros Hfit. unfold add_subhalos.
  case_decide; [apply add_uint32_fits|apply add_int32_fits]; lia.
Qed.

(** One turn of the loop moves each offset by the count the header of
    the segment gives. *)
Lemma read_tab_segment_offsets numpy2 (fs : filesystem) o fname nfiles myformat fnb
    skipS skipG st skipS' skipG' st' sw :
  self_swap (self st) = Some sw →
  read_tab_segment numpy2 fs o fname nfiles myformat fnb (skipS, skipG) st
  = (Ok (skipS', skipG'), st') →
  ∃ h, segment_header fs fname myformat sw fnb = Some h
       ∧ skipG' = add_int32 numpy2 skipG (Ngroups h)
       ∧ skipS' = add_subhalos numpy2 myformat skipS (Nsubhalos h)
       ∧ self_swap (self st') = Some sw.
Proof.
  intros Hsw Hrun.
  pose proof (keeps_swap_read_tab_segment numpy2 fs o fname nfiles myformat fnb
                (skipS, skipG) st) as Hkeep.
  rewrite Hrun in Hkeep. cbn [snd] in Hkeep. rewrite Hsw in Hkeep.
  unfold read_tab_segment in Hrun.
  apply bind_ok in Hrun as ([] & st1 & Hopen & Hrun).
  apply bind_ok in Hrun as (h & st2 & Hhead & Hrun).
  exists h.
  assert (Hh : segment_header fs fname myformat sw fnb = Some h).
  { unfold segment_header, open_file, open_rb in *.
    destruct (fs !! (fname +:+ "." +:+ fmt_d fnb)) as [bytes|]; [|done].
    injection Hopen as <-. cbn [mbind option_bind].
    rewrite <- (read_header_only_swap myformat (self st) _ (out st) sw Hsw).
    by rewrite Hhead. }
  do 4 (apply bind_ok in Hrun as (? & ? & _ & Hrun)).
  do 4 (apply bind_ok in Hrun as (? & ? & _ & Hrun)).
  injection Hrun as <- <- _. done.
Qed.

(** The turns up to segment [k] are the start of every longer loop. *)
Lemma read_tab_files_split numpy2 (fs : filesystem) o fname nfiles myformat k m fnb skip st :
  read_tab_files numpy2 fs o fname nfiles myformat (k + S m) fnb skip st
  = (read_tab_files numpy2 fs o fname nfiles myformat k fnb skip
     ≫= read_tab_files numpy2 fs o fname nfiles myformat m (fnb + S k)) st.
Proof.
  revert fnb skip st. induction k as [|k IH]; intros fnb skip st.
  - cbn [Nat.add read_tab_files]. rewrite !bind_run.
    destruct (read_tab_segment _ _ _ _ _ _ _ _ _) as [[skip'|e] st1]; [|done].
    cbn [ret]. by rewrite Nat.add_1_r.
  - cbn [Nat.add read_tab_files]. rewrite !bind_run.
    destruct (read_tab_segment _ _ _ _ _ _ _ _ _) as [[skip'|e] st1]; [|done].
    rewrite IH, bind_run. by replace (S fnb + S k)%nat with (fnb + S (S k))%nat by lia.
Qed.

(** After the turn for segment [fnb + more], each offset has grown by
    the sum of the counts in the headers of the segments [fnb], ...,
    [fnb + more], in the integer type NumPy gives it. *)
Lemma read_tab_files_offsets numpy2 (fs : filesystem) o fname nfiles myformat more fnb
    skipS skipG st skipS' skipG' st' sw :
  self_swap (self st) = Some sw →
  read_tab_files numpy2 fs o fname nfiles myformat more fnb (skipS, skipG) st
  = (Ok (skipS', skipG'), st') →
  ∃ hs, length hs = S more
        ∧ (∀ k h, hs !! k = Some h →
                  segment_header fs fname myformat sw (fnb + k) = Some h)
        ∧ skipG' = add_int32 numpy2 skipG (total (Ngroups <$> hs))
        ∧ skipS' = add_subhalos numpy2 myformat skipS (total (Nsubhalos <$> hs))
        ∧ self_swap (self st') = Some sw.
Proof.
  revert fnb skipS skipG st.
  induction more as [|more IH]; intros fnb skipS skipG st Hsw Hrun;
    cbn [read_tab_files] in Hrun;
    apply bind_ok in Hrun as ([sS1 sG1] & st1 & Hseg & Hrun);
    destruct (read_tab_segment_offsets _ _ _ _ _ _ _ _ _ _ _ _ _ _ Hsw Hseg)
      as (h & Hh & -> & -> & Hsw1).
  - injection Hrun as <- <- <-. exists [h]. unfold total. cbn.
    rewrite !Z.add_0_r.
    split; [done|]. split; [|done].
    intros [|k] h' Hk; [|done]. injection Hk as <-. by rewrite Nat.add_0_r.
  - destruct (IH _ _ _ _ Hsw1 Hrun) as (hs & Hlen & Hhs & -> & -> & Hsw').
    exists (h :: hs). unfold total. rewrite !fmap_cons. cbn [foldr length].
    rewrite add_int32_assoc, add_subhalos_assoc.
    split; [lia|]. split; [|done].
    intros [|k] h' Hk.
    + injection Hk as <-. by rewrite Nat.add_0_r.
    + cbn in Hk. rewrite <- (Hhs k h' Hk). f_equal. lia.
Qed.

(** X12.  The invariant of the offsets, for the groups and the
    subhalos: in a run of the loop that goes through, the turn for
    segment [k], the last one included, ends with each offset equal to
    the sum of the counts in the headers of the segments 0..k, as the
    integer type of the offset holds it (with NumPy 2 that of the
    counts, 32 bits wide, before NumPy 2 [int64]): the sum itself when
    it fits, wrapped around when it does not. *)
Theorem tab_offsets_are_sums numpy2 (fs : filesystem) o fname nfiles myformat n k st r st'
    sw :
  self_swap (self st) = Some sw →
  (k ≤ n)%nat →
  read_tab_files numpy2 fs o fname nfiles myformat n 0 (0, 0) st = (Ok r, st') →
  ∃ skipS skipG st_k hs,
    read_tab_files numpy2 fs o fname nfiles myformat k 0 (0, 0) st
    = (Ok (skipS, skipG), st_k)
    ∧ length hs = S k
    ∧ (∀ j h, hs !! j = Some h → segment_header fs fname myformat sw j = Some h)
    ∧ skipG = add_int32 numpy2 0 (total (Ngroups <$> hs))
    ∧ skipS = add_subhalos numpy2 myformat 0 (total (Nsubhalos <$> hs))
    ∧ (- 2 ^ 31 ≤ total (Ngroups <$> hs) < 2 ^ 31 → skipG = total (Ngroups <$> hs))
    ∧ (0 ≤ total (Nsubhalos <$> hs) < 2 ^ 31 → skipS = total (Nsubhalos <$> hs)).
Proof.
  intros Hsw Hk Hrun.
  assert (Hprefix : ∃ skip st_k,
            read_tab_files numpy2 fs o fname nfiles myformat k 0 (0, 0) st = (Ok skip, st_k)).
  { destruct (decide (k = n)) as [->|Hne]; [by eauto|].
    replace n with (k + S (n - k - 1))%nat in Hrun by lia.
    rewrite read_tab_files_split in Hrun.
    apply bind_ok in Hrun as (skip & st_k & Hrun_k & _). by eauto. }
  destruct Hprefix as ([skipS skipG] & st_k & Hrun_k).
  destruct (read_tab_files_offsets _ _ _ _ _ _ _ _ _ _ _ _ _ _ _ Hsw Hrun_k)
    as (hs & Hlen & Hhs & -> & -> & _).
  exists (add_subhalos numpy2 myformat 0 (total (Nsubhalos <$> hs))),
         (add_int32 numpy2 0 (total (Ngroups <$> hs))), st_k, hs.
  split; [done|]. split; [done|]. split; [intros j h Hj; by apply Hhs|].
  split; [done|]. split; [done|]. split.
  - intros Hfit. by rewrite add_int32_fits.
  - intros Hfit. by rewrite add_subhalos_fits.
Qed.

(** The loop does complete on catalogs of several segments.  On the
    catalog whose first segment is empty, the offsets are (0, 0) after
    segment 0 and (8, 5) after segment 1, and the arrays hold what was
    written.  On the catalog whose second segment announces no group,
    they are (8, 5) after segment 0 and (11, 5) after segment 1. *)
Lemma offsets_on_lopsided_catalog (numpy2 : bool) :
  (read_tab_files numpy2 lopsided_fs default_options "out/groups_005/subhalo_tab_005" 2 1 0 0
     (0, 0) before_loop).1 = Ok (0, 0)
  ∧ (read_tab_files numpy2 lopsided_fs default_options "out/groups_005/subhalo_tab_005" 2 1 1
       0 (0, 0) before_loop).1 = Ok (8, 5)
  ∧ segment_header lopsided_fs "out/groups_005/subhalo_tab_005" 1 false 1
    = Some (lopsided_header 1)
  ∧ returns
      (new_catalog no_snapshot true numpy2 lopsided_fs default_options "out/" (SnapInt 5))
      (λ c, self_arrays c !! "SubPos"
            = Some (expected_array sample_values (np_float32x 3) "SubPos" 8))
  ∧ (read_tab_files numpy2 front_loaded_fs default_options "out/groups_005/subhalo_tab_005"
       2 1 0 0 (0, 0) before_loop).1 = Ok (8, 5)
  ∧ (read_tab_files numpy2 front_loaded_fs default_options "out/groups_005/subhalo_tab_005"
       2 1 1 0 (0, 0) before_loop).1 = Ok (11, 5).
Proof. destruct numpy2; vm_compute; repeat split. Qed.

(** The offsets do wrap around with NumPy 2: two segments that announce
    no group and [2 ^ 31] subhalos each leave the subhalo offset at 0,
    and at [2 ^ 32] before NumPy 2. *)
Lemma offsets_wrap_around :
  (read_tab_files true wrapping_fs default_options "out/groups_005/subhalo_tab_005" 2 1 1 0
     (0, 0) before_loop).1 = Ok (0, 0)
  ∧ (read_tab_files false wrapping_fs default_options "out/groups_005/subhalo_tab_005" 2 1 1
       0 (0, 0) before_loop).1 = Ok (2 ^ 32, 0).
Proof. vm_compute. repeat split. Qed.

(** ** Catalogs that are complete in one segment *)

(** ** Bytes and items *)

Lemma le_bytes_S (w : nat) (v : Z) :
  le_bytes (S w) v = v `mod` 256 :: le_bytes w (v `div` 256).
Proof.
  unfold le_bytes. cbn [seq fmap list_fmap]. f_equal.
  - by rewrite Z.pow_0_r, Z.div_1_r.
  - rewrite <- fmap_S_seq, <- list_fmap_compose. apply list_fmap_ext.
    intros _ i _. cbn. rewrite Nat2Z.inj_succ, Z.pow_succ_r by lia.
    by rewrite Z.div_div by lia.
Qed.

Lemma length_le_bytes (w : nat) (v : Z) : length (le_bytes w v) = w.
Proof. unfold le_bytes. by rewrite length_fmap, length_seq. Qed.

Lemma le_unsigned_le_bytes (w : nat) (v : Z) :
  le_unsigned (le_bytes w v) = v `mod` 256 ^ Z.of_nat w.
Proof.
  revert v. induction w as [|w IH]; intros v.
  - cbn. by rewrite Z.mod_1_r.
  - rewrite le_bytes_S. cbn [le_unsigned]. rewrite IH.
    rewrite Nat2Z.inj_succ, Z.pow_succ_r by lia.
    rewrite Z.rem_mul_r by lia. lia.
Qed.

Lemma le_signed_le_bytes (v : Z) :
  - 2 ^ 31 ≤ v < 2 ^ 31 → le_signed (le_bytes 4 v) = v.
Proof.
  intros Hv. unfold le_signed. rewrite le_unsigned_le_bytes, length_le_bytes.
  change (256 ^ Z.of_nat 4) with (2 ^ 32).
  destruct (decide (0 ≤ v)).
  - rewrite Z.mod_small by lia. case_decide; lia.
  - replace (v `mod` 2 ^ 32) with (v + 2 ^ 32).
    + case_decide; lia.
    + symmetry. rewrite <- (Z.mod_add v 1 (2 ^ 32)) by lia.
      rewrite Z.mod_small; lia.
Qed.

Lemma stored_native (swapped : bool) (w : nat) (v : Z) :
  (if swapped then reverse (stored swapped w v) else stored swapped w v) = le_bytes w v.
Proof. unfold stored. destruct swapped; [apply reverse_involutive | done]. Qed.

Lemma length_stored swapped w v : length (stored swapped w v) = w.
Proof. unfold stored. destruct swapped; rewrite ?length_reverse; apply length_le_bytes. Qed.

Lemma chunks_mjoin {A} (k : nat) (l : list (list A)) (rest : list A) :
  Forall (λ x, length x = k) l →
  chunks k (length l) (mjoin l ++ rest) = l.
Proof.
  induction 1 as [|x l Hx _ IH]; [done|].
  change (mjoin (x :: l)) with (x ++ mjoin l). cbn [length chunks].
  rewrite <- app_assoc, take_app_length', drop_app_length' by done.
  by rewrite IH.
Qed.

Lemma length_mjoin_uniform {A} (k : nat) (l : list (list A)) :
  Forall (λ x, length x = k) l → length (mjoin l) = (length l * k)%nat.
Proof.
  induction 1 as [|x l Hx _ IH]; [done|].
  change (mjoin (x :: l)) with (x ++ mjoin l). rewrite length_app, IH, Hx. cbn. lia.
Qed.

(** Reading back the items that were written at the position of the
    file: [fromfile] returns them, element by element, and moves past
    them. *)
Lemma fromfile_items (d : dtype) (pre rest : list Z) (items : list (list (list Z))) :
  (0 < row_width d)%nat →
  Forall (λ r, length r = row_width d
               ∧ Forall (λ e, length e = scalar_size (base d)) r) items →
  fromfile (Handle (pre ++ mjoin (mjoin <$> items) ++ rest) (length pre)) d
    (Z.of_nat (length items))
  = (items, Handle (pre ++ mjoin (mjoin <$> items) ++ rest)
              (length pre + length items * itemsize d)).
Proof.
  intros Hwidth Hitems.
  assert (Hsize : (0 < itemsize d)%nat).
  { unfold itemsize. destruct (base d); cbn; lia. }
  assert (Hflat : Forall (λ x : list Z, length x = itemsize d)
                         ((mjoin : list (list Z) → list Z) <$> items)).
  { apply Forall_fmap. eapply Forall_impl; [exact Hitems|].
    intros r [Hr He]. cbn. rewrite (length_mjoin_uniform _ _ He), Hr.
    unfold itemsize. lia. }
  pose proof (length_mjoin_uniform _ _ Hflat) as Hlen. rewrite length_fmap in Hlen.
  unfold fromfile. cbn [content pos].
  rewrite !length_app, Hlen.
  replace (length pre + (length items * itemsize d + length rest) - length pre)%nat
    with (length rest + length items * itemsize d)%nat by lia.
  rewrite Nat.div_add by lia.
  rewrite decide_False by lia. rewrite Nat2Z.id.
  rewrite Nat.min_l by lia.
  rewrite decide_False by lia.
  rewrite drop_app_length. f_equal.
  rewrite <- (length_fmap (mjoin : list (list Z) → list Z) items) at 1.
  rewrite (chunks_mjoin _ _ _ Hflat), <- list_fmap_compose.
  rewrite <- (list_fmap_id items) at 2. apply Forall_fmap_ext.
  eapply Forall_impl; [exact Hitems|]. intros r [Hr He]. cbn.
  rewrite <- Hr, <- (app_nil_r (mjoin r)). by apply chunks_mjoin.
Qed.

Lemma write_block_items swapped values first count fld :
  write_block swapped values first count fld
  = mjoin (mjoin <$> stored_items swapped values (field_dtype fld) (field_name fld)
                       first count).
Proof. unfold write_block, stored_items. by rewrite <- list_fmap_compose. Qed.

Lemma stored_items_shape swapped values d name first count :
  Forall (λ r, length r = row_width d
               ∧ Forall (λ e : list Z, length e = scalar_size (base d)) r)
         (stored_items swapped values d name first count).
Proof.
  unfold stored_items. apply Forall_fmap, Forall_forall. intros i _. cbn. split.
  - by rewrite length_fmap, length_seq.
  - apply Forall_fmap, Forall_forall. intros j _. apply length_stored.
Qed.

Lemma length_stored_items swapped values d name first count :
  length (stored_items swapped values d name first count) = count.
Proof. unfold stored_items. by rewrite length_fmap, length_seq. Qed.

Lemma myswap_stored_items swapped values d name count :
  myswap (stored_items swapped values d name 0 count) swapped
  = native_items values d name count.
Proof.
  unfold myswap, stored_items, native_items, stored. destruct swapped; [|done].
  unfold byteswap, byteswap_row. rewrite <- list_fmap_compose.
  apply list_fmap_ext. intros _ i _. cbn. rewrite <- list_fmap_compose.
  apply list_fmap_ext. intros _ j _. cbn. apply reverse_involutive.
Qed.

Lemma expected_array_native values d name count :
  expected_array values d name count = Some <$> native_items values d name count.
Proof. unfold expected_array, native_items. by rewrite <- list_fmap_compose. Qed.

Lemma assign_whole (a : ndarray) (rows : list (list (list Z))) :
  length a = length rows →
  assign_slice a 0 (0 + Z.of_nat (length rows)) rows = Ok (Some <$> rows).
Proof.
  intros Hlen. unfold assign_slice, slice_bounds, clamp_index. rewrite Hlen.
  destruct (decide (0 < 0)); [lia|].
  destruct (decide (0 + Z.of_nat (length rows) < 0)); [lia|].
  rewrite !Z.min_l by lia. rewrite Z.max_r by lia.
  change (Z.to_nat 0) with 0%nat. rewrite Z.sub_0_r, Z.add_0_l, Nat2Z.id.
  rewrite decide_True by done. cbn [take Nat.add].
  rewrite drop_ge by lia. by rewrite app_nil_r.
Qed.

Lemma np_fromfile_run d count c f msgs rows f' :
  fromfile f d count = (rows, f') →
  np_fromfile d count (State c f msgs) = (Ok rows, State c f' msgs).
Proof. intros H. unfold np_fromfile. cbn [file]. by rewrite H. Qed.

Lemma loc_of_start numpy2 p h :
  0 ≤ Ngroups h < 2 ^ 31 → 0 ≤ Nsubhalos h < 2 ^ 32 →
  loc_of numpy2 1 p 0 0 h = (0, 0 + Z.of_nat (count_of p h)).
Proof.
  intros HG HS. destruct p; cbn [loc_of count_of].
  - by rewrite add_int32_fits, Z2Nat.id by lia.
  - unfold add_subhalos. rewrite decide_True by done.
    by rewrite add_uint32_fits, Z2Nat.id by lia.
Qed.

(** A block that was written for the whole length of its array is read
    back into the array, item for item, in either byte order. *)
Lemma read_block_written numpy2 sw values h fld c pre rest msgs a :
  self_swap c = Some sw →
  total_of (field_per fld) c = Some (Z.of_nat (count_of (field_per fld) h)) →
  0 ≤ Ngroups h < 2 ^ 31 → 0 ≤ Nsubhalos h < 2 ^ 32 →
  self_arrays c !! field_name fld = Some a →
  length a = count_of (field_per fld) h →
  (0 < row_width (field_dtype fld))%nat →
  read_block numpy2 1 0 0 h fld
    (State c (Handle (pre ++ write_block sw values 0 (count_of (field_per fld) h) fld ++ rest)
                (length pre)) msgs)
  = (Ok tt,
     State (set_array (field_name fld)
              (expected_array values (field_dtype fld) (field_name fld)
                 (count_of (field_per fld) h)) c)
       (Handle (pre ++ write_block sw values 0 (count_of (field_per fld) h) fld ++ rest)
          (length pre + count_of (field_per fld) h * itemsize (field_dtype fld)))
       msgs).
Proof.
  intros Hsw Htot HG HS Harr Hlen Hwidth. unfold read_block.
  set (n := count_of (field_per fld) h) in *.
  rewrite bind_run, (attr_run _ _ _ _ _ Htot).
  rewrite write_block_items.
  pose proof (fromfile_items (field_dtype fld) pre rest _ Hwidth
                (stored_items_shape sw values (field_dtype fld) (field_name fld) 0 n))
    as Hread.
  rewrite length_stored_items in Hread.
  rewrite bind_run, (np_fromfile_run _ _ _ _ _ _ _ Hread).
  rewrite bind_run, (attr_run _ _ _ _ _ Hsw).
  rewrite bind_run. cbn [get_self self]. rewrite Harr.
  rewrite (loc_of_start _ _ _ HG HS). fold n.
  rewrite myswap_stored_items.
  assert (Hn : length (native_items values (field_dtype fld) (field_name fld) n) = n).
  { unfold native_items. by rewrite length_fmap, length_seq. }
  rewrite bind_run. unfold lift.
  rewrite <- Hn at 1. rewrite assign_whole by (by rewrite Hn).
  unfold set_self. cbn [self file out]. by rewrite expected_array_native.
Qed.

Lemma length_write_block sw values n fld :
  length (write_block sw values 0 n fld) = (n * itemsize (field_dtype fld))%nat.
Proof.
  rewrite write_block_items.
  assert (Hflat : Forall (λ x : list Z, length x = itemsize (field_dtype fld))
            ((mjoin : list (list Z) → list Z)
               <$> stored_items sw values (field_dtype fld) (field_name fld) 0 n)).
  { apply Forall_fmap.
    eapply Forall_impl; [apply stored_items_shape|].
    intros r [Hr He]. cbn. rewrite (length_mjoin_uniform _ _ He), Hr.
    unfold itemsize. lia. }
  rewrite (length_mjoin_uniform _ _ Hflat), length_fmap.
  by rewrite length_stored_items.
Qed.

Lemma read_blocks_written numpy2 sw values h fields : ∀ c pre rest msgs,
  self_swap c = Some sw →
  (∀ p, total_of p c = Some (Z.of_nat (count_of p h))) →
  0 ≤ Ngroups h < 2 ^ 31 → 0 ≤ Nsubhalos h < 2 ^ 32 →
  NoDup (field_name <$> fields) →
  (∀ fld, fld ∈ fields →
     (0 < row_width (field_dtype fld))%nat
     ∧ ∃ a, self_arrays c !! field_name fld = Some a
            ∧ length a = count_of (field_per fld) h) →
  for_each (read_block numpy2 1 0 0 h) fields
    (State c (Handle (pre ++ stored_blocks sw values h fields ++ rest) (length pre)) msgs)
  = (Ok tt,
     State (filled values h c fields)
       (Handle (pre ++ stored_blocks sw values h fields ++ rest)
          (length pre + length (stored_blocks sw values h fields)))
       msgs).
Proof.
  induction fields as [|fld fields IH]; intros c pre rest msgs Hsw Htot HG HS Hnd Hfields.
  - cbn. by rewrite Nat.add_0_r.
  - cbn [for_each]. rewrite bind_run.
    unfold stored_blocks. rewrite fmap_cons.
    change (mjoin (?x :: ?l)) with (x ++ mjoin l).
    fold (stored_blocks sw values h fields).
    rewrite <- (app_assoc _ (stored_blocks sw values h fields) rest).
    destruct (Hfields fld) as (Hwidth & a & Harr & Hlen); [apply elem_of_cons; auto|].
    rewrite (read_block_written numpy2 sw values h fld c pre _ msgs a
               Hsw (Htot _) HG HS Harr Hlen Hwidth).
    rewrite fmap_cons in Hnd. apply NoDup_cons in Hnd as [Hfresh Hnd].
    rewrite (app_assoc pre).
    rewrite <- (length_write_block sw values _ fld), <- length_app.
    rewrite IH; [| done | | done | done | done |].
    + cbn [filled foldl]. rewrite !length_app. do 3 f_equal. lia.
    + intros p. rewrite <- (Htot p). by destruct p.
    + intros fld' Hin. destruct (Hfields fld') as (Hw' & a' & Ha' & Hl');
        [apply elem_of_cons; auto|].
      split; [done|]. exists a'. split; [|done]. cbn [set_array self_arrays].
      rewrite lookup_insert_ne; [done|].
      intros Heq. apply Hfresh. rewrite Heq. by apply list_elem_of_fmap_2.
Qed.

Lemma assigned_scalars g fields : ∀ c,
  self_swap (assigned g c fields) = self_swap c
  ∧ self_TotNgroups (assigned g c fields) = self_TotNgroups c
  ∧ self_TotNsubhalos (assigned g c fields) = self_TotNsubhalos c
  ∧ self_TotNids (assigned g c fields) = self_TotNids c
  ∧ self_id_format (assigned g c fields) = self_id_format c.
Proof.
  induction fields as [|fld fields IH]; intros c; [done|].
  cbn [assigned foldl]. apply (IH (set_array _ _ c)).
Qed.

Lemma assigned_arrays g fields : ∀ c fld,
  NoDup (field_name <$> fields) →
  fld ∈ fields →
  self_arrays (assigned g c fields) !! field_name fld = Some (g fld).
Proof.
  induction fields as [|fld0 fields IH] using rev_ind; intros c fld Hnd Hin.
  - by apply elem_of_nil in Hin.
  - unfold assigned. rewrite foldl_app. cbn [foldl set_array self_arrays].
    rewrite fmap_app in Hnd. apply NoDup_app in Hnd as (Hnd & Hfresh & _).
    apply elem_of_app in Hin as [Hin|Hin].
    + rewrite lookup_insert_ne.
      * by apply IH.
      * intros Heq. apply (Hfresh (field_name fld)).
        -- by apply list_elem_of_fmap_2.
        -- rewrite <- Heq. cbn. left.
    + apply list_elem_of_singleton in Hin as ->. apply lookup_insert_eq.
Qed.

(** The allocations of the first turn. *)
Lemma allocate_all h fields : ∀ c f msgs,
  (∀ p, total_of p c = Some (Z.of_nat (count_of p h))) →
  for_each allocate fields (State c f msgs)
  = (Ok tt, State (allocated_for h c fields) f msgs).
Proof.
  induction fields as [|fld fields IH]; intros c f msgs Htot; [done|].
  cbn [for_each]. rewrite bind_run. unfold allocate at 1.
  rewrite bind_run, (attr_run _ _ _ _ _ (Htot _)).
  rewrite bind_run. unfold lift, np_empty.
  rewrite decide_False by lia. rewrite Nat2Z.id.
  unfold set_self. cbn [self file out].
  rewrite IH; [done|]. intros p. rewrite <- (Htot p). by destruct p.
Qed.

Lemma fromfile_at (d : dtype) (content pre rest : list Z) (items : list (list (list Z)))
    (at_ : nat) (count : Z) :
  content = pre ++ mjoin (mjoin <$> items) ++ rest →
  at_ = length pre →
  count = Z.of_nat (length items) →
  (0 < row_width d)%nat →
  Forall (λ r, length r = row_width d
               ∧ Forall (λ e : list Z, length e = scalar_size (base d)) r) items →
  fromfile (Handle content at_) d count
  = (items, Handle content (at_ + length items * itemsize d)).
Proof. intros -> -> ->. apply fromfile_items. Qed.

Lemma value_of_stored_signed (sw : bool) (v : Z) :
  - 2 ^ 31 ≤ v < 2 ^ 31 →
  value_of Int32 (mjoin (if sw then byteswap_row [stored sw 4 v] else [stored sw 4 v])) = v.
Proof.
  intros Hv. unfold stored. destruct sw; cbn [byteswap_row fmap list_fmap mjoin list_join].
  - rewrite reverse_involutive, app_nil_r. by apply le_signed_le_bytes.
  - rewrite app_nil_r. by apply le_signed_le_bytes.
Qed.

Lemma value_of_stored_unsigned (s : scalar) (sw : bool) (v : Z) :
  s ≠ Int32 →
  0 ≤ v < 256 ^ Z.of_nat (scalar_size s) →
  value_of s (mjoin (if sw then byteswap_row [stored sw (scalar_size s) v]
                     else [stored sw (scalar_size s) v])) = v.
Proof.
  intros Hs Hv.
  assert (Hval : ∀ e, value_of s e = le_unsigned e) by (by destruct s).
  rewrite Hval. unfold stored.
  destruct sw; cbn [byteswap_row fmap list_fmap mjoin list_join];
    rewrite ?reverse_involutive, app_nil_r, le_unsigned_le_bytes; by apply Z.mod_small.
Qed.

Lemma items_of_three (pre a b c : list Z) (rest : list Z) :
  pre ++ a ++ b ++ c ++ rest = pre ++ mjoin (mjoin <$> [[a]; [b]; [c]]) ++ rest.
Proof. cbn. by rewrite !app_nil_r, <- !app_assoc. Qed.

Lemma items_of_one (pre a rest : list Z) :
  pre ++ a ++ rest = pre ++ mjoin (mjoin <$> [[a]]) ++ rest.
Proof. cbn. by rewrite !app_nil_r. Qed.

Lemma unpack_three (s : scalar) (sw : bool) (a b c : list Z) (x y z : Z) :
  value_of s (mjoin (if sw then byteswap_row [a] else [a])) = x →
  value_of s (mjoin (if sw then byteswap_row [b] else [b])) = y →
  value_of s (mjoin (if sw then byteswap_row [c] else [c])) = z →
  unpack s 3 (myswap [[a]; [b]; [c]] sw) = Ok [x; y; z].
Proof.
  intros <- <- <-. unfold unpack, myswap.
  destruct sw; cbn [byteswap fmap list_fmap length]; by rewrite decide_True.
Qed.

Lemma item0_one (s : scalar) (sw : bool) (a : list Z) (x : Z) :
  value_of s (mjoin (if sw then byteswap_row [a] else [a])) = x →
  item0 s (myswap [[a]] sw) = Ok x.
Proof. intros <-. unfold item0, myswap. by destruct sw. Qed.

(** The header of an EXTENDED segment is unpacked to the values that
    were written, in either byte order. *)
Lemma read_header_written (sw : bool) c rest msgs
    (ngroups totngroups nids totnids nfiles nsubhalos totnsubhalos : Z) :
  self_swap c = Some sw →
  - 2 ^ 31 ≤ ngroups < 2 ^ 31 → - 2 ^ 31 ≤ totngroups < 2 ^ 31 →
  - 2 ^ 31 ≤ nids < 2 ^ 31 → 0 ≤ totnids < 2 ^ 64 →
  0 ≤ nfiles < 2 ^ 32 → 0 ≤ nsubhalos < 2 ^ 32 → 0 ≤ totnsubhalos < 2 ^ 32 →
  let h := Header ngroups totngroups nids (Some totnids) nfiles nsubhalos
             (Some totnsubhalos) in
  read_header 1 (State c (Handle (write_header sw 1 h ++ rest) 0) msgs)
  = (Ok h, State c (Handle (write_header sw 1 h ++ rest) 32) msgs).
Proof.
  intros Hsw H1 H2 H3 H4 H5 H6 H7 h. unfold read_header.
  rewrite bind_run, (attr_run _ _ _ _ _ Hsw). rewrite decide_True by done.
  unfold write_header. rewrite decide_True by done. subst h.
  cbn [Ngroups TotNgroups Nids TotNids Nfiles Nsubhalos TotNsubhalos default id].
  rewrite <- !app_assoc.
  set (sG := stored sw 4 ngroups). set (sT := stored sw 4 totngroups).
  set (sN := stored sw 4 nids). set (sI := stored sw 8 totnids).
  set (sF := stored sw 4 nfiles). set (sS := stored sw 4 nsubhalos).
  set (sX := stored sw 4 totnsubhalos).
  set (content := sG ++ sT ++ sN ++ sI ++ sF ++ sS ++ sX ++ rest).
  assert (LG : length sG = 4%nat) by apply length_stored.
  assert (LT : length sT = 4%nat) by apply length_stored.
  assert (LN : length sN = 4%nat) by apply length_stored.
  assert (LI : length sI = 8%nat) by apply length_stored.
  assert (Hr1 : fromfile (Handle content 0) np_int32 3
                = ([[sG]; [sT]; [sN]], Handle content 12)).
  { apply (fromfile_at np_int32 content [] (sI ++ sF ++ sS ++ sX ++ rest)
             [[sG]; [sT]; [sN]] 0 3); [apply (items_of_three []) | done | done | cbn; lia|].
    repeat constructor; apply length_stored. }
  assert (Hr2 : fromfile (Handle content 12) np_uint64 1
                = ([[sI]], Handle content 20)).
  { apply (fromfile_at np_uint64 content (sG ++ sT ++ sN) (sF ++ sS ++ sX ++ rest)
             [[sI]] 12 1); [|by rewrite !length_app, LG, LT, LN | done | cbn; lia|].
    - unfold content. rewrite <- items_of_one. by rewrite <- !app_assoc.
    - repeat constructor; apply length_stored. }
  assert (Hr3 : fromfile (Handle content 20) np_uint32 3
                = ([[sF]; [sS]; [sX]], Handle content 32)).
  { apply (fromfile_at np_uint32 content (sG ++ sT ++ sN ++ sI) rest
             [[sF]; [sS]; [sX]] 20 3); [|by rewrite !length_app, LG, LT, LN, LI | done | cbn; lia|].
    - unfold content. rewrite <- items_of_three. by rewrite <- !app_assoc.
    - repeat constructor; apply length_stored. }
  rewrite bind_run, (np_fromfile_run _ _ _ _ _ _ _ Hr1).
  rewrite bind_run. unfold lift at 1.
  rewrite (unpack_three Int32 sw sG sT sN ngroups totngroups nids)
    by (by apply value_of_stored_signed).
  rewrite bind_run, (np_fromfile_run _ _ _ _ _ _ _ Hr2).
  rewrite bind_run. unfold lift at 1.
  rewrite (item0_one UInt64 sw sI totnids)
    by (by apply (value_of_stored_unsigned UInt64)).
  rewrite bind_run, (np_fromfile_run _ _ _ _ _ _ _ Hr3).
  rewrite bind_run. unfold lift at 1.
  rewrite (unpack_three UInt32 sw sF sS sX nfiles nsubhalos totnsubhalos)
    by (by apply (value_of_stored_unsigned UInt32)).
  reflexivity.
Qed.

(** *** The field tables agree *)

Lemma extended_body_distinct (o : options) :
  NoDup (field_name <$> extended_body (id_dtype o) o).
Proof. destruct o as [[] [] [] []]; apply (bool_decide_unpack _); by vm_compute. Qed.

Lemma allocated_distinct (o : options) :
  NoDup (field_name <$> allocated (id_dtype o) o 1).
Proof. destruct o as [[] [] [] []]; apply (bool_decide_unpack _); by vm_compute. Qed.

Lemma extended_body_allocated (o : options) :
  Forall (λ fld, fld ∈ allocated (id_dtype o) o 1
                 ∧ (0 < row_width (field_dtype fld))%nat)
         (extended_body (id_dtype o) o).
Proof. destruct o as [[] [] [] []]; apply (bool_decide_unpack _); by vm_compute. Qed.

Lemma write_segment_blocks sw o values h :
  write_segment sw 1 (id_dtype o) o values h 0 0
  = write_header sw 1 h ++ stored_blocks sw values h (extended_body (id_dtype o) o).
Proof.
  unfold write_segment, stored_blocks. rewrite decide_False by done. do 2 f_equal.
  apply list_fmap_ext. intros _ fld _. by destruct (field_per fld).
Qed.

Lemma length_write_header sw h : length (write_header sw 1 h) = 32%nat.
Proof.
  unfold write_header. rewrite decide_True by done.
  by rewrite !length_app, !length_stored.
Qed.

Lemma bind_ret_run {A B} (a : A) (k : A → M B) st : (ret a ≫= k) st = k a st.
Proof. reflexivity. Qed.

Lemma bind_set_self_run {B} (g : catalog → catalog) (k : unit → M B) c f msgs :
  (set_self g ≫= k) (State c f msgs) = k tt (State (g c) f msgs).
Proof. reflexivity. Qed.

Lemma bind_attr_run {A B} (get : catalog → option A) (k : A → M B) c f msgs a :
  get c = Some a → (attr get ≫= k) (State c f msgs) = k a (State c f msgs).
Proof. intros H. by rewrite bind_run, (attr_run _ _ _ _ _ H). Qed.

Lemma bind_assoc_run {A B C} (m : M A) (k1 : A → M B) (k2 : B → M C) st :
  ((m ≫= k1) ≫= k2) st = (m ≫= λ a, k1 a ≫= k2) st.
Proof. rewrite !bind_run. destruct (m st) as [[a|e] st1]; [|done]. by rewrite bind_run. Qed.

Lemma last_is_slash_app (b : string) : last_is_slash (b +:+ "/") = true.
Proof.
  induction b as [|c b IH]; [done|].
  change (String c b +:+ "/") with (String c (b +:+ "/")).
  cbn [last_is_slash]. destruct (b +:+ "/") eqn:E; [|exact IH].
  by destruct b.
Qed.

Lemma with_slash_app (b : string) :
  b ≠ "" → last_is_slash b = false →
  with_slash b = b +:+ "/" ∧ with_slash (b +:+ "/") = b +:+ "/".
Proof.
  intros Hne Hlast. unfold with_slash. rewrite Hlast, last_is_slash_app.
  rewrite bool_decide_eq_true_2 by done. cbn [negb andb].
  by rewrite andb_false_r.
Qed.

(** X1.  The base directory may be given with or without its final
    slash: [guess_format] looks for the same files and gives the same
    answer. *)
Theorem guess_format_trailing_slash Snapshot_Init (fs : filesystem) (basedir : string)
    (snapnum : snap_arg) :
  basedir ≠ "" →
  last_is_slash basedir = false →
  guess_format Snapshot_Init fs basedir snapnum
  = guess_format Snapshot_Init fs (basedir +:+ "/") snapnum.
Proof.
  intros Hne Hlast. destruct (with_slash_app basedir Hne Hlast) as [H1 H2].
  unfold guess_format. by rewrite H1, H2.
Qed.

Lemma guess_format_trailing_slash_witness :
  guess_format no_snapshot (single_fs false) "out" (SnapInt 5)
  = guess_format no_snapshot (single_fs false) ("out" +:+ "/") (SnapInt 5).
Proof.
  apply (guess_format_trailing_slash no_snapshot (single_fs false) "out" (SnapInt 5)).
  - discriminate.
  - reflexivity.
Defined.

(** X2.  What a successful [guess_format] reports: the format is that of
    the template that was found, and the number of files is the number
    of consecutive segments of that template, counted from segment 0:
    there is at least one, all of them exist, and the next one does
    not. *)
Theorem guessed_segments_exist Snapshot_Init (fs : filesystem) (basedir : string)
    (snapnum : snap_arg) (msgs : list message) (nfiles : nat) (myformat : Z) (swap : bool) :
  guess_format Snapshot_Init fs basedir snapnum = (msgs, Ok (Some (nfiles, myformat, swap))) →
  ∃ fname,
    find_template fs (with_slash basedir) (snap_string snapnum) = Some (fname, myformat)
    ∧ (0 < nfiles)%nat
    ∧ (∀ i, (i < nfiles)%nat → path_exists fs (fname +:+ "." +:+ fmt_d i) = true)
    ∧ path_exists fs (fname +:+ "." +:+ fmt_d nfiles) = false.
Proof.
  intros Hg.
  destruct (find_template fs (with_slash basedir) (snap_string snapnum))
    as [[fname k]|] eqn:Hfind.
  - destruct (guess_format_found Snapshot_Init fs basedir snapnum fname k Hfind)
      as [_ [Hsel|Hsel]]; unfold selected in Hsel; rewrite Hg in Hsel; cbn in Hsel;
      [done|]. injection Hsel as -> ->.
    exists fname. split; [done|].
    assert (H0 : path_exists fs (fname +:+ ".0") = true).
    { unfold find_template in Hfind. repeat case_match; naive_solver. }
    destruct (probe_least fs fname) as [Hmiss Hall].
    split; [by apply count_files_positive|]. split; [exact Hall|exact Hmiss].
  - rewrite (guess_format_not_found Snapshot_Init fs basedir snapnum Hfind) in Hg. done.
Qed.

Lemma guessed_segments_exist_witness :
  ∃ fname,
    find_template lopsided_fs (with_slash "out/") (snap_string (SnapInt 5)) = Some (fname, 1)
    ∧ (0 < 2)%nat
    ∧ (∀ i, (i < 2)%nat → path_exists lopsided_fs (fname +:+ "." +:+ fmt_d i) = true)
    ∧ path_exists lopsided_fs (fname +:+ "." +:+ fmt_d 2) = false.
Proof.
  apply (guessed_segments_exist no_snapshot lopsided_fs "out/" (SnapInt 5) [] 2 1 false).
  vm_compute. reflexivity.
Defined.

(** Reading the count field of a file that holds it. *)
Lemma read_number_bytes (bytes : list Z) (off : nat) :
  (off + 4 ≤ length bytes)%nat →
  read_number (Handle bytes 0) off = Ok (take 4 (drop off bytes)).
Proof.
  intros Hlen. unfold read_number, seek_set, fromfile. cbn [content pos fst].
  change (itemsize np_uint32) with 4%nat.
  change (scalar_size (base np_uint32)) with 4%nat.
  change (row_width np_uint32) with 1%nat.
  rewrite decide_False by lia. change (Z.to_nat 1) with 1%nat.
  assert (Havail : (1 ≤ (length bytes - off) / 4)%nat).
  { apply Nat.div_le_lower_bound; lia. }
  rewrite Nat.min_l by lia. cbn [chunks fmap list_fmap].
  rewrite take_take. change (4 `min` 4)%nat with 4%nat. reflexivity.
Qed.

Lemma read_number_short (bytes : list Z) (off : nat) :
  (length bytes < off + 4)%nat →
  read_number (Handle bytes 0) off = Raise IndexError.
Proof.
  intros Hlen. unfold read_number, seek_set, fromfile. cbn [content pos fst].
  change (itemsize np_uint32) with 4%nat.
  rewrite decide_False by lia. change (Z.to_nat 1) with 1%nat.
  assert (Havail : ((length bytes - off) / 4 = 0)%nat).
  { apply Nat.div_small. lia. }
  rewrite Havail. reflexivity.
Qed.

Lemma find_template_formats (fs : filesystem) b s fname k :
  find_template fs b s = Some (fname, k) →
  path_exists fs (fname +:+ ".0") = true ∧ (k = 0 ∨ k = 1 ∨ k = 2).
Proof. unfold find_template. repeat case_match; naive_solver. Qed.

(** X3.  A segment 0 that is too short to hold the file-count field (16
    bytes in the old format, 24 in the G3 format) is not reported as a
    file of unknown format: [np.fromfile] returns an empty array, and
    taking its first element raises [IndexError], out of [guess_format]
    and out of the constructor. *)
Theorem truncated_header_raises Snapshot_Init has_long numpy2 (fs : filesystem) (o : options)
    (basedir : string) (snapnum : snap_arg) (fname : string) (myformat : Z)
    (bytes : list Z) :
  find_template fs (with_slash basedir) (snap_string snapnum) = Some (fname, myformat) →
  myformat ≠ 2 →
  fs !! (fname +:+ ".0") = Some bytes →
  (length bytes < count_field_offset myformat + 4)%nat →
  guess_format Snapshot_Init fs basedir snapnum = ([], Raise IndexError)
  ∧ new_catalog Snapshot_Init has_long numpy2 fs o basedir snapnum = ([], Raise IndexError).
Proof.
  intros Hfind Hk Hfile Hlen.
  assert (Hg : guess_format Snapshot_Init fs basedir snapnum = ([], Raise IndexError)).
  { unfold guess_format. rewrite Hfind.
    destruct (find_template_formats _ _ _ _ _ Hfind) as (_ & [-> | [-> | ->]]); [| |done].
    - rewrite decide_True by done. unfold open_rb. rewrite Hfile. cbn [rbind].
      by rewrite (read_number_short bytes 12 Hlen).
    - rewrite decide_False by done. rewrite decide_True by done.
      unfold open_rb. rewrite Hfile. cbn [rbind].
      by rewrite (read_number_short bytes 20 Hlen). }
  split; [exact Hg|].
  unfold new_catalog, catalog_init. rewrite bind_run.
  change (guess_format Snapshot_Init fs basedir (SnapStr (snap_string snapnum)))
    with (guess_format Snapshot_Init fs basedir snapnum).
  by rewrite Hg.
Qed.

(** X4.  The byte order of a G3 catalog, on the bytes of segment 0: the
    four bytes at offset 20 are read as an unsigned number, low byte
    first; the catalog is taken as native when that number is the number
    of segments, as swapped when the number read high byte first is, and
    is refused otherwise.  A field that reads as the number of segments
    in both orders counts as native. *)
Theorem extended_detection Snapshot_Init (fs : filesystem) (basedir : string)
    (snapnum : snap_arg) (fname : string) (bytes : list Z) :
  find_template fs (with_slash basedir) (snap_string snapnum) = Some (fname, 1) →
  fs !! (fname +:+ ".0") = Some bytes →
  (24 ≤ length bytes)%nat →
  guess_format Snapshot_Init fs basedir snapnum
  = if decide (le_unsigned (take 4 (drop 20 bytes)) = Z.of_nat (count_files fs fname)) then
      ([], Ok (Some (count_files fs fname, 1, false)))
    else if decide (le_unsigned (reverse (take 4 (drop 20 bytes)))
                    = Z.of_nat (count_files fs fname)) then
      ([], Ok (Some (count_files fs fname, 1, true)))
    else ([MsgNotUnderstood (fname +:+ ".0")], Ok None).
Proof.
  intros Hfind Hfile Hlen.
  apply (extended_byte_order Snapshot_Init fs basedir snapnum fname bytes); [done|done|].
  apply read_number_bytes. lia.
Qed.

Lemma one_file_found (bytes : list Z) :
  find_template (one_file_fs bytes) (with_slash "out/") (snap_string (SnapInt 5))
  = Some (extended_path "out/" "005", 1)
  ∧ count_files (one_file_fs bytes) (extended_path "out/" "005") = 1%nat.
Proof. by vm_compute. Qed.

Lemma count_field_written sw h rest :
  read_number (Handle (write_header sw 1 h ++ rest) 0) 20 = Ok (stored sw 4 (Nfiles h)).
Proof.
  unfold read_number, seek_set. cbn [content].
  unfold write_header. rewrite decide_True by done. rewrite <- !app_assoc.
  erewrite (fromfile_at np_uint32 _
              (stored sw 4 (Ngroups h) ++ stored sw 4 (TotNgroups h) ++ stored sw 4 (Nids h)
               ++ stored sw 8 (default 0 (TotNids h))) _ [[stored sw 4 (Nfiles h)]] 20 1);
    [done | | | done | cbn; lia |].
  - rewrite <- items_of_one. by rewrite <- !app_assoc.
  - by rewrite !length_app, !length_stored.
  - repeat constructor. apply length_stored.
Qed.

Lemma one_file_detected Snapshot_Init sw h rest :
  Nfiles h = 1 →
  guess_format Snapshot_Init (one_file_fs (write_header sw 1 h ++ rest)) "out/" (SnapInt 5)
  = ([], Ok (Some (1%nat, 1, sw))).
Proof.
  intros Hone.
  destruct (one_file_found (write_header sw 1 h ++ rest)) as [Hfind Hcount].
  rewrite (extended_byte_order Snapshot_Init _ "out/" (SnapInt 5) _ _ (stored sw 4 1) Hfind
             (lookup_singleton_eq _ _)).
  - rewrite Hcount. destruct sw.
    + rewrite decide_False by (by vm_compute). by rewrite decide_True by (by vm_compute).
    + by rewrite decide_True by (by vm_compute).
  - replace (stored sw 4 1) with (stored sw 4 (Nfiles h)) by (by rewrite Hone).
    apply count_field_written.
Qed.

(** The constructor on a catalog of one G3 file comes down to the one
    turn of its loop. *)
Lemma one_file_init Snapshot_Init has_long numpy2 sw o h rest :
  Nfiles h = 1 →
  new_catalog Snapshot_Init has_long numpy2 (one_file_fs (write_header sw 1 h ++ rest)) o "out/"
    (SnapInt 5)
  = match read_tab_segment numpy2 (one_file_fs (write_header sw 1 h ++ rest)) o
            "out/groups_005/subhalo_tab_005" 1 1 0 (0, 0)
            (State (entering_loop sw o) (Handle [] 0) []) with
    | (Ok _, st) => (out st, Ok (self st))
    | (Raise e, st) => (out st, Raise e)
    end.
Proof.
  intros Hone. unfold new_catalog, catalog_init.
  rewrite bind_run.
  change (guess_format Snapshot_Init _ "out/" (SnapStr (snap_string (SnapInt 5))))
    with (guess_format Snapshot_Init (one_file_fs (write_header sw 1 h ++ rest)) "out/"
            (SnapInt 5)).
  rewrite (one_file_detected _ _ _ _ Hone). cbn [app self file out].
  rewrite decide_False by done.
  rewrite !bind_set_self_run.
  rewrite (bool_decide_eq_false_2 (1 = 0)) by done. cbn [when]. rewrite bind_ret_run.
  rewrite decide_False by done. rewrite decide_True by done.
  change (1 - 1)%nat with 0%nat. cbn [read_tab_files].
  rewrite bind_assoc_run, bind_run.
  change (set_id_format _ _) with (entering_loop sw o).
  change (extended_path "out/" (snap_string (SnapInt 5))) with "out/groups_005/subhalo_tab_005".
  destruct (read_tab_segment _ _ _ _ _ _ _ _) as [[r|e] st]; reflexivity.
Qed.

Lemma read_tab_segment_written numpy2 (fs : filesystem) sw o values c f msgs fname
    (groups subhalos ids : Z) (rest : list Z) :
  let h := complete_header groups subhalos ids in
  fs !! (fname +:+ "." +:+ fmt_d 0)
  = Some (write_segment sw 1 (id_dtype o) o values h 0 0 ++ rest) →
  self_swap c = Some sw →
  self_id_format c = Some (id_dtype o) →
  0 < groups < 2 ^ 31 → 0 ≤ subhalos < 2 ^ 32 → 0 ≤ ids < 2 ^ 31 →
  read_tab_segment numpy2 fs o fname 1 1 0 (0, 0) (State c f msgs)
  = (Ok (add_subhalos numpy2 1 0 subhalos, add_int32 numpy2 0 groups),
     State (loaded o values h c)
       (Handle (write_segment sw 1 (id_dtype o) o values h 0 0 ++ rest)
          (length (write_segment sw 1 (id_dtype o) o values h 0 0)))
       (msgs ++ if decide (rest = []) then [] else [MsgNotFinished 0])).
Proof.
  intros h Hfile Hsw Hidf HG HS HI. unfold read_tab_segment.
  rewrite bind_run, (open_file_run _ _ _ _ Hfile). cbn [self out].
  rewrite write_segment_blocks.
  set (blocks := stored_blocks sw values h (extended_body (id_dtype o) o)).
  rewrite bind_run. rewrite <- app_assoc.
  pose proof (read_header_written sw c (blocks ++ rest) msgs groups groups ids ids 1 subhalos
                subhalos Hsw) as Hhead.
  cbn zeta in Hhead. fold (complete_header groups subhalos ids) in Hhead. fold h in Hhead.
  rewrite Hhead by lia. clear Hhead.
  rewrite (bool_decide_eq_false_2 (1 = 0)) by done. cbn [when]. rewrite bind_ret_run.
  rewrite (bool_decide_eq_true_2 (0%nat = 0%nat)) by done. cbn [when].
  rewrite (bool_decide_eq_true_2 (1 = 1)) by done. cbn [when].
  rewrite bind_assoc_run, bind_set_self_run.
  rewrite bind_assoc_run.
  change (local (TotNids h)) with (ret ids).
  rewrite bind_ret_run, bind_assoc_run, bind_set_self_run.
  change (local (TotNsubhalos h)) with (ret subhalos).
  rewrite bind_assoc_run, bind_ret_run, bind_set_self_run.
  rewrite (bool_decide_eq_false_2 (Nfiles h ≠ Z.of_nat 1)) by (cbn; lia). cbn [when].
  rewrite bind_ret_run.
  rewrite (bind_attr_run self_id_format _ _ _ _ (id_dtype o)) by exact Hidf.
  rewrite (bool_decide_eq_true_2 (Ngroups h > 0)) by (cbn; lia). cbn [when].
  rewrite decide_False by done.
  set (c1 := set_TotNsubhalos subhalos (set_TotNids ids (set_TotNgroups (TotNgroups h) c))).
  assert (Htot : ∀ p, total_of p c1 = Some (Z.of_nat (count_of p h))).
  { intros []; cbn; f_equal; rewrite Z2Nat.id; lia. }
  rewrite bind_run, (allocate_all h _ c1 _ msgs Htot).
  set (c2 := allocated_for h c1 (allocated (id_dtype o) o 1)).
  destruct (assigned_scalars (λ fld, replicate (count_of (field_per fld) h) None)
              (allocated (id_dtype o) o 1) c1) as (Hsw2 & HG2 & HS2 & _).
  fold (allocated_for h) in Hsw2, HG2, HS2. fold c2 in Hsw2, HG2, HS2.
  rewrite <- (length_write_header sw h).
  rewrite bind_run.
  unfold blocks at 1. rewrite (read_blocks_written numpy2 sw values h _ c2 _ rest msgs).
  - fold blocks. rewrite bind_run. unfold not_at_end. cbn [file pos content].
    destruct (decide (rest = [])) as [->|Hrest].
    + rewrite bool_decide_eq_false_2 by (rewrite !length_app; cbn; lia).
      cbn [when]. rewrite bind_ret_run. unfold ret, loaded.
      rewrite !app_nil_r, !length_app. reflexivity.
    + rewrite bool_decide_eq_true_2.
      2:{ rewrite !length_app. destruct rest; [done|]. cbn [length]. lia. }
      cbn [when]. rewrite bind_run. unfold print. cbn [self file out].
      unfold ret, loaded. rewrite !length_app. reflexivity.
  - by rewrite Hsw2.
  - intros p. rewrite <- (Htot p). by destruct p.
  - cbn; lia.
  - cbn; lia.
  - apply extended_body_distinct.
  - intros fld Hin.
    pose proof (extended_body_allocated o) as Hall.
    rewrite Forall_forall in Hall. destruct (Hall fld Hin) as [Halloc Hwidth].
    split; [done|]. eexists. split.
    + apply (assigned_arrays _ _ c1 fld (allocated_distinct o) Halloc).
    + cbn. apply length_replicate.
Qed.

(** A complete catalog of one segment, followed by whatever bytes: the
    object the constructor returns and what it prints. *)
Lemma one_segment_read Snapshot_Init has_long numpy2 sw o values (groups subhalos ids : Z)
    (rest : list Z) :
  0 < groups < 2 ^ 31 → 0 ≤ subhalos < 2 ^ 32 → 0 ≤ ids < 2 ^ 31 →
  let h := complete_header groups subhalos ids in
  new_catalog Snapshot_Init has_long numpy2
    (one_file_fs (write_segment sw 1 (id_dtype o) o values h 0 0 ++ rest)) o "out/" (SnapInt 5)
  = (if decide (rest = []) then [] else [MsgNotFinished 0],
     Ok (loaded o values h (entering_loop sw o))).
Proof.
  intros HG HS HI h.
  pose proof (one_file_init Snapshot_Init has_long numpy2 sw o h
                (stored_blocks sw values h (extended_body (id_dtype o) o) ++ rest) eq_refl)
    as Hinit.
  rewrite app_assoc, <- write_segment_blocks in Hinit. rewrite Hinit.
  rewrite (read_tab_segment_written _ _ sw o values (entering_loop sw o) _ [] _
             groups subhalos ids rest); [done| |done|done|done|done|done].
  apply (lookup_singleton_eq (M:=gmap string)).
Qed.

(** The first steps of the turn on the only file of a G3 catalog: the
    header is unpacked and the totals are taken from it. *)
Lemma read_tab_segment_header numpy2 (fs : filesystem) sw o c f msgs fname rest
    (ngroups totngroups nids totnids nsubhalos totnsubhalos : Z) :
  let h := Header ngroups totngroups nids (Some totnids) 1 nsubhalos (Some totnsubhalos) in
  fs !! (fname +:+ "." +:+ fmt_d 0) = Some (write_header sw 1 h ++ rest) →
  self_swap c = Some sw →
  self_id_format c = Some (id_dtype o) →
  - 2 ^ 31 ≤ ngroups < 2 ^ 31 → - 2 ^ 31 ≤ totngroups < 2 ^ 31 →
  - 2 ^ 31 ≤ nids < 2 ^ 31 → 0 ≤ totnids < 2 ^ 64 →
  0 ≤ nsubhalos < 2 ^ 32 → 0 ≤ totnsubhalos < 2 ^ 32 →
  read_tab_segment numpy2 fs o fname 1 1 0 (0, 0) (State c f msgs)
  = (for_each allocate (allocated (id_dtype o) o 1);;
     when (bool_decide (ngroups > 0))
       (for_each (read_block numpy2 1 0 0 h) (extended_body (id_dtype o) o));;
     unfinished ← not_at_end;
     when unfinished (print (MsgNotFinished 0));;
     ret (add_subhalos numpy2 1 0 nsubhalos, add_int32 numpy2 0 ngroups))
      (State (set_TotNsubhalos totnsubhalos
                (set_TotNids totnids (set_TotNgroups totngroups c)))
         (Handle (write_header sw 1 h ++ rest) 32) msgs).
Proof.
  intros h Hfile Hsw Hidf H1 H2 H3 H4 H5 H6. unfold read_tab_segment.
  rewrite bind_run, (open_file_run _ _ _ _ Hfile). cbn [self out].
  rewrite bind_run.
  pose proof (read_header_written sw c rest msgs ngroups totngroups nids totnids 1
                nsubhalos totnsubhalos Hsw) as Hhead.
  cbn zeta in Hhead. fold h in Hhead. rewrite Hhead by lia. clear Hhead.
  rewrite (bool_decide_eq_false_2 (1 = 0)) by done. cbn [when]. rewrite bind_ret_run.
  rewrite (bool_decide_eq_true_2 (0%nat = 0%nat)) by done. cbn [when].
  rewrite (bool_decide_eq_true_2 (1 = 1)) by done. cbn [when].
  rewrite bind_assoc_run, bind_set_self_run.
  rewrite bind_assoc_run.
  change (local (TotNids h)) with (ret totnids).
  rewrite bind_ret_run, bind_assoc_run, bind_set_self_run.
  change (local (TotNsubhalos h)) with (ret totnsubhalos).
  rewrite bind_assoc_run, bind_ret_run, bind_set_self_run.
  rewrite (bool_decide_eq_false_2 (Nfiles h ≠ Z.of_nat 1)) by (cbn; lia). cbn [when].
  rewrite bind_ret_run.
  rewrite (bind_attr_run self_id_format _ _ _ _ (id_dtype o)) by exact Hidf.
  rewrite decide_False by done. reflexivity.
Qed.

(** X11.  A header that announces a negative total of groups stops the
    constructor at its first allocation: [np.empty] refuses the negative
    length with [ValueError]. *)
Theorem negative_total_is_refused Snapshot_Init has_long numpy2 sw o (rest : list Z)
    (ngroups totngroups nids totnids nsubhalos totnsubhalos : Z) :
  - 2 ^ 31 ≤ ngroups < 2 ^ 31 → - 2 ^ 31 ≤ totngroups < 0 →
  - 2 ^ 31 ≤ nids < 2 ^ 31 → 0 ≤ totnids < 2 ^ 64 →
  0 ≤ nsubhalos < 2 ^ 32 → 0 ≤ totnsubhalos < 2 ^ 32 →
  new_catalog Snapshot_Init has_long numpy2
    (one_file_fs
       (write_header sw 1
          (Header ngroups totngroups nids (Some totnids) 1 nsubhalos (Some totnsubhalos))
        ++ rest))
    o "out/" (SnapInt 5)
  = ([], Raise ValueError).
Proof.
  intros H1 H2 H3 H4 H5 H6.
  set (h := Header ngroups totngroups nids (Some totnids) 1 nsubhalos (Some totnsubhalos)).
  rewrite (one_file_init Snapshot_Init has_long numpy2 sw o h rest eq_refl).
  rewrite (read_tab_segment_header _ _ sw o (entering_loop sw o) _ [] _ rest
             ngroups totngroups nids totnids nsubhalos totnsubhalos);
    [|apply (lookup_singleton_eq (M:=gmap string))|done|done|lia|lia|lia|lia|lia|lia].
  rewrite bind_run. unfold allocated. cbn [app for_each].
  rewrite bind_run. unfold allocate at 1. cbn [field_per total_of].
  rewrite (bind_attr_run self_TotNgroups _ _ _ _ totngroups) by reflexivity.
  rewrite bind_run. unfold lift, np_empty. rewrite decide_True by lia. reflexivity.
Qed.

Lemma negative_total_is_refused_witness :
  new_catalog no_snapshot true false
    (one_file_fs
       (write_header false 1 (Header 3 (-1) 25 (Some 40) 1 5 (Some 8)) ++ [7; 7]))
    default_options "out/" (SnapInt 5)
  = ([], Raise ValueError).
Proof.
  apply (negative_total_is_refused no_snapshot true false false default_options [7; 7]
           3 (-1) 25 40 5 8); lia.
Defined.

(** X10.  A segment whose header announces no group is not read past
    its header, whatever follows: the arrays are allocated with the
    totals of the header and left as [np.empty] made them, those of the
    subhalos included, and the constructor only warns that the file is
    not finished when bytes follow the header. *)
Theorem segment_without_groups_is_skipped Snapshot_Init has_long numpy2 sw o (rest : list Z)
    (ngroups totngroups nids totnids nsubhalos totnsubhalos : Z) :
  - 2 ^ 31 ≤ ngroups ≤ 0 → 0 ≤ totngroups < 2 ^ 31 →
  - 2 ^ 31 ≤ nids < 2 ^ 31 → 0 ≤ totnids < 2 ^ 64 →
  0 ≤ nsubhalos < 2 ^ 32 → 0 ≤ totnsubhalos < 2 ^ 32 →
  ∃ c,
    new_catalog Snapshot_Init has_long numpy2
      (one_file_fs
         (write_header sw 1
            (Header ngroups totngroups nids (Some totnids) 1 nsubhalos (Some totnsubhalos))
          ++ rest))
      o "out/" (SnapInt 5)
    = (if decide (rest = []) then [] else [MsgNotFinished 0], Ok c)
    ∧ self_TotNgroups c = Some totngroups
    ∧ self_TotNsubhalos c = Some totnsubhalos
    ∧ ∀ fld, fld ∈ allocated (id_dtype o) o 1 →
        self_arrays c !! field_name fld
        = Some (replicate (Z.to_nat (match field_per fld with
                                     | PerGroup => totngroups
                                     | PerSub => totnsubhalos
                                     end)) None).
Proof.
  intros H1 H2 H3 H4 H5 H6.
  set (h := Header ngroups totngroups nids (Some totnids) 1 nsubhalos (Some totnsubhalos)).
  rewrite (one_file_init Snapshot_Init has_long numpy2 sw o h rest eq_refl).
  rewrite (read_tab_segment_header _ _ sw o (entering_loop sw o) _ [] _ rest
             ngroups totngroups nids totnids nsubhalos totnsubhalos);
    [|apply (lookup_singleton_eq (M:=gmap string))|done|done|lia|lia|lia|lia|lia|lia].
  set (c1 := set_TotNsubhalos _ _).
  set (h' := complete_header totngroups totnsubhalos 0).
  assert (Htot : ∀ p, total_of p c1 = Some (Z.of_nat (count_of p h'))).
  { intros []; cbn; f_equal; rewrite Z2Nat.id; lia. }
  rewrite bind_run, (allocate_all h' _ c1 _ [] Htot).
  rewrite (bool_decide_eq_false_2 (ngroups > 0)) by lia. cbn [when].
  rewrite bind_ret_run, bind_run. unfold not_at_end. cbn [file pos content].
  rewrite length_app, length_write_header.
  destruct (assigned_scalars (λ fld, replicate (count_of (field_per fld) h') None)
              (allocated (id_dtype o) o 1) c1) as (_ & HG2 & HS2 & _).
  exists (allocated_for h' c1 (allocated (id_dtype o) o 1)).
  split; [|split; [exact HG2|split; [exact HS2|]]].
  - destruct (decide (rest = [])) as [->|Hrest].
    + rewrite bool_decide_eq_false_2 by (cbn; lia). reflexivity.
    + rewrite bool_decide_eq_true_2 by (destruct rest; [done|cbn; lia]). reflexivity.
  - intros fld Hin. unfold allocated_for.
    rewrite (assigned_arrays _ _ c1 fld (allocated_distinct o) Hin).
    by destruct (field_per fld).
Qed.

Lemma segment_without_groups_is_skipped_witness :
  ∃ c,
    new_catalog no_snapshot true false
      (one_file_fs (write_header true 1 (Header 0 5 0 (Some 40) 1 8 (Some 8)) ++ [7; 7]))
      default_options "out/" (SnapInt 5)
    = (if decide ([7; 7] = []) then [] else [MsgNotFinished 0], Ok c)
    ∧ self_TotNgroups c = Some 5
    ∧ self_TotNsubhalos c = Some 8
    ∧ ∀ fld, fld ∈ allocated (id_dtype default_options) default_options 1 →
        self_arrays c !! field_name fld
        = Some (replicate (Z.to_nat (match field_per fld with
                                     | PerGroup => 5
                                     | PerSub => 8
                                     end)) None).
Proof.
  apply (segment_without_groups_is_skipped no_snapshot true false true default_options [7; 7]
           0 5 0 40 8 8); lia.
Defined.

(** What the object holds once a complete segment is loaded. *)
Lemma loaded_content o values h c :
  self_swap (loaded o values h c) = self_swap c
  ∧ self_TotNgroups (loaded o values h c) = Some (Ngroups h)
  ∧ self_TotNsubhalos (loaded o values h c) = Some (Nsubhalos h)
  ∧ self_TotNids (loaded o values h c) = Some (default 0 (TotNids h))
  ∧ ∀ fld, fld ∈ extended_body (id_dtype o) o →
           self_arrays (loaded o values h c) !! field_name fld
           = Some (expected_array values (field_dtype fld) (field_name fld)
                     (count_of (field_per fld) h)).
Proof.
  unfold loaded.
  set (c1 := set_TotNsubhalos _ _).
  destruct (assigned_scalars
              (λ fld, expected_array values (field_dtype fld) (field_name fld)
                        (count_of (field_per fld) h))
              (extended_body (id_dtype o) o)
              (allocated_for h c1 (allocated (id_dtype o) o 1)))
    as (E1 & E2 & E3 & E4 & _).
  destruct (assigned_scalars (λ fld, replicate (count_of (field_per fld) h) None)
              (allocated (id_dtype o) o 1) c1)
    as (F1 & F2 & F3 & F4 & _).
  unfold filled, allocated_for in *.
  rewrite E1, E2, E3, E4, F1, F2, F3, F4.
  repeat split; try reflexivity.
  intros fld Hin. by apply assigned_arrays; [apply extended_body_distinct|].
Qed.

(** X7.  A catalog that is complete in one segment is read block for
    block, whatever its byte order, its optional fields and the width of
    its identifiers: the constructor prints nothing, the totals are those
    of the header, and every array holds the items that were written, in
    the byte order of the reader. *)
Theorem one_segment_round_trip Snapshot_Init has_long numpy2 sw o values (groups subhalos ids : Z) :
  0 < groups < 2 ^ 31 → 0 ≤ subhalos < 2 ^ 32 → 0 ≤ ids < 2 ^ 31 →
  returns
    (new_catalog Snapshot_Init has_long numpy2
       (one_segment_fs sw o values (complete_header groups subhalos ids)) o "out/"
       (SnapInt 5))
    (λ c, self_swap c = Some sw
          ∧ self_TotNgroups c = Some groups
          ∧ self_TotNsubhalos c = Some subhalos
          ∧ self_TotNids c = Some ids
          ∧ ∀ fld, fld ∈ extended_body (id_dtype o) o →
                   self_arrays c !! field_name fld
                   = Some (expected_array values (field_dtype fld) (field_name fld)
                             (count_of (field_per fld)
                                (complete_header groups subhalos ids)))).
Proof.
  intros HG HS HI.
  pose proof (one_segment_read Snapshot_Init has_long numpy2 sw o values groups subhalos ids []
                HG HS HI) as Hread.
  cbn zeta in Hread. rewrite app_nil_r in Hread.
  change (one_file_fs _) with (one_segment_fs sw o values (complete_header groups subhalos ids))
    in Hread.
  rewrite Hread. cbn [returns]. apply loaded_content.
Qed.

(** X8.  The endianness symmetry on G3 catalogs of one segment: the
    byte-swapped copy is read into the same totals and the same arrays
    as the original; the two objects differ by their [swap] flag. *)
Theorem one_segment_swapped_copy_agrees Snapshot_Init has_long numpy2 o values
    (groups subhalos ids : Z) :
  0 < groups < 2 ^ 31 → 0 ≤ subhalos < 2 ^ 32 → 0 ≤ ids < 2 ^ 31 →
  returns
    (new_catalog Snapshot_Init has_long numpy2
       (one_segment_fs false o values (complete_header groups subhalos ids)) o "out/"
       (SnapInt 5))
    (λ c, returns
            (new_catalog Snapshot_Init has_long numpy2
               (one_segment_fs true o values (complete_header groups subhalos ids)) o
               "out/" (SnapInt 5))
            (λ c', self_swap c = Some false ∧ self_swap c' = Some true
                   ∧ self_TotNgroups c' = self_TotNgroups c
                   ∧ self_TotNsubhalos c' = self_TotNsubhalos c
                   ∧ self_TotNids c' = self_TotNids c
                   ∧ ∀ fld, fld ∈ extended_body (id_dtype o) o →
                            self_arrays c' !! field_name fld
                            = self_arrays c !! field_name fld)).
Proof.
  intros HG HS HI.
  pose proof (one_segment_read Snapshot_Init has_long numpy2 false o values groups subhalos ids []
                HG HS HI) as Hnative.
  pose proof (one_segment_read Snapshot_Init has_long numpy2 true o values groups subhalos ids []
                HG HS HI) as Hswapped.
  cbn zeta in Hnative, Hswapped. rewrite app_nil_r in Hnative, Hswapped.
  change (one_file_fs _)
    with (one_segment_fs false o values (complete_header groups subhalos ids)) in Hnative.
  change (one_file_fs _)
    with (one_segment_fs true o values (complete_header groups subhalos ids)) in Hswapped.
  rewrite Hnative, Hswapped. cbn [returns].
  set (h := complete_header groups subhalos ids).
  destruct (loaded_content o values h (entering_loop false o)) as (A1 & A2 & A3 & A4 & A5).
  destruct (loaded_content o values h (entering_loop true o)) as (B1 & B2 & B3 & B4 & B5).
  split; [exact A1|]. split; [exact B1|]. split; [congruence|].
  split; [congruence|]. split; [congruence|].
  intros fld Hin. by rewrite A5, B5.
Qed.

(** X9.  Bytes that follow the last block of a segment do not change
    what is read: the constructor returns the same object as without
    them, and prints that the file is not finished. *)
Theorem trailing_bytes_are_reported Snapshot_Init has_long numpy2 sw o values
    (groups subhalos ids : Z) (rest : list Z) :
  0 < groups < 2 ^ 31 → 0 ≤ subhalos < 2 ^ 32 → 0 ≤ ids < 2 ^ 31 →
  rest ≠ [] →
  ∃ c,
    new_catalog Snapshot_Init has_long numpy2
      (one_segment_fs sw o values (complete_header groups subhalos ids)) o "out/" (SnapInt 5)
    = ([], Ok c)
    ∧ new_catalog Snapshot_Init has_long numpy2
        (one_file_fs
           (write_segment sw 1 (id_dtype o) o values (complete_header groups subhalos ids) 0 0
            ++ rest))
        o "out/" (SnapInt 5)
      = ([MsgNotFinished 0], Ok c).
Proof.
  intros HG HS HI Hrest.
  pose proof (one_segment_read Snapshot_Init has_long numpy2 sw o values groups subhalos ids []
                HG HS HI) as Hplain.
  pose proof (one_segment_read Snapshot_Init has_long numpy2 sw o values groups subhalos ids rest
                HG HS HI) as Hpadded.
  cbn zeta in Hplain, Hpadded. rewrite app_nil_r in Hplain.
  rewrite decide_False in Hpadded by done.
  eexists. split; [exact Hplain|exact Hpadded].
Qed.

Lemma trailing_bytes_are_reported_witness :
  ∃ c,
    new_catalog no_snapshot true false
      (one_segment_fs true default_options sample_values (complete_header 5 8 40))
      default_options "out/" (SnapInt 5)
    = ([], Ok c)
    ∧ new_catalog no_snapshot true false
        (one_file_fs
           (write_segment true 1 (id_dtype default_options) default_options sample_values
              (complete_header 5 8 40) 0 0
            ++ [0]))
        default_options "out/" (SnapInt 5)
      = ([MsgNotFinished 0], Ok c).
Proof.
  apply (trailing_bytes_are_reported no_snapshot true false true default_options sample_values
           5 8 40 [0]); (lia || discriminate).
Defined.

(** ** The constructor before its loop *)

(** The constructor up to its loop, on a format that it reads. *)
Lemma catalog_init_enters Snapshot_Init has_long numpy2 (fs : filesystem) o basedir snapnum
    msgs nfiles myformat swap :
  guess_format Snapshot_Init fs basedir snapnum
  = (msgs, Ok (Some (nfiles, myformat, swap))) →
  myformat ≠ 2 →
  new_catalog Snapshot_Init has_long numpy2 fs o basedir snapnum
  = let c0 := Catalog (Some (snap_string snapnum)) (Some basedir) (Some swap) (Some nfiles)
                (Some myformat) (Some (long_IDs o)) (Some (id_dtype o)) None None None ∅ in
    if bool_decide (myformat = 0) && negb has_long then (msgs, Raise NameError)
    else
      match read_tab_files numpy2 fs o (tab_path basedir (snap_string snapnum) myformat) nfiles
              myformat (nfiles - 1) 0 (0, 0)
              (State (if bool_decide (myformat = 0)
                      then set_TotNsubhalos 0 (set_TotNids 0 c0) else c0)
                 (Handle [] 0) msgs) with
      | (Ok _, st) => (out st, Ok (self st))
      | (Raise e, st) => (out st, Raise e)
      end.
Proof.
  intros Hg Hk. unfold new_catalog, catalog_init. rewrite bind_run.
  change (guess_format Snapshot_Init fs basedir (SnapStr (snap_string snapnum)))
    with (guess_format Snapshot_Init fs basedir snapnum).
  rewrite Hg. cbn [app self file out]. rewrite decide_False by done.
  rewrite !bind_set_self_run. fold (id_dtype o).
  fold (tab_path basedir (snap_string snapnum) myformat).
  cbn zeta. case_bool_decide as Hfmt; cbn [when andb].
  - destruct has_long; cbn [negb].
    + unfold mbind, M_bind, bind, set_self, ret. cbn [self file out].
      destruct (read_tab_files _ _ _ _ _ _ _ _ _) as [[r|e] st]; reflexivity.
    + reflexivity.
  - unfold mbind, M_bind, bind, ret.
    destruct (read_tab_files _ _ _ _ _ _ _ _ _) as [[r|e] st]; reflexivity.
Qed.

(** X5.  The old format is read with [long(0)] as the first total of
    identifiers.  Where the interpreter has no builtin [long], every
    catalog that [guess_format] recognises as written in the old format
    makes the constructor raise [NameError], before it opens a file. *)
Theorem legacy_needs_long Snapshot_Init numpy2 (fs : filesystem) (o : options)
    (basedir : string) (snapnum : snap_arg) (msgs : list message) (nfiles : nat)
    (swap : bool) :
  guess_format Snapshot_Init fs basedir snapnum = (msgs, Ok (Some (nfiles, 0, swap))) →
  new_catalog Snapshot_Init false numpy2 fs o basedir snapnum = (msgs, Raise NameError).
Proof.
  intros Hg. by rewrite (catalog_init_enters _ _ _ _ _ _ _ _ _ _ _ Hg).
Qed.

Lemma legacy_needs_long_witness :
  new_catalog no_snapshot false false (legacy_fs true) default_options "" (SnapInt 5)
  = ([], Raise NameError).
Proof.
  apply (legacy_needs_long no_snapshot false (legacy_fs true) default_options "" (SnapInt 5)
           [] 1 true).
  vm_compute. reflexivity.
Defined.

(** X6.  [guess_format] completes the base directory with a slash for
    itself only: the constructor builds its own paths from the directory
    as it was passed.  When the file it then looks for does not exist (a
    directory given without its final slash), the catalog that was just
    recognised cannot be opened and the constructor raises the error of
    [open]. *)
Theorem constructor_opens_its_own_path Snapshot_Init has_long numpy2 (fs : filesystem)
    (o : options) (basedir : string) (snapnum : snap_arg) (msgs : list message)
    (nfiles : nat) (myformat : Z) (swap : bool) :
  guess_format Snapshot_Init fs basedir snapnum
  = (msgs, Ok (Some (nfiles, myformat, swap))) →
  myformat = 1 ∨ (myformat = 0 ∧ has_long = true) →
  fs !! (tab_path basedir (snap_string snapnum) myformat +:+ ".0") = None →
  new_catalog Snapshot_Init has_long numpy2 fs o basedir snapnum = (msgs, Raise IOError).
Proof.
  intros Hg Hk Hfile.
  rewrite (catalog_init_enters _ has_long _ _ o _ _ _ _ _ _ Hg)
    by (destruct Hk as [->|[-> _]]; done).
  cbn zeta.
  assert (Hlong : bool_decide (myformat = 0) && negb has_long = false).
  { destruct Hk as [->|[-> ->]]; [done|]. by rewrite andb_false_r. }
  rewrite Hlong.
  assert (Hturn : ∀ more st,
            read_tab_files numpy2 fs o (tab_path basedir (snap_string snapnum) myformat) nfiles
              myformat more 0 (0, 0) st = (Raise IOError, st)).
  { intros more st. destruct more; cbn [read_tab_files]; rewrite bind_run;
      unfold read_tab_segment; rewrite bind_run; unfold open_file, open_rb;
      change (?p +:+ "." +:+ fmt_d 0) with (p +:+ ".0"); by rewrite Hfile. }
  by rewrite Hturn.
Qed.

Lemma constructor_opens_its_own_path_witness :
  new_catalog no_snapshot true false (single_fs false) default_options "out" (SnapInt 5)
  = ([], Raise IOError).
Proof.
  apply (constructor_opens_its_own_path no_snapshot true false (single_fs false) default_options
           "out" (SnapInt 5) [] 1 1 false).
  - vm_compute. reflexivity.
  - left. reflexivity.
  - vm_compute. reflexivity.
Defined.

(** ** [read_IDs] on any object *)

(** No turn of the loop of [read_IDs] comes to its end, and none
    touches the object or prints. *)
Lemma read_ids_segment_stops (fs : filesystem) fname fnb skip (st : state) :
  ∃ e st', read_ids_segment fs fname fnb skip st = (Raise e, st')
           ∧ self st' = self st ∧ out st' = out st.
Proof.
  unfold read_ids_segment. rewrite bind_run.
  destruct fname as [name|]; cbn [local ret raise]; [|by eauto].
  rewrite bind_run. unfold open_file at 1.
  destruct (open_rb fs (name +:+ fmt_d fnb)) as [f|e]; [|by eauto].
  rewrite bind_run. unfold attr at 1. cbn [self].
  destruct (self_myformat (self st)) as [myformat|]; [|by eauto].
  rewrite bind_run.
  destruct (read_ids_header_raises myformat (State (self st) f (out st)))
    as (st' & -> & Hself & Hout).
  by eauto.
Qed.

Lemma read_ids_files_stops (fs : filesystem) fname turns fnb skip (st : state) :
  ∃ e st', read_ids_files fs fname turns fnb skip st = (Raise e, st')
           ∧ self st' = self st ∧ out st' = out st.
Proof.
  destruct (read_ids_segment_stops fs fname fnb skip st) as (e & st' & Hseg & Hself & Hout).
  exists e, st'. split; [|done].
  destruct turns; cbn [read_ids_files]; by rewrite bind_run, Hseg.
Qed.

Lemma read_IDs_stops (fs : filesystem) (st : state) :
  ∃ e st', read_IDs fs st = (Raise e, st') ∧ self st' = self st ∧ out st' = out st.
Proof.
  unfold read_IDs. rewrite bind_run. unfold attr at 1.
  destruct (self_myformat (self st)) as [myformat|]; [|by eauto].
  rewrite bind_run.
  assert (Hname : ∀ (b : string → string → string),
            ∃ r, (b0 ← attr self_basedir; s0 ← attr self_snapnum; ret (Some (b b0 s0))) st
                 = (r, st)).
  { intros b. rewrite bind_run. unfold attr at 1.
    destruct (self_basedir (self st)); [|by eauto].
    rewrite bind_run. unfold attr at 1.
    destruct (self_snapnum (self st)); by eauto. }
  destruct (decide (myformat = 0)) as [Hm0|Hm0]; [|destruct (decide (myformat = 1)) as [Hm1|Hm1]].
  - destruct (Hname (λ b s, b +:+ "postproc_" +:+ s +:+ "/sub_ids_" +:+ s +:+ "."))
      as [[fname|e] ->]; [apply read_ids_files_stops|by eauto].
  - destruct (Hname (λ b s, b +:+ "groups_" +:+ s +:+ "/subhalo_ids_" +:+ s +:+ "."))
      as [[fname|e] ->]; [apply read_ids_files_stops|by eauto].
  - cbn [ret]. apply read_ids_files_stops.
Qed.

Lemma read_IDs_unbound (fs : filesystem) (c : catalog) (myformat : Z) :
  self_myformat c = Some myformat → myformat ≠ 0 → myformat ≠ 1 →
  call_read_IDs fs c = ([], Raise UnboundLocalError).
Proof.
  intros Hfmt H0 H1. unfold call_read_IDs, read_IDs.
  rewrite bind_run, (attr_run _ _ _ _ _ Hfmt).
  rewrite !decide_False by done. rewrite bind_ret_run.
  by destruct (size fs).
Qed.

Lemma read_IDs_missing_file (fs : filesystem) (c : catalog) (myformat : Z) (b s : string) :
  self_myformat c = Some myformat →
  myformat = 0 ∨ myformat = 1 →
  self_basedir c = Some b →
  self_snapnum c = Some s →
  fs !! (ids_prefix b s myformat +:+ fmt_d 0) = None →
  call_read_IDs fs c = ([], Raise IOError).
Proof.
  intros Hfmt Hcase Hb Hs Hfile. unfold call_read_IDs, read_IDs.
  rewrite bind_run, (attr_run _ _ _ _ _ Hfmt). rewrite bind_run.
  assert (Hname : (if decide (myformat = 0)
               then b0 ← attr self_basedir; s0 ← attr self_snapnum;
                    ret (Some (b0 +:+ "postproc_" +:+ s0 +:+ "/sub_ids_" +:+ s0 +:+ "."))
               else if decide (myformat = 1)
               then b0 ← attr self_basedir; s0 ← attr self_snapnum;
                    ret (Some (b0 +:+ "groups_" +:+ s0 +:+ "/subhalo_ids_" +:+ s0 +:+ "."))
               else ret None) (State c (Handle [] 0) [])
              = (Ok (Some (ids_prefix b s myformat)), State c (Handle [] 0) [])).
  { unfold ids_prefix. destruct Hcase as [-> | ->].
    - rewrite !decide_True by done.
      rewrite bind_run, (attr_run _ _ _ _ _ Hb), bind_run, (attr_run _ _ _ _ _ Hs).
      reflexivity.
    - rewrite !decide_False by done. rewrite decide_True by done.
      rewrite bind_run, (attr_run _ _ _ _ _ Hb), bind_run, (attr_run _ _ _ _ _ Hs).
      reflexivity. }
  rewrite Hname.
  destruct (size fs); cbn [read_ids_files]; rewrite bind_run; unfold read_ids_segment;
    rewrite bind_run; cbn [local ret]; rewrite bind_run; unfold open_file, open_rb;
    by rewrite Hfile.
Qed.

(** X15.  [read_IDs] never returns, whatever the object and the files:
    it raises, leaves every attribute of the object as it was (no
    [GroupIDs]) and prints nothing.  On an object of the old or of the
    G3 format the exception is that of [open] when the first ID file is
    missing, and [TypeError] from the call of [myswap] with one argument
    when it exists; on any other format no file name is ever bound
    ([UnboundLocalError]). *)
Theorem read_IDs_never_returns (fs : filesystem) (c : catalog) :
  (∃ e st', read_IDs fs (State c (Handle [] 0) []) = (Raise e, st')
            ∧ self st' = c ∧ out st' = []
            ∧ call_read_IDs fs c = ([], Raise e))
  ∧ (∀ myformat b s,
       self_myformat c = Some myformat → myformat = 0 ∨ myformat = 1 →
       self_basedir c = Some b → self_snapnum c = Some s →
       call_read_IDs fs c
       = ([], Raise (if path_exists fs (ids_prefix b s myformat +:+ fmt_d 0)
                     then TypeError else IOError)))
  ∧ (∀ myformat,
       self_myformat c = Some myformat → myformat ≠ 0 → myformat ≠ 1 →
       call_read_IDs fs c = ([], Raise UnboundLocalError)).
Proof.
  split; [|split].
  - destruct (read_IDs_stops fs (State c (Handle [] 0) [])) as (e & st' & Hrun & Hself & Hout).
    exists e, st'. cbn in Hself, Hout. repeat split; try done.
    unfold call_read_IDs. by rewrite Hrun, Hout.
  - intros myformat b s Hfmt Hcase Hb Hs.
    destruct (path_exists fs (ids_prefix b s myformat +:+ fmt_d 0)) eqn:Hex.
    + apply (read_IDs_always_raises fs c myformat b s Hfmt Hcase Hb Hs).
      unfold path_exists, ids_prefix in Hex. by apply bool_decide_eq_true in Hex.
    + apply (read_IDs_missing_file fs c myformat b s Hfmt Hcase Hb Hs).
      unfold path_exists in Hex. apply bool_decide_eq_false in Hex.
      by apply eq_None_not_Some.
  - intros myformat. apply read_IDs_unbound.
Qed.

(** X16.  The object of a catalog in the snapshot format, which the
    constructor returns early, cannot be used with [read_IDs]: the
    method binds the name of the ID files for the formats 0 and 1 only,
    and raises [UnboundLocalError] when it opens the first of them. *)
Theorem read_IDs_after_early_return Snapshot_Init has_long numpy2 (fs : filesystem) (o : options)
    (basedir : string) (snapnum : snap_arg) (msgs : list message) (nfiles : nat)
    (swap : bool) :
  guess_format Snapshot_Init fs basedir snapnum = (msgs, Ok (Some (nfiles, 2, swap))) →
  returns (new_catalog Snapshot_Init has_long numpy2 fs o basedir snapnum)
    (λ c, ∀ fs' : filesystem, call_read_IDs fs' c = ([], Raise UnboundLocalError)).
Proof.
  intros Hg. unfold new_catalog, catalog_init. rewrite bind_run.
  change (guess_format Snapshot_Init fs basedir (SnapStr (snap_string snapnum)))
    with (guess_format Snapshot_Init fs basedir snapnum).
  rewrite Hg. cbn [returns]. intros fs'.
  by apply (read_IDs_unbound fs' _ 2).
Qed.

Lemma read_IDs_after_early_return_witness :
  returns (new_catalog snapshot_found true false snapshot_fs default_options "" (SnapInt 5))
    (λ c, ∀ fs' : filesystem, call_read_IDs fs' c = ([], Raise UnboundLocalError)).
Proof.
  apply (read_IDs_after_early_return snapshot_found true false snapshot_fs default_options ""
           (SnapInt 5) [] 1 false).
  vm_compute. reflexivity.
Defined.

(** ** What the constructor leaves in the object *)

Create HintDb frame.

Lemma preserves_ret {A} P (a : A) : preserves P (ret a).
Proof. intros st HP. exact HP. Qed.
Lemma preserves_raise {A} P e : preserves P (raise (A:=A) e).
Proof. intros st HP. exact HP. Qed.
Lemma preserves_lift {A} P (r : result A) : preserves P (lift r).
Proof. intros st HP. exact HP. Qed.
Lemma preserves_local {A} P (v : option A) : preserves P (local v).
Proof. destruct v; intros st HP; exact HP. Qed.
Lemma preserves_attr {A} P (get : catalog → option A) : preserves P (attr get).
Proof. intros st HP. unfold attr. by destruct (get (self st)). Qed.
Lemma preserves_get_self P : preserves P get_self.
Proof. intros st HP. exact HP. Qed.
Lemma preserves_print P m : preserves P (print m).
Proof. intros st HP. exact HP. Qed.
Lemma preserves_not_at_end P : preserves P not_at_end.
Proof. intros st HP. exact HP. Qed.
Lemma preserves_np_fromfile P d count : preserves P (np_fromfile d count).
Proof. intros st HP. unfold np_fromfile. by destruct (fromfile _ _ _). Qed.
Lemma preserves_open_file P (fs : filesystem) p : preserves P (open_file fs p).
Proof. intros st HP. unfold open_file. by destruct (open_rb fs p). Qed.
Lemma preserves_bind {A B} P (m : M A) (k : A → M B) :
  preserves P m → (∀ a, preserves P (k a)) → preserves P (m ≫= k).
Proof.
  intros Hm Hk st HP. rewrite bind_run. specialize (Hm st HP).
  destruct (m st) as [[a|e] st1]; cbn [snd] in *; [|done].
  by apply Hk.
Qed.
Lemma preserves_set_self P (f : catalog → catalog) :
  (∀ c, P c → P (f c)) → preserves P (set_self f).
Proof. intros Hf st. apply Hf. Qed.
Lemma preserves_when P b (m : M unit) : preserves P m → preserves P (when b m).
Proof. destruct b; [done|]. intros _ st HP. exact HP. Qed.
Lemma preserves_for_each {A} P (body : A → M unit) l :
  (∀ a, preserves P (body a)) → preserves P (for_each body l).
Proof.
  intros Hb. induction l as [|x l IH]; cbn [for_each]; [intros st HP; exact HP|].
  apply preserves_bind; auto.
Qed.

#[local] Hint Resolve preserves_ret preserves_raise preserves_lift preserves_local
  preserves_attr preserves_get_self preserves_print preserves_not_at_end
  preserves_np_fromfile preserves_open_file : frame.

Ltac frame :=
  repeat first
    [ progress auto with frame
    | match goal with |- preserves _ (_ ≫= _) => apply preserves_bind; [|intros ?] end
    | match goal with |- preserves _ (when _ _) => apply preserves_when end
    | match goal with |- preserves _ (for_each _ _) => apply preserves_for_each; intros ? end
    | match goal with |- preserves _ (if ?b then _ else _) => destruct b end
    | match goal with |- preserves _ (match ?x with _ => _ end) => destruct x end ].

Lemma clamp_index_bounds i len : 0 ≤ len → 0 ≤ clamp_index i len ≤ len.
Proof. intros Hlen. unfold clamp_index. case_decide; lia. Qed.

(** A slice assignment never changes the length of the array. *)
Lemma assign_slice_length (a : ndarray) start stop rhs a' :
  assign_slice a start stop rhs = Ok a' → length a' = length a.
Proof.
  unfold assign_slice, slice_bounds.
  pose proof (clamp_index_bounds start (Z.of_nat (length a)) ltac:(lia)) as Hlo.
  pose proof (clamp_index_bounds stop (Z.of_nat (length a)) ltac:(lia)) as Hhi.
  set (lo := clamp_index start _) in *. set (hi := clamp_index stop _) in *.
  intros Hassign.
  assert (Hlen : ∀ (x : ndarray), length x = Z.to_nat (0 `max` (hi - lo)) →
            length (take (Z.to_nat lo) a ++ x
                    ++ drop (Z.to_nat lo + Z.to_nat (0 `max` (hi - lo))) a) = length a).
  { intros x Hx. rewrite !length_app, length_take, length_drop, Hx. lia. }
  case_decide as Hn.
  - injection Hassign as <-. apply Hlen. by rewrite length_fmap.
  - destruct rhs as [|r [|]]; [done| |done].
    injection Hassign as <-. apply Hlen. by rewrite length_replicate.
Qed.

Lemma read_block_preserves P numpy2 myformat skipG skipS h fld :
  block_stable P → preserves P (read_block numpy2 myformat skipG skipS h fld).
Proof.
  intros Hstable st HP. unfold read_block.
  rewrite bind_run. unfold attr at 1.
  destruct (total_of (field_per fld) (self st)) as [count|]; [|done].
  rewrite bind_run. unfold np_fromfile.
  destruct (fromfile (file st) (field_dtype fld) count) as [rows f'].
  rewrite bind_run. unfold attr. cbn [self].
  destruct (self_swap (self st)) as [sw|]; [|done].
  rewrite bind_run. cbn [get_self self].
  destruct (self_arrays (self st) !! field_name fld) as [a|] eqn:Harr; [|done].
  destruct (loc_of numpy2 myformat (field_per fld) skipG skipS h) as [start stop].
  rewrite bind_run. unfold lift.
  destruct (assign_slice a start stop (myswap rows sw)) as [a'|e] eqn:Hassign; [|done].
  cbn. apply (Hstable _ _ a a' Harr); [|done].
  by apply assign_slice_length in Hassign.
Qed.

Lemma read_header_preserves P myformat : preserves P (read_header myformat).
Proof. unfold read_header. frame. Qed.

(** A turn of the loop after the first one leaves alone what neither
    the blocks nor the running totals of the old format touch. *)
Lemma later_segment_preserves P numpy2 (fs : filesystem) o fname nfiles myformat fnb skip :
  block_stable P →
  (myformat = 0 → ∀ v c, P c → P (set_TotNids v c) ∧ P (set_TotNsubhalos v c)) →
  fnb ≠ 0%nat →
  preserves P (read_tab_segment numpy2 fs o fname nfiles myformat fnb skip).
Proof.
  intros Hblock Htot Hfnb. unfold read_tab_segment. destruct skip as [skipS skipG].
  rewrite !(bool_decide_eq_false_2 (fnb = 0%nat)) by done. cbn [when].
  apply preserves_bind; [auto with frame|intros _].
  apply preserves_bind; [apply read_header_preserves|intros h].
  apply preserves_bind.
  { case_bool_decide as Hfmt; cbn [when]; [|auto with frame].
    repeat (apply preserves_bind; [|intros ?]); auto with frame;
      apply preserves_set_self; intros c Hc; by apply (Htot Hfmt). }
  intros _. frame. by apply read_block_preserves.
Qed.

Lemma later_files_preserve P numpy2 (fs : filesystem) o fname nfiles myformat more fnb
    skip :
  block_stable P →
  (myformat = 0 → ∀ v c, P c → P (set_TotNids v c) ∧ P (set_TotNsubhalos v c)) →
  fnb ≠ 0%nat →
  preserves P (read_tab_files numpy2 fs o fname nfiles myformat more fnb skip).
Proof.
  intros Hblock Htot. revert fnb skip.
  induction more as [|more IH]; intros fnb skip Hfnb; cbn [read_tab_files].
  - apply preserves_bind; [by apply later_segment_preserves|]. intros ?. auto with frame.
  - apply preserves_bind; [by apply later_segment_preserves|]. intros ?. by apply IH.
Qed.

Lemma self_after {A} (m : M A) (st : state) r st' :
  (∀ P, preserves P m) → m st = (r, st') → self st' = self st.
Proof.
  intros Hm Hrun. specialize (Hm (λ c, c = self st) st eq_refl).
  by rewrite Hrun in Hm.
Qed.

Lemma shape_set_array (c : catalog) name (a a' : ndarray) :
  self_arrays c !! name = Some a → length a' = length a →
  shape (set_array name a' c) = shape c.
Proof.
  intros Harr Hlen. unfold shape. cbn [set_array self_arrays].
  rewrite fmap_insert. apply insert_id. by rewrite lookup_fmap, Harr, Hlen.
Qed.

(** The allocations, when they go through: the totals are not
    negative, and every array of the table is made of that many
    unwritten rows. *)
Lemma allocate_ok (G S : Z) fields : ∀ c f msgs st',
  self_TotNgroups c = Some G → self_TotNsubhalos c = Some S →
  for_each allocate fields (State c f msgs) = (Ok tt, st') →
  st' = State (assigned (λ fld, replicate (rows_of G S (field_per fld)) None) c fields) f msgs
  ∧ ∀ fld, fld ∈ fields → 0 ≤ match field_per fld with PerGroup => G | PerSub => S end.
Proof.
  induction fields as [|fld fields IH]; intros c f msgs st' HG HS Hrun.
  - cbn in Hrun. injection Hrun as <-. split; [done|]. intros fld Hin.
    by apply elem_of_nil in Hin.
  - cbn [for_each] in Hrun. apply bind_ok in Hrun as ([] & st1 & Halloc & Hrun).
    unfold allocate in Halloc.
    assert (Htot : total_of (field_per fld) c
                   = Some match field_per fld with PerGroup => G | PerSub => S end).
    { by destruct (field_per fld). }
    rewrite (bind_attr_run _ _ _ _ _ _ Htot) in Halloc.
    rewrite bind_run in Halloc. unfold lift, np_empty in Halloc.
    case_decide as Hneg; [done|].
    unfold set_self in Halloc. cbn [self file out] in Halloc. injection Halloc as <-.
    apply IH in Hrun as [-> Hpos]; [|done|done].
    split.
    + cbn [assigned foldl]. do 3 f_equal. by destruct (field_per fld).
    + intros fld' [->|Hin]%elem_of_cons; [lia|by apply Hpos].
Qed.

Lemma assigned_other g fields : ∀ (c : catalog) name,
  name ∉ field_name <$> fields →
  self_arrays (assigned g c fields) !! name = self_arrays c !! name.
Proof.
  induction fields as [|fld fields IH]; intros c name Hname; [done|].
  cbn [assigned foldl]. rewrite fmap_cons, not_elem_of_cons in Hname.
  destruct Hname as [Hne Hname]. fold (assigned g (set_array (field_name fld) (g fld) c) fields).
  rewrite (IH _ _ Hname). cbn [set_array self_arrays]. by rewrite lookup_insert_ne.
Qed.

Lemma assigned_arrays_ext g fields : ∀ c c' : catalog,
  self_arrays c = self_arrays c' →
  self_arrays (assigned g c fields) = self_arrays (assigned g c' fields).
Proof.
  induction fields as [|fld fields IH]; intros c c' Harr; [done|].
  cbn [assigned foldl]. apply IH. cbn [set_array self_arrays]. by rewrite Harr.
Qed.

Lemma assigned_settings g fields : ∀ c,
  settings (assigned g c fields) = settings c
  ∧ self_TotNgroups (assigned g c fields) = self_TotNgroups c
  ∧ self_TotNids (assigned g c fields) = self_TotNids c
  ∧ self_TotNsubhalos (assigned g c fields) = self_TotNsubhalos c.
Proof.
  induction fields as [|fld fields IH]; intros c; [done|].
  cbn [assigned foldl]. apply (IH (set_array _ _ c)).
Qed.

Lemma kept_block_stable myformat x G S sh : block_stable (kept myformat x G S sh).
Proof.
  intros c name a a' Harr Hlen (H1 & H2 & H3 & H4 & H5 & H6).
  repeat split; try done. by rewrite (shape_set_array c name a a').
Qed.

Lemma kept_running_totals myformat x G S sh :
  myformat = 0 → ∀ v c, kept myformat x G S sh c →
    kept myformat x G S sh (set_TotNids v c) ∧ kept myformat x G S sh (set_TotNsubhalos v c).
Proof.
  intros -> v c (H1 & H2 & H3 & H4 & H5 & H6).
  split; repeat split; try done; cbn; eauto.
Qed.

(** The first turn of the loop, when it goes through.  In the old
    format the arrays of the subhalos are as long as the running total
    is after the first header. *)
Lemma first_segment_ok numpy2 (fs : filesystem) o fname nfiles myformat skip c idf sw f msgs
    r st' :
  myformat = 0 ∨ myformat = 1 →
  self_id_format c = Some idf →
  self_swap c = Some sw →
  read_tab_segment numpy2 fs o fname nfiles myformat 0 skip (State c f msgs) = (Ok r, st') →
  ∃ G S h, 0 ≤ G ∧ 0 ≤ S
    ∧ kept myformat (settings c) G S
        (shape (assigned (λ fld, replicate (rows_of G S (field_per fld)) None) c
                  (allocated idf o myformat)))
        (self st')
    ∧ self_TotNsubhalos (self st') = Some S
    ∧ segment_header fs fname myformat sw 0 = Some h
    ∧ (myformat = 0 → ∀ S0, self_TotNsubhalos c = Some S0 →
                            S = add_int32 numpy2 S0 (Nsubhalos h)).
Proof.
  intros Hk Hidf Hsw Hrun. unfold read_tab_segment in Hrun. destruct skip as [skipS skipG].
  apply bind_ok in Hrun as ([] & st1 & Hopen & Hrun).
  apply bind_ok in Hrun as (h & st2 & Hhead & Hrun).
  assert (Hh : segment_header fs fname myformat sw 0 = Some h).
  { unfold segment_header, open_file, open_rb in *.
    destruct (fs !! (fname +:+ "." +:+ fmt_d 0)) as [bytes|]; [|done].
    injection Hopen as <-. cbn [mbind option_bind].
    rewrite <- (read_header_only_swap myformat c _ msgs sw Hsw).
    by rewrite Hhead. }
  apply bind_ok in Hrun as ([] & st3 & Hleg & Hrun).
  apply bind_ok in Hrun as ([] & st4 & Htot & Hrun).
  apply bind_ok in Hrun as ([] & st5 & Hwarn & Hrun).
  apply bind_ok in Hrun as (idf' & st6 & Hidf' & Hrun).
  apply bind_ok in Hrun as ([] & st7 & Halloc & Hrun).
  apply bind_ok in Hrun as ([] & st8 & Hblocks & Hrun).
  apply bind_ok in Hrun as (u & st9 & Hend & Hrun).
  apply bind_ok in Hrun as ([] & st10 & Hprint & Hrun).
  injection Hrun as <- <-.
  assert (H1 : self st1 = c).
  { apply (self_after _ _ _ _ (λ P, preserves_open_file P fs _)) in Hopen. done. }
  assert (H2 : self st2 = c).
  { apply (self_after _ _ _ _ (λ P, read_header_preserves P myformat)) in Hhead.
    by rewrite Hhead. }
  (* the totals *)
  assert (H4 : ∃ G S I, self st4
                 = set_TotNsubhalos S (set_TotNids I (set_TotNgroups G
                     (if decide (myformat = 0)
                      then set_TotNsubhalos S (set_TotNids I c) else c)))
                 ∧ (myformat = 0 → ∀ S0, self_TotNsubhalos c = Some S0 →
                                         S = add_int32 numpy2 S0 (Nsubhalos h))).
  { rewrite (bool_decide_eq_true_2 (0%nat = 0%nat)) in Htot by done. cbn [when] in Htot.
    destruct st2 as [c2 f2 m2]. cbn in H2. subst c2.
    destruct Hk as [-> | ->].
    - rewrite (bool_decide_eq_true_2 (0 = 0)) in Hleg by done. cbn [when] in Hleg.
      rewrite (bool_decide_eq_false_2 (0 = 1)) in Htot by done. cbn [when] in Htot.
      apply bind_ok in Hleg as (I0 & sa & Ha & Hleg).
      unfold attr in Ha. cbn [self] in Ha.
      destruct (self_TotNids c) as [I0'|] eqn:HI0; [|done]. injection Ha as <- <-.
      rewrite bind_set_self_run in Hleg.
      apply bind_ok in Hleg as (S0 & sb & Hb & Hleg).
      unfold attr in Hb. cbn [self set_TotNids self_TotNsubhalos] in Hb.
      destruct (self_TotNsubhalos c) as [S0'|] eqn:HS0; [|done]. injection Hb as <- <-.
      unfold set_self in Hleg. cbn [self file out] in Hleg. injection Hleg as <-.
      rewrite bind_set_self_run in Htot. cbn [ret] in Htot. injection Htot as <-.
      exists (TotNgroups h), (add_int32 numpy2 S0' (Nsubhalos h)),
             (add_int32 numpy2 I0' (Nids h)).
      rewrite decide_True by done. split; [reflexivity|].
      intros _ S0 HS0'. by injection HS0' as <-.
    - rewrite (bool_decide_eq_false_2 (1 = 0)) in Hleg by done. cbn [when ret] in Hleg.
      injection Hleg as <-.
      rewrite (bool_decide_eq_true_2 (1 = 1)) in Htot by done. cbn [when] in Htot.
      rewrite bind_set_self_run in Htot.
      apply bind_ok in Htot as (I & sa & Ha & Htot).
      destruct (TotNids h) as [I'|]; [|done]. cbn [local ret] in Ha. injection Ha as <- <-.
      rewrite bind_set_self_run in Htot.
      apply bind_ok in Htot as (S & sb & Hb & Htot).
      destruct (TotNsubhalos h) as [S'|]; [|done]. cbn [local ret] in Hb. injection Hb as <- <-.
      unfold set_self in Htot. cbn [self file out] in Htot. injection Htot as <-.
      exists (TotNgroups h), S', I'. rewrite decide_False by done. by split. }
  destruct H4 as (G & S & I & H4 & Hold).
  set (c4 := set_TotNsubhalos S _) in H4.
  assert (Hc4 : settings c4 = settings c ∧ self_TotNgroups c4 = Some G
                ∧ self_TotNids c4 = Some I ∧ self_TotNsubhalos c4 = Some S
                ∧ self_arrays c4 = self_arrays c).
  { unfold c4. by destruct (decide (myformat = 0)). }
  destruct Hc4 as (Hset4 & HG4 & HI4 & HS4 & Harr4).
  assert (H5 : self st5 = c4).
  { rewrite <- H4. refine (self_after _ _ _ _ _ Hwarn).
    intros P. apply preserves_when. auto with frame. }
  assert (H6 : idf' = idf ∧ st6 = st5).
  { unfold attr in Hidf'. rewrite H5 in Hidf'.
    assert (Hidf4 : self_id_format c4 = Some idf).
    { unfold c4. by destruct (decide (myformat = 0)). }
    rewrite Hidf4 in Hidf'. by injection Hidf' as <- <-. }
  destruct H6 as [-> ->].
  rewrite (bool_decide_eq_true_2 (0%nat = 0%nat)) in Halloc by done. cbn [when] in Halloc.
  destruct st5 as [c5 f5 m5]. cbn in H5. subst c5.
  apply (allocate_ok G S) in Halloc as [-> Hpos]; [|done|done].
  set (g := λ fld : field, replicate (rows_of G S (field_per fld)) None) in *.
  assert (HposG : 0 ≤ G).
  { apply (Hpos (Field "NsubPerHalo" np_int32 PerGroup)).
    unfold allocated. cbn [app]. left. }
  assert (HposS : 0 ≤ S).
  { apply (Hpos (Field "SubLen" np_int32 PerSub)).
    unfold allocated. cbn [app]. do 2 right. left. }
  destruct (assigned_settings g (allocated idf o myformat) c4) as (Hset7 & HG7 & HI7 & HS7).
  assert (Hshape7 : shape (assigned g c4 (allocated idf o myformat))
                    = shape (assigned g c (allocated idf o myformat))).
  { unfold shape. f_equal. by apply assigned_arrays_ext. }
  assert (H8 : kept myformat (settings c) G S
                 (shape (assigned g c (allocated idf o myformat))) (self st8)
               ∧ self_TotNsubhalos (self st8) = Some S).
  { assert (Hpres : preserves
                      (λ c', kept myformat (settings c) G S
                               (shape (assigned g c (allocated idf o myformat))) c'
                             ∧ self_TotNsubhalos c' = Some S)
                      (when (bool_decide (Ngroups h > 0))
                         (for_each (read_block numpy2 myformat skipG skipS h)
                            (if decide (myformat = 0) then legacy_body idf o
                             else extended_body idf o)))).
    { apply preserves_when, preserves_for_each. intros fld. apply read_block_preserves.
      intros c' name a a' Harr Hlen [Hkept HS']. split; [|done].
      by apply (kept_block_stable _ _ _ _ _ c' name a a'). }
    specialize (Hpres (State (assigned g c4 (allocated idf o myformat)) f5 m5)).
    rewrite Hblocks in Hpres. apply Hpres. cbn [self].
    rewrite HS7, HS4. split; [|done].
    repeat split; try congruence; rewrite ?HI7, ?HI4, ?HS7, ?HS4; eauto. }
  assert (H9 : self st9 = self st8).
  { exact (self_after _ _ _ _ preserves_not_at_end Hend). }
  assert (H10 : self st10 = self st9).
  { refine (self_after _ _ _ _ _ Hprint). intros P. apply preserves_when. auto with frame. }
  exists G, S, h. rewrite H10, H9. by destruct H8.
Qed.

Lemma guessed_formats Snapshot_Init (fs : filesystem) basedir snapnum msgs nfiles k sw :
  guess_format Snapshot_Init fs basedir snapnum = (msgs, Ok (Some (nfiles, k, sw))) →
  k = 0 ∨ k = 1 ∨ k = 2.
Proof.
  intros Hg.
  destruct (find_template fs (with_slash basedir) (snap_string snapnum))
    as [[fname k']|] eqn:Hfind.
  - destruct (guess_format_found Snapshot_Init fs basedir snapnum fname k' Hfind)
      as [_ [Hsel|Hsel]]; unfold selected in Hsel; rewrite Hg in Hsel; cbn in Hsel;
      [done|]. injection Hsel as _ ->.
    by destruct (find_template_formats _ _ _ _ _ Hfind).
  - by rewrite (guess_format_not_found Snapshot_Init fs basedir snapnum Hfind) in Hg.
Qed.

Lemma guessed_positive Snapshot_Init (fs : filesystem) basedir snapnum msgs nfiles k sw :
  guess_format Snapshot_Init fs basedir snapnum = (msgs, Ok (Some (nfiles, k, sw))) →
  (0 < nfiles)%nat.
Proof.
  intros Hg.
  destruct (find_template fs (with_slash basedir) (snap_string snapnum))
    as [[fname k']|] eqn:Hfind.
  - destruct (guess_format_found Snapshot_Init fs basedir snapnum fname k' Hfind)
      as [_ [Hsel|Hsel]]; unfold selected in Hsel; rewrite Hg in Hsel; cbn in Hsel;
      [done|]. injection Hsel as -> _.
    apply count_files_positive. by destruct (find_template_formats _ _ _ _ _ Hfind).
  - by rewrite (guess_format_not_found Snapshot_Init fs basedir snapnum Hfind) in Hg.
Qed.

(** The whole loop, when it goes through. *)
Lemma tab_files_ok numpy2 (fs : filesystem) o fname nfiles myformat more c idf sw f msgs r
    st' :
  myformat = 0 ∨ myformat = 1 →
  self_id_format c = Some idf →
  self_swap c = Some sw →
  read_tab_files numpy2 fs o fname nfiles myformat more 0 (0, 0) (State c f msgs)
  = (Ok r, st') →
  ∃ G S h, 0 ≤ G ∧ 0 ≤ S
    ∧ kept myformat (settings c) G S
        (shape (assigned (λ fld, replicate (rows_of G S (field_per fld)) None) c
                  (allocated idf o myformat)))
        (self st')
    ∧ segment_header fs fname myformat sw 0 = Some h
    ∧ (myformat = 0 → ∀ S0, self_TotNsubhalos c = Some S0 →
                            S = add_int32 numpy2 S0 (Nsubhalos h)).
Proof.
  intros Hk Hidf Hsw Hrun. destruct more as [|more]; cbn [read_tab_files] in Hrun;
    apply bind_ok in Hrun as (skip & st1 & Hfirst & Hrun);
    destruct (first_segment_ok _ _ _ _ _ _ _ _ _ _ _ _ _ _ Hk Hidf Hsw Hfirst)
      as (G & S & h & HG & HS & Hkept & _ & Hh & Hold);
    exists G, S, h; (split; [done|]); (split; [done|]);
    (split; [|by split]).
  - by injection Hrun as <- <-.
  - pose proof (later_files_preserve _ numpy2 fs o fname nfiles myformat more 1 skip
                  (kept_block_stable myformat _ G S _)
                  (kept_running_totals myformat _ G S _) ltac:(done) st1 Hkept) as Hlater.
    by rewrite Hrun in Hlater.
Qed.

Lemma allocated_names_distinct (idf : dtype) (o : options) (myformat : Z) :
  NoDup (field_name <$> allocated idf o myformat).
Proof.
  unfold allocated. destruct (bool_decide (myformat = 1));
    destruct o as [[] [] [] []]; apply (bool_decide_unpack _); by vm_compute.
Qed.

(** What an object that the constructor returns is made of. *)
Lemma constructed Snapshot_Init has_long numpy2 (fs : filesystem) o basedir snapnum msgs c :
  new_catalog Snapshot_Init has_long numpy2 fs o basedir snapnum = (msgs, Ok c) →
  ∃ msgs0 nfiles myformat swap,
    guess_format Snapshot_Init fs basedir snapnum
    = (msgs0, Ok (Some (nfiles, myformat, swap)))
    ∧ (myformat = 2
       ∧ c = Catalog None None (Some swap) None (Some 2) None None None None None ∅
       ∨ (myformat = 0 ∨ myformat = 1)
         ∧ ∃ G S h, 0 ≤ G ∧ 0 ≤ S
             ∧ kept myformat
                 (Some (snap_string snapnum), Some basedir, Some swap, Some nfiles,
                  Some myformat, Some (long_IDs o), Some (id_dtype o))
                 G S
                 (shape (assigned (λ fld, replicate (rows_of G S (field_per fld)) None)
                           new_object (allocated (id_dtype o) o myformat)))
                 c
             ∧ segment_header fs (tab_path basedir (snap_string snapnum) myformat)
                 myformat swap 0 = Some h
             ∧ (myformat = 0 → S = add_int32 numpy2 0 (Nsubhalos h))).
Proof.
  intros Hnew.
  destruct (guess_format Snapshot_Init fs basedir snapnum) as [msgs0 [[[[nfiles k] sw]|]|e]]
    eqn:Hg.
  - exists msgs0, nfiles, k, sw. split; [done|].
    destruct (guessed_formats Snapshot_Init fs basedir snapnum msgs0 nfiles k sw Hg)
      as [-> | [-> | ->]].
    + right. split; [by left|].
      rewrite (catalog_init_enters _ has_long _ _ o _ _ _ _ _ _ Hg) in Hnew by done.
      cbn zeta in Hnew. rewrite (bool_decide_eq_true_2 (0 = 0)) in Hnew by done.
      destruct has_long; cbn [negb andb] in Hnew; [|done].
      destruct (read_tab_files _ _ _ _ _ _ _ _ _) as [[r|e] st] eqn:Hrun; [|done].
      injection Hnew as <- <-.
      apply (tab_files_ok _ _ _ _ _ _ _ _ (id_dtype o) sw) in Hrun
        as (G & S & h & HG & HS & Hkept & Hh & Hold); [|by left|done|done].
      exists G, S, h. split; [done|]. split; [done|].
      split; [|split; [exact Hh|intros _; by apply Hold]].
      destruct Hkept as (K1 & K2 & K3 & K4 & K5 & K6).
      repeat split; try done. rewrite K6. unfold shape. f_equal.
      by apply assigned_arrays_ext.
    + right. split; [by right|].
      rewrite (catalog_init_enters _ has_long _ _ o _ _ _ _ _ _ Hg) in Hnew by done.
      cbn zeta in Hnew. rewrite (bool_decide_eq_false_2 (1 = 0)) in Hnew by done.
      cbn [andb] in Hnew.
      destruct (read_tab_files _ _ _ _ _ _ _ _ _) as [[r|e] st] eqn:Hrun; [|done].
      injection Hnew as <- <-.
      apply (tab_files_ok _ _ _ _ _ _ _ _ (id_dtype o) sw) in Hrun
        as (G & S & h & HG & HS & Hkept & Hh & Hold); [|by right|done|done].
      exists G, S, h. split; [done|]. split; [done|].
      split; [|split; [exact Hh|done]].
      destruct Hkept as (K1 & K2 & K3 & K4 & K5 & K6).
      repeat split; try done. rewrite K6. unfold shape. f_equal.
      by apply assigned_arrays_ext.
    + left. split; [done|].
      unfold new_catalog, catalog_init in Hnew. rewrite bind_run in Hnew.
      change (guess_format Snapshot_Init fs basedir (SnapStr (snap_string snapnum)))
        with (guess_format Snapshot_Init fs basedir snapnum) in Hnew.
      rewrite Hg in Hnew. cbn in Hnew. by injection Hnew as _ <-.
  - unfold new_catalog, catalog_init in Hnew. rewrite bind_run in Hnew.
    change (guess_format Snapshot_Init fs basedir (SnapStr (snap_string snapnum)))
      with (guess_format Snapshot_Init fs basedir snapnum) in Hnew.
    by rewrite Hg in Hnew.
  - unfold new_catalog, catalog_init in Hnew. rewrite bind_run in Hnew.
    change (guess_format Snapshot_Init fs basedir (SnapStr (snap_string snapnum)))
      with (guess_format Snapshot_Init fs basedir snapnum) in Hnew.
    by rewrite Hg in Hnew.
Qed.

(** X13.  An object that the constructor returns for a catalog of the
    old or of the G3 format has all its scalar attributes: the snapshot
    number as a string, the base directory as it was passed, the byte
    order, the format and the number of files that [guess_format] found
    (at least one), the type of the identifiers that [long_IDs] asks
    for, and the three totals. *)
Theorem constructed_attributes Snapshot_Init has_long numpy2 (fs : filesystem) (o : options)
    (basedir : string) (snapnum : snap_arg) (msgs : list message) (c : catalog) :
  new_catalog Snapshot_Init has_long numpy2 fs o basedir snapnum = (msgs, Ok c) →
  self_myformat c ≠ Some 2 →
  ∃ nfiles myformat swap,
    (guess_format Snapshot_Init fs basedir snapnum).2 = Ok (Some (nfiles, myformat, swap))
    ∧ (myformat = 0 ∨ myformat = 1) ∧ (0 < nfiles)%nat
    ∧ self_snapnum c = Some (snap_string snapnum)
    ∧ self_basedir c = Some basedir
    ∧ self_swap c = Some swap
    ∧ self_Nfiles c = Some nfiles
    ∧ self_myformat c = Some myformat
    ∧ self_long_IDs c = Some (long_IDs o)
    ∧ self_id_format c = Some (if long_IDs o then np_uint64 else np_uint32)
    ∧ is_Some (self_TotNgroups c)
    ∧ is_Some (self_TotNids c)
    ∧ is_Some (self_TotNsubhalos c).
Proof.
  intros Hnew Hfmt.
  destruct (constructed _ _ _ _ _ _ _ _ _ Hnew) as (msgs0 & nfiles & k & sw & Hg & Hcase).
  destruct Hcase as [[-> ->]|[Hk (G & S & h & _ & _ & (Hset & HG & HI & HS & _) & _)]];
    [done|].
  exists nfiles, k, sw. rewrite Hg. split; [done|]. split; [done|].
  split.
  { exact (guessed_positive _ _ _ _ _ _ _ _ Hg). }
  unfold settings in Hset. injection Hset as -> -> -> -> -> -> ->.
  repeat split; eauto.
Qed.

Lemma constructed_attributes_witness :
  ∃ nfiles myformat swap,
    (guess_format no_snapshot lopsided_fs "out/" (SnapInt 5)).2
    = Ok (Some (nfiles, myformat, swap))
    ∧ (myformat = 0 ∨ myformat = 1) ∧ (0 < nfiles)%nat
    ∧ self_snapnum (catalog_of lopsided_fs) = Some (snap_string (SnapInt 5))
    ∧ self_basedir (catalog_of lopsided_fs) = Some "out/"
    ∧ self_swap (catalog_of lopsided_fs) = Some swap
    ∧ self_Nfiles (catalog_of lopsided_fs) = Some nfiles
    ∧ self_myformat (catalog_of lopsided_fs) = Some myformat
    ∧ self_long_IDs (catalog_of lopsided_fs) = Some (long_IDs default_options)
    ∧ self_id_format (catalog_of lopsided_fs)
      = Some (if long_IDs default_options then np_uint64 else np_uint32)
    ∧ is_Some (self_TotNgroups (catalog_of lopsided_fs))
    ∧ is_Some (self_TotNids (catalog_of lopsided_fs))
    ∧ is_Some (self_TotNsubhalos (catalog_of lopsided_fs)).
Proof.
  apply (constructed_attributes no_snapshot true false lopsided_fs default_options "out/"
           (SnapInt 5) [] (catalog_of lopsided_fs)).
  - vm_compute. reflexivity.
  - vm_compute. discriminate.
Defined.

(** X14.  When the constructor returns, the object holds the arrays of
    the allocation table of its format and options, and no other; each
    has as many rows as the total that was known when it was allocated,
    whatever the segments hold.  The arrays of the groups have the
    length [TotNgroups].  Those of the subhalos have the length
    [TotNsubhalos] in the G3 format.  In the old format they have the
    number of subhalos of the first segment: [TotNsubhalos] is a running
    total there, which the later segments go on adding to after the
    arrays are made. *)
Theorem constructed_arrays Snapshot_Init has_long numpy2 (fs : filesystem) (o : options)
    (basedir : string) (snapnum : snap_arg) (msgs : list message) (c : catalog)
    (myformat : Z) :
  new_catalog Snapshot_Init has_long numpy2 fs o basedir snapnum = (msgs, Ok c) →
  self_myformat c = Some myformat →
  myformat ≠ 2 →
  ∃ G S,
    0 ≤ G ∧ 0 ≤ S
    ∧ self_TotNgroups c = Some G
    ∧ (myformat = 1 → self_TotNsubhalos c = Some S)
    ∧ (myformat = 0 →
       ∃ swap h,
         self_swap c = Some swap
         ∧ segment_header fs (tab_path basedir (snap_string snapnum) 0) 0 swap 0 = Some h
         ∧ S = add_int32 numpy2 0 (Nsubhalos h))
    ∧ (∀ fld, fld ∈ allocated (id_dtype o) o myformat →
              ∃ a, self_arrays c !! field_name fld = Some a
                   ∧ length a = rows_of G S (field_per fld))
    ∧ (∀ name, is_Some (self_arrays c !! name) →
               name ∈ field_name <$> allocated (id_dtype o) o myformat).
Proof.
  intros Hnew Hfmt Hk.
  destruct (constructed _ _ _ _ _ _ _ _ _ Hnew) as (msgs0 & nfiles & k & sw & Hg & Hcase).
  destruct Hcase
    as [[-> ->]|[_ (G & S & h & HG & HS & (Hset & HGc & _ & _ & HSc & Hshape) & Hh & Hold)]].
  { cbn in Hfmt. congruence. }
  assert (k = myformat ∧ self_swap c = Some sw) as [-> Hsw].
  { unfold settings in Hset. injection Hset as _ _ Hs _ Hm _ _. split; congruence. }
  exists G, S. do 4 (split; [done|]).
  split.
  { intros ->. exists sw, h. split; [done|]. split; [exact Hh|by apply Hold]. }
  set (g := λ fld : field, replicate (rows_of G S (field_per fld)) None) in *.
  assert (Hlook : ∀ name, length <$> self_arrays c !! name
                          = length <$> self_arrays (assigned g new_object
                                                      (allocated (id_dtype o) o myformat))
                                       !! name).
  { intros name. unfold shape in Hshape. by rewrite <- !lookup_fmap, Hshape. }
  split.
  - intros fld Hin. specialize (Hlook (field_name fld)).
    rewrite (assigned_arrays g _ new_object fld (allocated_names_distinct _ _ _) Hin) in Hlook.
    destruct (self_arrays c !! field_name fld) as [a|]; [|done].
    exists a. split; [done|]. cbn in Hlook. injection Hlook as ->.
    unfold g. by rewrite length_replicate.
  - intros name [a Ha]. specialize (Hlook name). rewrite Ha in Hlook.
    destruct (decide (name ∈ field_name <$> allocated (id_dtype o) o myformat))
      as [Hin|Hout]; [done|].
    by rewrite (assigned_other g _ new_object name Hout) in Hlook.
Qed.

Lemma constructed_arrays_witness :
  ∃ G S,
    0 ≤ G ∧ 0 ≤ S
    ∧ self_TotNgroups legacy_catalog = Some G
    ∧ (0 = 1 → self_TotNsubhalos legacy_catalog = Some S)
    ∧ (0 = 0 →
       ∃ swap h,
         self_swap legacy_catalog = Some swap
         ∧ segment_header legacy_two_fs (tab_path "" (snap_string (SnapInt 5)) 0) 0 swap 0
           = Some h
         ∧ S = add_int32 false 0 (Nsubhalos h))
    ∧ (∀ fld, fld ∈ allocated (id_dtype default_options) default_options 0 →
              ∃ a, self_arrays legacy_catalog !! field_name fld = Some a
                   ∧ length a = rows_of G S (field_per fld))
    ∧ (∀ name, is_Some (self_arrays legacy_catalog !! name) →
               name ∈ field_name <$> allocated (id_dtype default_options) default_options 0).
Proof.
  apply (constructed_arrays no_snapshot true false legacy_two_fs default_options ""
           (SnapInt 5) [] legacy_catalog 0).
  - vm_compute. reflexivity.
  - vm_compute. reflexivity.
  - discriminate.
Defined.

(** On that catalog of the old format the arrays of the subhalos have
    the 8 rows of the first segment, and [TotNsubhalos] ends as 11. *)
Lemma legacy_running_total (numpy2 : bool) :
  returns (new_catalog no_snapshot true numpy2 legacy_two_fs default_options "" (SnapInt 5))
    (λ c, self_TotNsubhalos c = Some 11
          ∧ length <$> self_arrays c !! "SubLen" = Some 8%nat
          ∧ self_arrays c !! "SubLen"
            = Some (expected_array sample_values np_int32 "SubLen" 8)).
Proof. destruct numpy2; vm_compute; repeat split. Qed.

(** ** [help] on the objects of the constructor *)

(** [help] looks at the scalar attributes, and at which of four names
    are bound. *)
Lemma help_ext (c c' : catalog) :
  settings c = settings c' →
  self_TotNgroups c = self_TotNgroups c' →
  self_TotNids c = self_TotNids c' →
  self_TotNsubhalos c = self_TotNsubhalos c' →
  (∀ name, hasattr c name = hasattr c' name) →
  help c = help c'.
Proof.
  intros Hset HG HI HS Hhas. unfold settings in Hset.
  injection Hset as H1 H2 H3 H4 H5 H6 H7.
  unfold help. rewrite H1, H2, H3, H4, H5, H7, HG, HI, HS.
  by rewrite !Hhas.
Qed.

Lemma assigned_bound g fields : ∀ (c : catalog) name,
  is_Some (self_arrays (assigned g c fields) !! name)
  ↔ name ∈ field_name <$> fields ∨ is_Some (self_arrays c !! name).
Proof.
  induction fields as [|fld fields IH]; intros c name.
  - cbn. rewrite elem_of_nil. tauto.
  - cbn [assigned foldl]. fold (assigned g (set_array (field_name fld) (g fld) c) fields).
    rewrite IH, fmap_cons, elem_of_cons. cbn [set_array self_arrays].
    destruct (decide (name = field_name fld)) as [->|Hne].
    + rewrite lookup_insert_eq. split; [intros _; by left; left|intros _; right; eauto].
    + rewrite lookup_insert_ne by done. tauto.
Qed.

(** The names that are bound to arrays in an object of the
    constructor are those of the allocation table. *)
Lemma hasattr_constructed (k : Z) x G S g o (c : catalog) name :
  kept k x G S (shape (assigned g new_object (allocated (id_dtype o) o k))) c →
  hasattr c name = bool_decide (name ∈ field_name <$> allocated (id_dtype o) o k).
Proof.
  intros (_ & _ & _ & _ & _ & Hshape). unfold hasattr.
  apply bool_decide_ext.
  assert (Hlook : length <$> self_arrays c !! name
                  = length <$> self_arrays (assigned g new_object
                                              (allocated (id_dtype o) o k)) !! name).
  { unfold shape in Hshape. by rewrite <- !lookup_fmap, Hshape. }
  rewrite <- (fmap_is_Some length), Hlook, fmap_is_Some, assigned_bound.
  cbn. rewrite lookup_empty. split; [intros [?|[? ?]]; done|by left].
Qed.

Lemma help_kept (k : Z) snapnum basedir sw nfiles o G S g (c : catalog) :
  kept k (Some snapnum, Some basedir, Some sw, Some nfiles, Some k, Some (long_IDs o),
          Some (id_dtype o)) G S
    (shape (assigned g new_object (allocated (id_dtype o) o k))) c →
  ∃ I S', help c = help (listing snapnum basedir sw nfiles k o G I S').
Proof.
  intros Hkept. pose proof Hkept as (Hset & HG & [I HI] & [S' HS'] & _ & _).
  exists I, S'. unfold listing.
  set (c0 := Catalog _ _ _ _ _ _ _ _ _ _ _).
  destruct (assigned_settings (λ _, []) (allocated (id_dtype o) o k) c0)
    as (Hset' & HG' & HI' & HS'').
  apply help_ext;
    [by rewrite Hset' | by rewrite HG' | by rewrite HI' | by rewrite HS'' |].
  intros name. rewrite (hasattr_constructed _ _ _ _ _ _ _ name Hkept).
  unfold hasattr. apply bool_decide_ext. rewrite assigned_bound.
  cbn. rewrite lookup_empty. split; [by left|intros [?|[? ?]]; done].
Qed.

(** What [help] prints for an object of the constructor. *)
Lemma help_constructed Snapshot_Init has_long numpy2 (fs : filesystem) o basedir snapnum msgs c :
  new_catalog Snapshot_Init has_long numpy2 fs o basedir snapnum = (msgs, Ok c) →
  self_myformat c = Some 2
  ∧ help c = ([[PyStr "Please treat this SubFind catalog as a snapshot"]], Ok tt)
  ∨ ∃ k nfiles sw G I S,
      (k = 0 ∨ k = 1) ∧ self_myformat c = Some k
      ∧ help c = help (listing (snap_string snapnum) basedir sw nfiles k o G I S).
Proof.
  intros Hnew.
  destruct (constructed _ _ _ _ _ _ _ _ _ Hnew) as (msgs0 & nfiles & k & sw & Hg & Hcase).
  destruct Hcase as [[-> ->]|[Hk (G & S & h & _ & _ & Hkept & _)]]; [by left|].
  right. destruct (help_kept _ _ _ _ _ _ _ _ _ _ Hkept) as (I & S' & Hhelp).
  exists k, nfiles, sw, G, I, S'. split; [done|]. split; [|done].
  destruct Hkept as (Hset & _). unfold settings in Hset. by injection Hset as _ _ _ _ ? _ _.
Qed.

Lemma decide_iff (P Q : Prop) `{Decision P} `{Decision Q} :
  bool_decide P = bool_decide Q → (P ↔ Q).
Proof.
  intros Heq. rewrite <- (bool_decide_eq_true P), <- (bool_decide_eq_true Q).
  by rewrite Heq.
Qed.

Ltac help_cases Hk o :=
  destruct Hk as [-> | ->]; destruct o as [[] [] [] []].

(** X17.  [help] never raises on an object that the constructor
    returned: every attribute it prints has been assigned.  For a
    catalog in the snapshot format, whose object has two attributes
    only, it prints its one line and returns. *)
Theorem help_never_raises Snapshot_Init has_long numpy2 (fs : filesystem) (o : options)
    (basedir : string) (snapnum : snap_arg) (msgs : list message) (c : catalog) :
  new_catalog Snapshot_Init has_long numpy2 fs o basedir snapnum = (msgs, Ok c) →
  (help c).2 = Ok tt
  ∧ (self_myformat c = Some 2 →
     (help c).1 = [[PyStr "Please treat this SubFind catalog as a snapshot"]]).
Proof.
  intros Hnew.
  destruct (help_constructed _ _ _ _ _ _ _ _ _ Hnew)
    as [[Hfmt ->]|(k & nfiles & sw & G & I & S & Hk & Hfmt & ->)]; [done|].
  split.
  - help_cases Hk o; reflexivity.
  - intros Hfmt2. rewrite Hfmt in Hfmt2. destruct Hk as [-> | ->]; done.
Qed.

(** X18.  [help] never lists [SubMassTab], not even for an object that
    holds the array (the constructor loads it unless [SaveMassTab] is
    turned off): the line is printed for an object with an attribute
    [SaveMassTab], which nothing ever assigns. *)
Theorem help_never_lists_SubMassTab Snapshot_Init has_long numpy2 (fs : filesystem) (o : options)
    (basedir : string) (snapnum : snap_arg) (msgs : list message) (c : catalog) :
  new_catalog Snapshot_Init has_long numpy2 fs o basedir snapnum = (msgs, Ok c) →
  ([PyStr "  SubMassTab        (dtype=np.dtype((np.float32,6)))"] ∉ (help c).1)
  ∧ (self_myformat c ≠ Some 2 → SaveMassTab o = true →
     is_Some (self_arrays c !! "SubMassTab")).
Proof.
  intros Hnew. split.
  - destruct (help_constructed _ _ _ _ _ _ _ _ _ Hnew)
      as [[Hfmt ->]|(k & nfiles & sw & G & I & S & Hk & Hfmt & ->)].
    + apply (bool_decide_eq_false_1 _). reflexivity.
    + help_cases Hk o; apply (bool_decide_eq_false_1 _); vm_compute; reflexivity.
  - intros Hfmt Hsave.
    destruct (constructed _ _ _ _ _ _ _ _ _ Hnew) as (msgs0 & nfiles & k & sw & Hg & Hcase).
    destruct Hcase as [[-> ->]|[Hk (G & S & h & _ & _ & Hkept & _)]]; [done|].
    pose proof (hasattr_constructed _ _ _ _ _ _ _ "SubMassTab" Hkept) as Hhas.
    unfold hasattr in Hhas. apply (bool_decide_eq_true_1 _).
    rewrite Hhas. destruct o as [li smt sov ct]. cbn in Hsave. subst smt.
    destruct Hk as [-> | ->]; destruct li, sov, ct; vm_compute; reflexivity.
Qed.

(** X19.  [help] always reports that the particle IDs have not been
    read, also after [read_IDs] was called: the method raises before it
    assigns [GroupIDs]. *)
Theorem help_reports_no_IDs Snapshot_Init has_long numpy2 (fs : filesystem) (o : options)
    (basedir : string) (snapnum : snap_arg) (msgs : list message) (c : catalog) :
  new_catalog Snapshot_Init has_long numpy2 fs o basedir snapnum = (msgs, Ok c) →
  self_myformat c ≠ Some 2 →
  ∀ (fs' : filesystem) (f : handle),
    let after := self (read_IDs fs' (State c f [])).2 in
    [PyStr "Particle IDs have not been read"] ∈ (help c).1
    ∧ [PyStr "Particle IDs have not been read"] ∈ (help after).1
    ∧ ([PyStr "Particle IDs of FoF groups (length TotNids)"] ∉ (help after).1).
Proof.
  intros Hnew Hfmt2 fs' f after.
  assert (after = c) as ->.
  { unfold after. destruct (read_IDs_stops fs' (State c f [])) as (e & st' & -> & Hself & _).
    exact Hself. }
  destruct (help_constructed _ _ _ _ _ _ _ _ _ Hnew)
    as [[Hfmt _]|(k & nfiles & sw & G & I & S & Hk & Hfmt & ->)]; [done|].
  help_cases Hk o;
    (split; [|split]);
    first [ apply (bool_decide_eq_false_1 _); vm_compute; reflexivity
          | apply (bool_decide_eq_true_1 _); vm_compute; reflexivity ].
Qed.

(** X20.  The optional lines of [help] follow the options the object
    was made with: the velocity dispersions are listed for a G3 catalog
    read with [SOVelDisp], and [HaloCont] for a catalog read with
    [ConTermination]. *)
Theorem help_lists_optional_fields Snapshot_Init has_long numpy2 (fs : filesystem) (o : options)
    (basedir : string) (snapnum : snap_arg) (msgs : list message) (c : catalog) :
  new_catalog Snapshot_Init has_long numpy2 fs o basedir snapnum = (msgs, Ok c) →
  self_myformat c ≠ Some 2 →
  ([PyStr "  VelDisp_Mean200   (dtype=np.float32)"] ∈ (help c).1
   ↔ self_myformat c = Some 1 ∧ SOVelDisp o = true)
  ∧ ([PyStr "  HaloCont           (dtype=np.float32)"] ∈ (help c).1
     ↔ ConTermination o = true).
Proof.
  intros Hnew Hfmt2.
  destruct (help_constructed _ _ _ _ _ _ _ _ _ Hnew)
    as [[Hfmt _]|(k & nfiles & sw & G & I & S & Hk & Hfmt & ->)]; [done|].
  rewrite Hfmt. clear Hfmt Hfmt2 Hnew.
  help_cases Hk o; split; (refine (decide_iff _ _ _)); vm_compute; reflexivity.
Qed.

(** ** The schedule of the driver *)

Section DriverSchedule.

Context {particle replication shell skymap fits : Type}.
Variable nparticles : Z.
Variable numfiles npixels rank size : nat.
Variable shells : list shell.
Variable map_path : shell → string.
Variable auxcut : shell → list bool.
Variable nearest : shell → nat.
Variable replicationsinside : shell → list replication.
Variable Npart : nat → Z.
Variable particles : nat → nat → list particle.
Variable Zacc : particle → float32.
Variable crossing : shell → replication → particle → float32.
Variable getSkyCoordinates : replication → particle → float32 → float32 * float32 * float32.
Variable ang2pix : float32 → float32 → Z.
Variable zeros : skymap.
Variable add_counts : skymap → list Z → skymap.
Variable read_map : fits → skymap.
Variable write_map : skymap → fits.

Local Abbreviation step_rank :=
  (collect_rank (fits:=fits) npixels rank particles Zacc crossing getSkyCoordinates
     ang2pix add_counts).
Local Abbreviation step_rep :=
  (collect_replication (fits:=fits) npixels rank size particles Zacc crossing
     getSkyCoordinates ang2pix add_counts).
Local Abbreviation shell_run :=
  (process_shell npixels rank size map_path auxcut nearest replicationsinside particles
     Zacc crossing getSkyCoordinates ang2pix zeros add_counts read_map write_map).
Local Abbreviation shells_run :=
  (process_shells npixels rank size map_path auxcut nearest replicationsinside particles
     Zacc crossing getSkyCoordinates ang2pix zeros add_counts read_map write_map).
Local Abbreviation snapshot_run :=
  (process_snapshot npixels rank size shells map_path auxcut nearest replicationsinside
     Npart particles Zacc crossing getSkyCoordinates ang2pix zeros add_counts read_map
     write_map).
Local Abbreviation snapshots_run :=
  (process_snapshots npixels rank size shells map_path auxcut nearest replicationsinside
     Npart particles Zacc crossing getSkyCoordinates ang2pix zeros add_counts read_map
     write_map).

Lemma collect_rank_trace snapnum sh rep (w : world) d ranki :
  ∃ d', step_rank snapnum sh rep (w, d) ranki
        = (World (disk w) (events w ++ rank_events rank ranki), d').
Proof.
  unfold collect_rank, rank_events.
  repeat case_bool_decide; try lia; cbn; unfold emit; cbn [disk events];
    eexists; rewrite <- ?app_assoc; reflexivity.
Qed.

Lemma collect_ranks_trace snapnum sh rep l (w : world) d :
  ∃ d', foldl (step_rank snapnum sh rep) (w, d) l
        = (World (disk w) (events w ++ (l ≫= rank_events rank)), d').
Proof.
  revert w d. induction l as [|ranki l IH]; intros w d; cbn [foldl].
  - exists d. cbn. by rewrite app_nil_r; destruct w.
  - destruct (collect_rank_trace snapnum sh rep w d ranki) as [d1 ->].
    destruct (IH (World (disk w) (events w ++ rank_events rank ranki)) d1) as [d' ->].
    exists d'. cbn [disk events]. by rewrite bind_cons, app_assoc.
Qed.

Lemma collect_replications_trace snapnum sh l (w : world) d :
  ∃ d', foldl (step_rep snapnum sh) (w, d) l
        = (World (disk w) (events w ++ (l ≫= λ _, replication_events rank size)), d').
Proof.
  revert w d. induction l as [|rep l IH]; intros w d; cbn [foldl].
  - exists d. cbn. by rewrite app_nil_r; destruct w.
  - unfold collect_replication at 2.
    destruct (collect_ranks_trace snapnum sh rep (seq 0 size) w d) as [d1 ->].
    destruct (IH (World (disk w) (events w ++ (seq 0 size ≫= rank_events rank))) d1)
      as [d' ->].
    exists d'. cbn [disk events]. by rewrite bind_cons, app_assoc.
Qed.

(** One shell that goes through: the widening did not raise, the
    process did what the schedule says, and a process that is not the
    collector left the files as they were. *)
Lemma process_shell_trace snapnum (w w' : world) sh :
  shell_run snapnum w sh = Some w' →
  events w' = events w ++ shell_events rank size map_path replicationsinside snapnum sh
  ∧ (rank ≠ 0%nat → disk w' = disk w)
  ∧ is_Some (fit_points auxcut nearest sh).
Proof.
  unfold process_shell, shell_events.
  case_bool_decide as Hrank.
  - destruct (open_map map_path zeros read_map snapnum sh w) as [d|]; [|done].
    cbn [mbind option_bind].
    destruct (fit_points auxcut nearest sh) as [kept_points|]; [|done].
    cbn [mbind option_bind].
    set (w1 := if bool_decide (snapnum = 0%nat) then w else emit _ w).
    assert (Hw1 : w1 = World (disk w)
                         (events w ++ if true && negb (bool_decide (snapnum = 0%nat))
                                      then [EvReadMap (map_path sh)] else [])).
    { subst w1. case_bool_decide; cbn; [by rewrite app_nil_r; destruct w|done]. }
    rewrite Hw1.
    destruct (collect_replications_trace snapnum sh (replicationsinside sh)
                (World (disk w) (events w ++ if true && negb (bool_decide (snapnum = 0%nat))
                                             then [EvReadMap (map_path sh)] else [])) d)
      as [d' ->].
    intros [= <-]. unfold emit. cbn [disk events].
    split; [by rewrite <- !app_assoc|]. split; [done|by eauto].
  - destruct (fit_points auxcut nearest sh) as [kept_points|]; [|done].
    cbn [mbind option_bind].
    destruct (collect_replications_trace snapnum sh (replicationsinside sh) w zeros)
      as [d' ->].
    intros [= <-]. unfold emit. cbn [disk events andb app].
    split; [by rewrite <- !app_assoc|]. split; [done|by eauto].
Qed.

Lemma process_shells_trace snapnum l : ∀ w w' : world,
  shells_run snapnum w l = Some w' →
  events w'
  = events w ++ (l ≫= shell_events rank size map_path replicationsinside snapnum)
  ∧ (rank ≠ 0%nat → disk w' = disk w)
  ∧ (∀ sh, sh ∈ l → is_Some (fit_points auxcut nearest sh)).
Proof.
  induction l as [|sh l IH]; intros w w' Hrun.
  - cbn in Hrun. injection Hrun as <-. cbn. rewrite app_nil_r.
    split; [done|]. split; [done|]. intros sh Hin. by apply elem_of_nil in Hin.
  - cbn [process_shells] in Hrun.
    destruct (shell_run snapnum w sh) as [w1|] eqn:Hshell; [|done].
    cbn [mbind option_bind] in Hrun.
    destruct (process_shell_trace snapnum w w1 sh Hshell) as (Hev & Hdisk & Hfit).
    destruct (IH w1 w' Hrun) as (Hev' & Hdisk' & Hfit').
    split; [by rewrite Hev', Hev, bind_cons, app_assoc|].
    split; [intros Hr; by rewrite Hdisk', Hdisk|].
    intros sh' [->|Hin]%elem_of_cons; [done|by apply Hfit'].
Qed.

(** One snapshot file that goes through: its particles could be
    scattered. *)
Lemma process_snapshot_trace snapnum (w w' : world) :
  snapshot_run w snapnum = Some w' →
  events w'
  = events w ++ snapshot_events rank size shells map_path replicationsinside Npart snapnum
  ∧ (rank ≠ 0%nat → disk w' = disk w)
  ∧ Npart snapnum `mod` Z.of_nat size = 0
  ∧ (∀ sh, sh ∈ shells → is_Some (fit_points auxcut nearest sh)).
Proof.
  unfold process_snapshot, prologue.
  case_decide as Hdiv; [|done]. cbn [mbind option_bind]. intros Hrun.
  destruct (process_shells_trace snapnum shells _ w' Hrun) as (Hev & Hdisk & Hfit).
  split; [|split; [exact Hdisk|by split]].
  rewrite Hev. unfold snapshot_events, emit. cbn. by rewrite <- !app_assoc.
Qed.

Lemma process_snapshots_trace n : ∀ start (w w' : world),
  snapshots_run w (seq start n) = Some w' →
  events w'
  = events w ++ (seq start n
                 ≫= snapshot_events rank size shells map_path replicationsinside Npart)
  ∧ (rank ≠ 0%nat → disk w' = disk w)
  ∧ (∀ snapnum, (start ≤ snapnum < start + n)%nat →
                Npart snapnum `mod` Z.of_nat size = 0)
  ∧ ((0 < n)%nat → ∀ sh, sh ∈ shells → is_Some (fit_points auxcut nearest sh)).
Proof.
  induction n as [|n IH]; intros start w w' Hrun.
  - cbn in Hrun. injection Hrun as <-. cbn. rewrite app_nil_r.
    split; [done|]. split; [done|]. split; intros; lia.
  - cbn [seq process_snapshots] in Hrun.
    destruct (snapshot_run w start) as [w1|] eqn:Hsnap; [|done].
    cbn [mbind option_bind] in Hrun.
    destruct (process_snapshot_trace start w w1 Hsnap) as (Hev & Hdisk & Hdiv & Hfit).
    destruct (IH (S start) w1 w' Hrun) as (Hev' & Hdisk' & Hdiv' & _).
    split; [by rewrite Hev', Hev; cbn [seq]; rewrite bind_cons, app_assoc|].
    split; [intros Hr; by rewrite Hdisk', Hdisk|]. split; [|done].
    intros snapnum Hs. destruct (decide (snapnum = start)) as [->|Hne]; [done|].
    apply Hdiv'. lia.
Qed.

(** A run that went through the loop on the snapshots. *)
Lemma driver_trace (files : gmap string fits) (w : world) :
  driver nparticles numfiles npixels rank size shells map_path auxcut nearest
    replicationsinside Npart particles Zacc crossing getSkyCoordinates ang2pix zeros
    add_counts read_map write_map files = inr w →
  events w = run_events rank size shells map_path replicationsinside Npart numfiles
  ∧ (rank ≠ 0%nat → disk w = files)
  ∧ nparticles `mod` Z.of_nat size = 0
  ∧ (∀ snapnum, (snapnum < numfiles)%nat → Npart snapnum `mod` Z.of_nat size = 0)
  ∧ ((0 < numfiles)%nat → ∀ sh, sh ∈ shells → is_Some (fit_points auxcut nearest sh)).
Proof.
  unfold driver. case_decide as Hdiv; [done|].
  destruct (snapshots_run (World files []) (seq 0 numfiles)) as [w'|] eqn:Hrun; [|done].
  intros [= <-].
  destruct (process_snapshots_trace numfiles 0 _ w' Hrun) as (Hev & Hdisk & Hparts & Hfit).
  split; [exact Hev|]. split; [exact Hdisk|]. split; [lia|]. split; [|exact Hfit].
  intros snapnum Hs. apply Hparts. lia.
Qed.

End DriverSchedule.

Lemma filter_bind_ext {A B} (P : B → Prop) `{∀ x, Decision (P x)} (f g : A → list B) l :
  (∀ x, filter P (f x) = filter P (g x)) →
  filter P (l ≫= f) = filter P (l ≫= g).
Proof.
  intros Hfg. induction l as [|x l IH]; [done|].
  by rewrite !bind_cons, !filter_app, Hfg, IH.
Qed.

Lemma count_bind_ext {A B} (P Q : B → Prop) `{∀ x, Decision (P x)} `{∀ x, Decision (Q x)}
    (f g : A → list B) l :
  (∀ x, length (filter P (f x)) = length (filter Q (g x))) →
  length (filter P (l ≫= f)) = length (filter Q (l ≫= g)).
Proof.
  intros Hfg. induction l as [|x l IH]; [done|].
  by rewrite !bind_cons, !filter_app, !length_app, Hfg, IH.
Qed.

Lemma filter_bind_nil {A B} (P : B → Prop) `{∀ x, Decision (P x)} (f : A → list B) l :
  (∀ x, filter P (f x) = []) → filter P (l ≫= f) = [].
Proof.
  intros Hf. induction l as [|x l IH]; [done|].
  by rewrite bind_cons, filter_app, Hf, IH.
Qed.

Section DriverProtocol.

Context {particle replication shell skymap fits : Type}.
Variable nparticles : Z.
Variable numfiles npixels size : nat.
Variable shells : list shell.
Variable map_path : shell → string.
Variable auxcut : shell → list bool.
Variable nearest : shell → nat.
Variable replicationsinside : shell → list replication.
Variable Npart : nat → Z.
Variable particles : nat → nat → list particle.
Variable Zacc : particle → float32.
Variable crossing : shell → replication → particle → float32.
Variable getSkyCoordinates : replication → particle → float32 → float32 * float32 * float32.
Variable ang2pix : float32 → float32 → Z.
Variable zeros : skymap.
Variable add_counts : skymap → list Z → skymap.
Variable read_map : fits → skymap.
Variable write_map : skymap → fits.

(** X21.  A run that goes through the loop on the snapshots has done
    what the schedule of the loops says, on every process and from
    whatever map files, and it got there because nothing stopped it:
    the particle count of the parameters and that of every snapshot
    file are multiples of the number of processes, and, when there is a
    snapshot file, the widening of lines 118-130 raised for no shell. *)
Theorem completed_run_follows_schedule (rank : nat) (files : gmap string fits)
    (w : world) :
  driver nparticles numfiles npixels rank size shells map_path auxcut nearest
    replicationsinside Npart particles Zacc crossing getSkyCoordinates ang2pix zeros
    add_counts read_map write_map files = inr w →
  events w = run_events rank size shells map_path replicationsinside Npart numfiles
  ∧ nparticles `mod` Z.of_nat size = 0
  ∧ (∀ snapnum, (snapnum < numfiles)%nat → Npart snapnum `mod` Z.of_nat size = 0)
  ∧ ((0 < numfiles)%nat →
     ∀ sh, sh ∈ shells → ∃ kept_points, widen (auxcut sh) (nearest sh) = Ok kept_points).
Proof.
  intros Hrun.
  destruct (driver_trace nparticles numfiles npixels rank size shells map_path auxcut
              nearest replicationsinside Npart particles Zacc crossing getSkyCoordinates
              ang2pix zeros add_counts read_map write_map files w Hrun)
    as (Hev & _ & Hdiv & Hparts & Hfit).
  split; [exact Hev|]. split; [exact Hdiv|]. split; [exact Hparts|].
  intros Hfiles sh Hsh. destruct (Hfit Hfiles sh Hsh) as [a Ha].
  unfold fit_points in Ha. destruct (widen (auxcut sh) (nearest sh)) as [a'|e]; [|done].
  by exists a'.
Qed.

Lemma rank_events_collective (rank ranki : nat) :
  filter (λ e, collective e = true) (rank_events rank ranki) = [EvBarrier].
Proof. unfold rank_events. by repeat case_bool_decide. Qed.

Lemma run_events_collective (rank rank' : nat) :
  filter (λ e, collective e = true)
    (run_events rank size shells map_path replicationsinside Npart numfiles)
  = filter (λ e, collective e = true)
      (run_events rank' size shells map_path replicationsinside Npart numfiles).
Proof.
  unfold run_events. apply filter_bind_ext. intros snapnum.
  unfold snapshot_events. rewrite !filter_app. do 2 f_equal.
  apply filter_bind_ext. intros sh. unfold shell_events. rewrite !filter_app.
  f_equal; [by repeat case_bool_decide|]. f_equal; [|by repeat case_bool_decide].
  apply filter_bind_ext. intros _. unfold replication_events.
  apply filter_bind_ext. intros ranki. by rewrite !rank_events_collective.
Qed.

(** X22.  All the processes of a run go through the same sequence of
    collective operations (broadcasts, scatters, barriers): none waits
    in a collective that another one never enters. *)
Theorem collectives_agree (rank rank' : nat) (files files' : gmap string fits)
    (w w' : world) :
  driver nparticles numfiles npixels rank size shells map_path auxcut nearest
    replicationsinside Npart particles Zacc crossing getSkyCoordinates ang2pix zeros
    add_counts read_map write_map files = inr w →
  driver nparticles numfiles npixels rank' size shells map_path auxcut nearest
    replicationsinside Npart particles Zacc crossing getSkyCoordinates ang2pix zeros
    add_counts read_map write_map files' = inr w' →
  filter (λ e, collective e = true) (events w)
  = filter (λ e, collective e = true) (events w').
Proof.
  intros Hrun Hrun'.
  destruct (driver_trace nparticles numfiles npixels rank size shells map_path auxcut
              nearest replicationsinside Npart particles Zacc crossing getSkyCoordinates
              ang2pix zeros add_counts read_map write_map files w Hrun) as (Hev1 & _).
  destruct (driver_trace nparticles numfiles npixels rank' size shells map_path auxcut
              nearest replicationsinside Npart particles Zacc crossing getSkyCoordinates
              ang2pix zeros add_counts read_map write_map files' w' Hrun') as (Hev2 & _).
  rewrite Hev1, Hev2. apply run_events_collective.
Qed.

Lemma run_events_matching (rank : nat) :
  length (filter (λ e, e = EvSend)
            (run_events rank size shells map_path replicationsinside Npart numfiles))
  = length (filter (λ e, e = EvRecv rank)
              (run_events 0 size shells map_path replicationsinside Npart numfiles)).
Proof.
  unfold run_events. apply count_bind_ext. intros snapnum.
  unfold snapshot_events. rewrite !filter_app, !length_app.
  apply (f_equal2 Nat.add); [reflexivity|].
  apply (f_equal2 Nat.add); [reflexivity|].
  apply count_bind_ext. intros sh. unfold shell_events.
  rewrite !filter_app, !length_app.
  apply (f_equal2 Nat.add); [by repeat case_bool_decide|].
  apply (f_equal2 Nat.add); [|by repeat case_bool_decide].
  apply count_bind_ext. intros _. unfold replication_events.
  apply count_bind_ext. intros ranki. unfold rank_events.
  rewrite !filter_app, !length_app.
  repeat case_bool_decide; try lia; cbn [andb];
    rewrite ?filter_cons, ?filter_nil;
    repeat (case_decide; try congruence); reflexivity.
Qed.

(** X23.  The point-to-point messages match: a process of rank [r]
    sends its slice as many times as the collector receives from [r]. *)
Theorem sends_match_receives (rank : nat) (files files' : gmap string fits)
    (w w0 : world) :
  driver nparticles numfiles npixels rank size shells map_path auxcut nearest
    replicationsinside Npart particles Zacc crossing getSkyCoordinates ang2pix zeros
    add_counts read_map write_map files = inr w →
  driver nparticles numfiles npixels 0 size shells map_path auxcut nearest
    replicationsinside Npart particles Zacc crossing getSkyCoordinates ang2pix zeros
    add_counts read_map write_map files' = inr w0 →
  length (filter (λ e, e = EvSend) (events w))
  = length (filter (λ e, e = EvRecv rank) (events w0)).
Proof.
  intros Hrun Hrun0.
  destruct (driver_trace nparticles numfiles npixels rank size shells map_path auxcut
              nearest replicationsinside Npart particles Zacc crossing getSkyCoordinates
              ang2pix zeros add_counts read_map write_map files w Hrun) as (Hev1 & _).
  destruct (driver_trace nparticles numfiles npixels 0 size shells map_path auxcut
              nearest replicationsinside Npart particles Zacc crossing getSkyCoordinates
              ang2pix zeros add_counts read_map write_map files' w0 Hrun0) as (Hev2 & _).
  rewrite Hev1, Hev2. apply run_events_matching.
Qed.

(** X24.  Only the collector touches the map files: a process of
    another rank reads none, writes none, and leaves the files as they
    were. *)
Theorem workers_leave_maps_alone (rank : nat) (files : gmap string fits) (w : world) :
  rank ≠ 0%nat →
  driver nparticles numfiles npixels rank size shells map_path auxcut nearest
    replicationsinside Npart particles Zacc crossing getSkyCoordinates ang2pix zeros
    add_counts read_map write_map files = inr w →
  disk w = files ∧ filter (λ e, touches_maps e = true) (events w) = [].
Proof.
  intros Hrank Hrun.
  destruct (driver_trace nparticles numfiles npixels rank size shells map_path auxcut
              nearest replicationsinside Npart particles Zacc crossing getSkyCoordinates
              ang2pix zeros add_counts read_map write_map files w Hrun)
    as (Hev & Hdisk & _).
  split; [by apply Hdisk|].
  rewrite Hev. unfold run_events. apply filter_bind_nil. intros snapnum.
  unfold snapshot_events. rewrite !filter_app.
  rewrite (filter_bind_nil _ (shell_events rank size map_path replicationsinside snapnum)).
  - reflexivity.
  - intros sh. unfold shell_events. rewrite !filter_app.
    rewrite !(bool_decide_eq_false_2 (rank = 0%nat)) by done. cbn [andb].
    rewrite (filter_bind_nil _ (λ _, replication_events rank size)); [done|].
    intros _. unfold replication_events. apply filter_bind_nil. intros ranki.
    unfold rank_events. by repeat case_bool_decide.
Qed.

End DriverProtocol.


(** ** The counts of a slice *)

Lemma total_app (l1 l2 : list Z) : total (l1 ++ l2) = total l1 + total l2.
Proof. unfold total. induction l1 as [|x l1 IH]; cbn; [done|]. rewrite IH. lia. Qed.

Lemma total_fmap_plus {A} (f g : A → Z) (l : list A) :
  total ((λ i, f i + g i) <$> l) = total (f <$> l) + total (g <$> l).
Proof. unfold total. induction l as [|x l IH]; cbn; [done|]. rewrite IH. lia. Qed.

(** A pixel number of the map falls into one bin. *)
Lemma one_bin (n : nat) (p : Z) (m : nat) :
  0 ≤ p < Z.of_nat n → (m ≤ n)%nat →
  total ((λ i, if in_bin n i p then 1 else 0) <$> seq 0 m)
  = if decide (p < Z.of_nat m) then 1 else 0.
Proof.
  intros Hp. induction m as [|m IH]; intros Hm.
  - cbn. by rewrite decide_False by lia.
  - rewrite seq_S, fmap_app, total_app, IH by lia. cbn [Nat.add fmap list_fmap].
    unfold total at 1. cbn [foldr]. unfold in_bin.
    rewrite (bool_decide_eq_false_2 (S m = n ∧ p = Z.of_nat n)) by lia.
    rewrite orb_false_r.
    repeat case_decide; case_bool_decide; lia.
Qed.

Lemma histogram_total (n : nat) (pixels : list Z) :
  Forall (λ p, 0 ≤ p < Z.of_nat n) pixels →
  total (np_histogram n pixels) = Z.of_nat (length pixels).
Proof.
  induction 1 as [|p pixels Hp _ IH].
  - unfold np_histogram. cbn [filter list_filter length].
    unfold total. induction (seq 0 n) as [|i l IHl]; cbn; [done|]. by rewrite IHl.
  - unfold np_histogram in *.
    rewrite (list_fmap_ext _
               (λ i, (if in_bin n i p then 1 else 0)
                     + Z.of_nat (length (filter (λ p, in_bin n i p = true) pixels)))
               (seq 0 n)).
    + rewrite total_fmap_plus, IH, (one_bin n p n Hp) by lia.
      rewrite decide_True by lia. cbn [length]. lia.
    + intros _ i _. rewrite filter_cons.
      destruct (in_bin n i p); [rewrite decide_True by done|rewrite decide_False by done];
        cbn [length]; lia.
Qed.

Section Counts.

Variable npixels : nat.
Variable ang2pix : float32 → float32 → Z.

(** X25.  Nothing is lost in the histogram: when [ang2pix] returns
    pixel numbers of the map, the counts that a slice adds to the map
    sum up to the number of its particles that have a positive distance;
    each of them is in one pixel and the others are in none. *)
Theorem slice_counts_conserve (coords : list (float32 * float32 * float32)) :
  (∀ theta phi, 0 ≤ ang2pix theta phi < Z.of_nat npixels) →
  length (slice_counts npixels ang2pix coords) = npixels
  ∧ total (slice_counts npixels ang2pix coords)
    = Z.of_nat (length (filter (λ c, f32_ltb f32_zero c.1.1 = true) coords)).
Proof.
  intros Hrange. unfold slice_counts. split.
  - unfold np_histogram. by rewrite length_fmap, length_seq.
  - rewrite histogram_total.
    + unfold pixels_of. by rewrite length_fmap.
    + unfold pixels_of. apply Forall_fmap, Forall_forall. intros c _. apply Hrange.
Qed.

End Counts.

Lemma slice_counts_conserve_witness :
  length (slice_counts 2 toy_ang2pix
            [(toy_quarter, f32_zero, f32_zero); (sentinel, f32_zero, f32_zero)]) = 2%nat
  ∧ total (slice_counts 2 toy_ang2pix
             [(toy_quarter, f32_zero, f32_zero); (sentinel, f32_zero, f32_zero)])
    = Z.of_nat (length (filter (λ c, f32_ltb f32_zero c.1.1 = true)
                          [(toy_quarter, f32_zero, f32_zero);
                           (sentinel, f32_zero, f32_zero)])).
Proof.
  apply (slice_counts_conserve 2 toy_ang2pix).
  intros theta phi. unfold toy_ang2pix. lia.
Defined.

(** ** The points kept for the fit of a shell *)

Lemma np_sum_cons b a : np_sum (b :: a) = ((if b then 1 else 0) + np_sum a)%nat.
Proof. unfold np_sum. rewrite filter_cons. by destruct b. Qed.

Lemma np_sum_true (a : list bool) i : a !! i = Some true → (1 ≤ np_sum a)%nat.
Proof.
  revert i. induction a as [|b a IH]; intros [|i] Hi; try done; rewrite np_sum_cons.
  - cbn in Hi. injection Hi as ->. lia.
  - specialize (IH i Hi). lia.
Qed.

Lemma np_sum_two (a : list bool) i j :
  a !! i = Some true → a !! j = Some true → i ≠ j → (2 ≤ np_sum a)%nat.
Proof.
  revert i j. induction a as [|b a IH]; intros [|i] [|j] Hi Hj Hij; try done;
    rewrite np_sum_cons; cbn in Hi, Hj.
  - injection Hi as ->. pose proof (np_sum_true a j Hj). lia.
  - injection Hj as ->. pose proof (np_sum_true a i Hi). lia.
  - assert (i ≠ j) by congruence. specialize (IH i j Hi Hj). lia.
Qed.

Lemma np_sum_none (a : list bool) i :
  np_sum a = 0%nat → (i < length a)%nat → a !! i = Some false.
Proof.
  revert i. induction a as [|b a IH]; intros i Hsum Hi; [cbn in Hi; lia|].
  rewrite np_sum_cons in Hsum. destruct b; [lia|].
  destruct i as [|i]; [done|]. cbn in *. apply IH; lia.
Qed.

(** [argmax] of an array that has a [True] is the position of one. *)
Lemma np_argmax_true (a : list bool) :
  (1 ≤ np_sum a)%nat → ∃ p, np_argmax a = Ok p ∧ a !! p = Some true.
Proof.
  intros Hsum. destruct a as [|b a]; [cbn in Hsum; lia|].
  unfold np_argmax.
  destruct (list_find (λ b, b = true) (b :: a)) as [[p x]|] eqn:Hfind.
  - apply list_find_Some in Hfind as (Hp & -> & _). by exists p.
  - exfalso. apply list_find_None in Hfind.
    assert (Hzero : np_sum (b :: a) = 0%nat); [|lia].
    clear Hsum. induction Hfind as [|x l Hx _ IH]; [done|].
    rewrite np_sum_cons, IH. by destruct x.
Qed.

Lemma set_true_ok (a a' : list bool) i :
  set_true a i = Ok a' →
  length a' = length a ∧ a' !! i = Some true
  ∧ ∀ j, j ≠ i → a' !! j = a !! j.
Proof.
  unfold set_true. case_decide as Hi; [|done]. intros [= <-].
  split; [by rewrite length_insert|]. split.
  - by apply list_lookup_insert_eq.
  - intros j Hj. by apply list_lookup_insert_ne.
Qed.

Lemma add_neighbours_ok (a a' : list bool) index :
  (index < length a)%nat →
  add_neighbours a index = Ok a' →
  length a' = length a
  ∧ a' !! (index + 1)%nat = Some true
  ∧ (∀ j, a !! j = Some true → a' !! j = Some true)
  ∧ ∀ j, j ≠ (index + 1)%nat → (0 < index → j ≠ index - 1)%nat → a' !! j = a !! j.
Proof.
  intros Hindex. unfold add_neighbours. rewrite decide_True by done.
  destruct (set_true a (index + 1)) as [a1|e] eqn:H1; [|done]. cbn [rbind].
  apply set_true_ok in H1 as (Hlen1 & Hset1 & Hrest1).
  case_decide as Hpos.
  - intros Hset. apply set_true_ok in Hset as (Hlen2 & Hset2 & Hrest2).
    split; [congruence|]. split; [rewrite Hrest2 by lia; done|]. split.
    + intros j Hj. destruct (decide (j = (index - 1)%nat)) as [->|Hne2]; [done|].
      rewrite Hrest2 by done.
      destruct (decide (j = (index + 1)%nat)) as [->|Hne1]; [done|].
      by rewrite Hrest1.
    + intros j Hj1 Hj2. rewrite Hrest2 by auto. by apply Hrest1.
  - intros [= <-]. split; [done|]. split; [done|]. split.
    + intros j Hj. destruct (decide (j = (index + 1)%nat)) as [->|Hne1]; [done|].
      by rewrite Hrest1.
    + intros j Hj1 _. by apply Hrest1.
Qed.

(** X26.  The test [index < auxcut.size] that guards [auxcut[index + 1]]
    holds for every index of the array: it does not keep the assignment
    inside.  When the only point of the table in the range of a shell is
    the last one, or when no point is in the range and the nearest is
    the last one, the driver raises [IndexError]. *)
Theorem last_point_raises (auxcut : list bool) (nearest : nat) :
  auxcut ≠ [] →
  (np_sum auxcut = 1%nat ∧ last auxcut = Some true)
  ∨ (np_sum auxcut = 0%nat ∧ nearest = (length auxcut - 1)%nat) →
  widen auxcut nearest = Raise IndexError.
Proof.
  intros Hne Hcase.
  assert (Hlen : (0 < length auxcut)%nat) by (destruct auxcut; [done|cbn; lia]).
  unfold widen. destruct Hcase as [[Hone Hlast]|[Hzero ->]].
  - rewrite decide_True by done.
    destruct (np_argmax_true auxcut ltac:(lia)) as (p & -> & Hp). cbn [rbind].
    assert (p = (length auxcut - 1)%nat) as ->.
    { rewrite last_lookup, <- Nat.sub_1_r in Hlast.
      destruct (decide (p = (length auxcut - 1)%nat)) as [->|Hneq]; [done|].
      pose proof (np_sum_two auxcut _ _ Hp Hlast Hneq). lia. }
    unfold add_neighbours, set_true.
    rewrite decide_True by lia. rewrite decide_False by lia. reflexivity.
  - rewrite decide_False by lia. cbn [rbind]. rewrite decide_True by done.
    destruct auxcut as [|b a]; [done|].
    unfold add_neighbours, set_true.
    rewrite decide_True by lia. rewrite decide_False by lia. reflexivity.
Qed.

Lemma last_point_raises_witness :
  widen [false; false; true] 0 = Raise IndexError.
Proof.
  apply (last_point_raises [false; false; true] 0).
  - discriminate.
  - left. split; reflexivity.
Defined.

(** X27.  When the widening goes through, no point of the range is
    dropped and the array keeps its length.  With points in the range
    at least two are kept for the fit: a lone point gets its
    neighbours.  With no point in the range the neighbours of the
    nearest point are kept, but not the nearest point itself. *)
Theorem widen_keeps_points (auxcut kept_points : list bool) (nearest : nat) :
  (nearest < length auxcut)%nat →
  widen auxcut nearest = Ok kept_points →
  length kept_points = length auxcut
  ∧ (∀ i, auxcut !! i = Some true → kept_points !! i = Some true)
  ∧ (np_sum auxcut ≠ 0%nat → (2 ≤ np_sum kept_points)%nat)
  ∧ (np_sum auxcut = 0%nat →
     kept_points !! (nearest + 1)%nat = Some true
     ∧ kept_points !! nearest = Some false).
Proof.
  intros Hnearest. unfold widen.
  destruct (decide (np_sum auxcut = 1%nat)) as [Hone|Hmore].
  - destruct (np_argmax_true auxcut ltac:(lia)) as (p & -> & Hp). cbn [rbind].
    destruct (add_neighbours auxcut p) as [a1|e] eqn:Hadd; [|done]. cbn [rbind].
    apply add_neighbours_ok in Hadd as (Hlen & Hnext & Hmono & Hrest);
      [|by apply lookup_lt_Some in Hp].
    assert (Hp1 : a1 !! p = Some true) by (by apply Hmono).
    assert (Htwo : (2 ≤ np_sum a1)%nat) by (apply (np_sum_two a1 p (p + 1)); [done|done|lia]).
    rewrite decide_False by lia. intros [= <-].
    split; [done|]. split; [|split; [done|lia]].
    intros i Hi. destruct (decide (i = p)) as [->|Hneq]; [done|].
    pose proof (np_sum_two auxcut _ _ Hi Hp Hneq). lia.
  - cbn [rbind]. destruct (decide (np_sum auxcut = 0%nat)) as [Hzero|Hsome].
    + destruct auxcut as [|b a]; [done|]. set (auxcut := b :: a) in *.
      intros Hadd. apply add_neighbours_ok in Hadd as (Hlen & Hnext & Hmono & Hrest); [|done].
      split; [done|]. split; [|split; [done|]].
      * intros i Hi. pose proof (np_sum_true auxcut i Hi). lia.
      * intros _. split; [done|]. rewrite Hrest by lia. by apply np_sum_none.
    + intros [= <-]. split; [done|]. split; [done|]. split; [lia|done].
Qed.

Lemma widen_keeps_points_witness :
  length [true; true; true; false] = length [false; true; false; false]
  ∧ (∀ i, [false; true; false; false] !! i = Some true
          → [true; true; true; false] !! i = Some true)
  ∧ (np_sum [false; true; false; false] ≠ 0%nat
     → (2 ≤ np_sum [true; true; true; false])%nat)
  ∧ (np_sum [false; true; false; false] = 0%nat →
     [true; true; true; false] !! (3 + 1)%nat = Some true
     ∧ [true; true; true; false] !! 3%nat = Some false).
Proof.
  apply (widen_keeps_points [false; true; false; false] [true; true; true; false] 3).
  - cbn. lia.
  - reflexivity.
Defined.

(** ** The properties on the catalogs and the runs above *)

Lemma truncated_header_raises_witness :
  guess_format no_snapshot short_fs "out/" (SnapInt 5) = ([], Raise IndexError)
  ∧ new_catalog no_snapshot true false short_fs default_options "out/" (SnapInt 5)
    = ([], Raise IndexError).
Proof.
  apply (truncated_header_raises no_snapshot true false short_fs default_options "out/" (SnapInt 5)
           "out/groups_005/subhalo_tab_005" 1
           (take 23 (write_header false 1 single_header))).
  - vm_compute. reflexivity.
  - discriminate.
  - reflexivity.
  - vm_compute. lia.
Defined.

Lemma extended_detection_witness :
  guess_format no_snapshot (single_fs true) "out/" (SnapInt 5)
  = let bytes := write_segment true 1 np_uint32 default_options sample_values
                   single_header 0 0 in
    let nfiles := count_files (single_fs true) "out/groups_005/subhalo_tab_005" in
    if decide (le_unsigned (take 4 (drop 20 bytes)) = Z.of_nat nfiles) then
      ([], Ok (Some (nfiles, 1, false)))
    else if decide (le_unsigned (reverse (take 4 (drop 20 bytes))) = Z.of_nat nfiles) then
      ([], Ok (Some (nfiles, 1, true)))
    else ([MsgNotUnderstood ("out/groups_005/subhalo_tab_005" +:+ ".0")], Ok None).
Proof.
  apply (extended_detection no_snapshot (single_fs true) "out/" (SnapInt 5)
           "out/groups_005/subhalo_tab_005"
           (write_segment true 1 np_uint32 default_options sample_values single_header 0 0)).
  - vm_compute. reflexivity.
  - reflexivity.
  - vm_compute. lia.
Defined.

Lemma one_segment_round_trip_witness :
  returns
    (new_catalog no_snapshot true false
       (one_segment_fs true default_options sample_values (complete_header 5 8 40))
       default_options "out/" (SnapInt 5))
    (λ c, self_swap c = Some true
          ∧ self_TotNgroups c = Some 5
          ∧ self_TotNsubhalos c = Some 8
          ∧ self_TotNids c = Some 40
          ∧ ∀ fld, fld ∈ extended_body (id_dtype default_options) default_options →
                   self_arrays c !! field_name fld
                   = Some (expected_array sample_values (field_dtype fld) (field_name fld)
                             (count_of (field_per fld) (complete_header 5 8 40)))).
Proof.
  apply (one_segment_round_trip no_snapshot true false true default_options sample_values 5 8 40);
    lia.
Defined.

Lemma one_segment_swapped_copy_agrees_witness :
  returns
    (new_catalog no_snapshot true false
       (one_segment_fs false default_options sample_values (complete_header 5 8 40))
       default_options "out/" (SnapInt 5))
    (λ c, returns
            (new_catalog no_snapshot true false
               (one_segment_fs true default_options sample_values (complete_header 5 8 40))
               default_options "out/" (SnapInt 5))
            (λ c', self_swap c = Some false ∧ self_swap c' = Some true
                   ∧ self_TotNgroups c' = self_TotNgroups c
                   ∧ self_TotNsubhalos c' = self_TotNsubhalos c
                   ∧ self_TotNids c' = self_TotNids c
                   ∧ ∀ fld, fld ∈ extended_body (id_dtype default_options) default_options →
                            self_arrays c' !! field_name fld
                            = self_arrays c !! field_name fld)).
Proof.
  apply (one_segment_swapped_copy_agrees no_snapshot true false default_options sample_values
           5 8 40); lia.
Defined.

Lemma tab_offsets_are_sums_witness :
  ∃ skipS skipG st_k hs,
    read_tab_files true front_loaded_fs default_options "out/groups_005/subhalo_tab_005" 2 1
      1 0 (0, 0) before_loop = (Ok (skipS, skipG), st_k)
    ∧ length hs = 2%nat
    ∧ (∀ j h, hs !! j = Some h
              → segment_header front_loaded_fs "out/groups_005/subhalo_tab_005" 1 false j
                = Some h)
    ∧ skipG = add_int32 true 0 (total (Ngroups <$> hs))
    ∧ skipS = add_subhalos true 1 0 (total (Nsubhalos <$> hs))
    ∧ (- 2 ^ 31 ≤ total (Ngroups <$> hs) < 2 ^ 31 → skipG = total (Ngroups <$> hs))
    ∧ (0 ≤ total (Nsubhalos <$> hs) < 2 ^ 31 → skipS = total (Nsubhalos <$> hs)).
Proof.
  eapply (tab_offsets_are_sums true front_loaded_fs default_options
            "out/groups_005/subhalo_tab_005" 2 1 1 1 before_loop).
  - reflexivity.
  - lia.
  - vm_compute. reflexivity.
Defined.

Lemma help_never_raises_witness :
  (help (catalog_of (single_fs false))).2 = Ok tt
  ∧ (self_myformat (catalog_of (single_fs false)) = Some 2 →
     (help (catalog_of (single_fs false))).1
     = [[PyStr "Please treat this SubFind catalog as a snapshot"]]).
Proof.
  apply (help_never_raises no_snapshot true false (single_fs false) default_options "out/"
           (SnapInt 5) []).
  vm_compute. reflexivity.
Defined.

Lemma help_never_lists_SubMassTab_witness :
  ([PyStr "  SubMassTab        (dtype=np.dtype((np.float32,6)))"]
   ∉ (help (catalog_of (single_fs false))).1)
  ∧ (self_myformat (catalog_of (single_fs false)) ≠ Some 2 →
     SaveMassTab default_options = true →
     is_Some (self_arrays (catalog_of (single_fs false)) !! "SubMassTab")).
Proof.
  apply (help_never_lists_SubMassTab no_snapshot true false (single_fs false) default_options
           "out/" (SnapInt 5) []).
  vm_compute. reflexivity.
Defined.

Lemma help_reports_no_IDs_witness :
  [PyStr "Particle IDs have not been read"] ∈ (help (catalog_of (ids_fs 5))).1
  ∧ [PyStr "Particle IDs have not been read"]
    ∈ (help (self (read_IDs (ids_fs 5)
                     (State (catalog_of (ids_fs 5)) (Handle [] 0) [])).2)).1
  ∧ ([PyStr "Particle IDs of FoF groups (length TotNids)"]
     ∉ (help (self (read_IDs (ids_fs 5)
                      (State (catalog_of (ids_fs 5)) (Handle [] 0) [])).2)).1).
Proof.
  refine (help_reports_no_IDs no_snapshot true false (ids_fs 5) default_options "out/"
            (SnapInt 5) [] (catalog_of (ids_fs 5)) _ _ (ids_fs 5) (Handle [] 0)).
  - vm_compute. reflexivity.
  - vm_compute. discriminate.
Defined.

Lemma help_lists_optional_fields_witness :
  ([PyStr "  VelDisp_Mean200   (dtype=np.float32)"] ∈ (help (catalog_of (single_fs false))).1
   ↔ self_myformat (catalog_of (single_fs false)) = Some 1
     ∧ SOVelDisp default_options = true)
  ∧ ([PyStr "  HaloCont           (dtype=np.float32)"]
     ∈ (help (catalog_of (single_fs false))).1
     ↔ ConTermination default_options = true).
Proof.
  apply (help_lists_optional_fields no_snapshot true false (single_fs false) default_options
           "out/" (SnapInt 5) []).
  - vm_compute. reflexivity.
  - vm_compute. discriminate.
Defined.

Lemma completed_run_follows_schedule_witness :
  events (toy_world 1) = run_events 1 3 [true; false] toy_path (λ _ : bool, [tt]) (λ _, 9) 2
  ∧ 9 `mod` Z.of_nat 3 = 0
  ∧ (∀ snapnum : nat, (snapnum < 2)%nat → 9 `mod` Z.of_nat 3 = 0)
  ∧ ((0 < 2)%nat →
     ∀ sh, sh ∈ [true; false] →
           ∃ kept_points, widen (toy_auxcut sh) (toy_nearest sh) = Ok kept_points).
Proof.
  apply (completed_run_follows_schedule (particle:=toy_particle) 9 2 2 3 [true; false]
           toy_path toy_auxcut toy_nearest (λ _, [tt]) (λ _, 9) toy_particles snd
           toy_crossing toy_sky toy_ang2pix [0; 0] toy_add id id 1 ∅ (toy_world 1)).
  vm_compute. reflexivity.
Defined.

Lemma collectives_agree_witness :
  filter (λ e, collective e = true) (events (toy_world 0))
  = filter (λ e, collective e = true) (events (toy_world 2)).
Proof.
  apply (collectives_agree (particle:=toy_particle) 9 2 2 3 [true; false] toy_path
           toy_auxcut toy_nearest (λ _, [tt]) (λ _, 9) toy_particles snd toy_crossing
           toy_sky toy_ang2pix [0; 0] toy_add id id 0 2 ∅ ∅ (toy_world 0) (toy_world 2));
    vm_compute; reflexivity.
Defined.

Lemma sends_match_receives_witness :
  length (filter (λ e, e = EvSend) (events (toy_world 2)))
  = length (filter (λ e, e = EvRecv 2) (events (toy_world 0))).
Proof.
  apply (sends_match_receives (particle:=toy_particle) 9 2 2 3 [true; false] toy_path
           toy_auxcut toy_nearest (λ _, [tt]) (λ _, 9) toy_particles snd toy_crossing
           toy_sky toy_ang2pix [0; 0] toy_add id id 2 ∅ ∅ (toy_world 2) (toy_world 0));
    vm_compute; reflexivity.
Defined.

Lemma workers_leave_maps_alone_witness :
  disk (toy_world 1) = ∅
  ∧ filter (λ e, touches_maps e = true) (events (toy_world 1)) = [].
Proof.
  apply (workers_leave_maps_alone (particle:=toy_particle) 9 2 2 3 [true; false] toy_path
           toy_auxcut toy_nearest (λ _, [tt]) (λ _, 9) toy_particles snd toy_crossing
           toy_sky toy_ang2pix [0; 0] toy_add id id 1 ∅ (toy_world 1)).
  - discriminate.
  - vm_compute. reflexivity.
Defined.
